(** * Perry: schedule notifications, auto-blocking and the hosts-file blocker

    A shallow embedding of the schedule / notification / website-blocking
    code of the Perry dashboard (config.py, pages.py,
    enhanced_notifications.py, enhanced_schedule_config.py,
    notification_service.py, website_blocker.py), followed by the
    properties that the specification states about it.

    Conventions of the embedding.
    - A naive [datetime] is an integer number of microseconds; a [date] is
      a day number and a [time] the microseconds since midnight, so that
      [datetime.combine d t = d * 86400e6 + t].  The source computes
      [time_diff = total_seconds() / 60] in floating point and compares it
      with small integer constants; on the microsecond grid and within one
      day that comparison agrees with the exact one, which is what is
      written here (thresholds are scaled to microseconds by [minutes]).
    - A schedule is a Python dict used as a record: a key that may be
      absent is an [option] field, [d.get(k)] reads the option and [d[k]]
      raises [KeyError k] on [None].
    - The hosts file is the sequence of characters that it holds, line
      ends as they are stored.  Reading translates the line ends as
      Python's text mode does (universal newlines), writing puts
      [os.linesep] for every line break and stops at the first line that
      the codec of the locale cannot encode. *)

From Stdlib Require Import ZArith Lia Ascii String.
From stdpp Require Import base option list sorting strings gmap pretty.

Local Open Scope Z_scope.

(* ===================================================================== *)
(** * Part I: the embedding *)
(* ===================================================================== *)

(** ** Clock arithmetic (datetime, timedelta) *)

Module Clock.

Definition us_per_second : Z := 1000000.
Definition us_per_minute : Z := 60 * us_per_second.
Definition us_per_day : Z := 86400 * us_per_second.

(** [n] minutes, in microseconds. *)
Definition minutes (n : Z) : Z := n * us_per_minute.
Definition seconds (n : Z) : Z := n * us_per_second.

(** [now.date()] *)
Definition date_of (now : Z) : Z := now / us_per_day.

(** [datetime.combine(d, t)] *)
Definition combine (d t : Z) : Z := d * us_per_day + t.

(** [(a - b).seconds]: the seconds field of the normalised timedelta,
    always in [0, 86400); whole days are dropped. *)
Definition timedelta_seconds (delta : Z) : Z :=
  (delta mod us_per_day) / us_per_second.

End Clock.

Arguments Clock.minutes : simpl never.
Arguments Clock.seconds : simpl never.
Arguments Clock.combine : simpl never.
Arguments Clock.date_of : simpl never.
Arguments Clock.timedelta_seconds : simpl never.

(** ** Text helpers: substring test, text-mode reading and writing *)

Module Text.

Definition newline : ascii := ascii_of_nat 10.
Definition carriage_return : ascii := ascii_of_nat 13.
Definition nl : string := String newline EmptyString.

(** [needle in hay] on Python strings. *)
Fixpoint contains (needle hay : string) : bool :=
  String.prefix needle hay ||
  match hay with
  | EmptyString => false
  | String _ rest => contains needle rest
  end.

(** The lines of a text, each keeping its newline: the way in which
    [readlines] cuts the translated text. *)
Fixpoint split_lines (s : string) : list string :=
  match s with
  | EmptyString => []
  | String c rest =>
      if Ascii.eqb c newline then String c EmptyString :: split_lines rest
      else match split_lines rest with
           | [] => [String c EmptyString]
           | l :: ls => String c l :: ls
           end
  end.

(** Universal newlines, the translation made by a file opened with
    [open(path, 'r')]: "\r\n" and a "\r" on its own are read as "\n". *)
Fixpoint universal_newlines (s : string) : string :=
  match s with
  | EmptyString => EmptyString
  | String c rest =>
      if Ascii.eqb c carriage_return then
        match rest with
        | EmptyString => nl
        | String c' _ =>
            if Ascii.eqb c' newline then universal_newlines rest
            else String newline (universal_newlines rest)
        end
      else String c (universal_newlines rest)
  end.

(** [f.readlines()] on a file opened with [open(path, 'r')] whose
    characters are [s]. *)
Definition readlines (s : string) : list string :=
  split_lines (universal_newlines s).

(** [''.join(lines)] *)
Definition join (lines : list string) : string :=
  foldr String.append EmptyString lines.

(** [os.linesep]: "\n" on Linux and macOS, "\r\n" on Windows. *)
Inductive line_separator := LF | CRLF.

Definition linesep_text (sep : line_separator) : string :=
  match sep with
  | LF => nl
  | CRLF => String carriage_return nl
  end.

(** The translation made by a file opened with [open(path, 'w')]: every
    "\n" is written as [os.linesep]. *)
Fixpoint native_newlines (sep : line_separator) (s : string) : string :=
  match s with
  | EmptyString => EmptyString
  | String c rest =>
      (if Ascii.eqb c newline then linesep_text sep
       else String c EmptyString) +:+ native_newlines sep rest
  end.

(** Every character of the text passes the test. *)
Fixpoint all_chars (test : ascii -> bool) (s : string) : bool :=
  match s with
  | EmptyString => true
  | String c rest => test c && all_chars test rest
  end.

(** [f.writelines(lines)] on a file that [open(path, 'w')] has just
    emptied: the lines are encoded and written one after the other.  A
    line with a character that the codec cannot encode raises
    UnicodeEncodeError; the lines before it have been written and stay
    in the file.  The result is the text in the file and whether every
    line was written. *)
Fixpoint writelines (sep : line_separator) (codec : ascii -> bool)
    (lines : list string) : string * bool :=
  match lines with
  | [] => (EmptyString, true)
  | line :: rest =>
      if all_chars codec line then
        let written := writelines sep codec rest in
        (native_newlines sep line +:+ written.1, written.2)
      else (EmptyString, false)
  end.

End Text.

(** ** website_blocker.py: class WebsiteBlocker *)

Module WebsiteBlocker.
Import Text.

(** What the blocker sees of the operating system.  The hosts file is
    kept as the characters that it holds; a character outside the codec
    of the locale stands for bytes that this codec cannot decode. *)
Record os := {
  is_admin : bool;        (* _check_admin_privileges() *)
  hosts_readable : bool;  (* open(hosts_path, 'r') succeeds *)
  hosts_writable : bool;  (* open(hosts_path, 'w') succeeds *)
  linesep : line_separator;  (* os.linesep *)
  encodable : ascii -> bool; (* the characters beyond ASCII that the
                                codec of the locale has *)
  hosts : string          (* the characters in the hosts file *)
}.

Definition set_hosts (w : os) (txt : string) : os :=
  {| is_admin := is_admin w; hosts_readable := hosts_readable w;
     hosts_writable := hosts_writable w; linesep := linesep w;
     encodable := encodable w; hosts := txt |}.

(** The first 128 characters; every codec that Python takes from the
    locale (UTF-8, cp1252, Latin-1, ASCII) has them. *)
Definition is_ascii (c : ascii) : bool :=
  match c with
  | Ascii _ _ _ _ _ _ _ high => negb high
  end.

(** The characters that the codec of the locale can encode and
    decode. *)
Definition in_codec (w : os) (c : ascii) : bool :=
  is_ascii c || encodable w c.

Definition redirect_ip : string := "127.0.0.1".
Definition marker_start : string := "# START FOCUS MODE BLOCKING".
Definition marker_end : string := "# END FOCUS MODE BLOCKING".

(** The default [blocked_sites] of [__init__]. *)
Definition default_blocked_sites : list string :=
  [ "youtube.com"; "www.youtube.com";
    "instagram.com"; "www.instagram.com";
    "facebook.com"; "www.facebook.com";
    "twitter.com"; "www.twitter.com"; "x.com"; "www.x.com";
    "reddit.com"; "www.reddit.com";
    "netflix.com"; "www.netflix.com";
    "twitch.tv"; "www.twitch.tv";
    "tiktok.com"; "www.tiktok.com" ]%string.

Definition _check_admin_privileges (w : os) : bool := is_admin w.

(** [None] when the file cannot be read: [open] raises PermissionError,
    or [f.readlines()] raises UnicodeDecodeError, which the second
    [except] clause catches. *)
Definition _read_hosts_file (w : os) : option (list string) :=
  if hosts_readable w && all_chars (in_codec w) (hosts w)
  then Some (readlines (hosts w))
  else None.

(** The new world and whether the write succeeded.  When [open] raises
    PermissionError the file is as before; once it is open the file
    holds what [writelines] could write, also when that raised. *)
Definition _write_hosts_file (w : os) (lines : list string) : os * bool :=
  if hosts_writable w then
    let written := writelines (linesep w) (in_codec w) lines in
    (set_hosts w written.1, written.2)
  else (w, false).

Definition is_blocking_active (w : os) : bool :=
  match _read_hosts_file w with
  | None => false
  | Some lines => contains marker_start (join lines)
  end.

(** The dict returned by [block_websites] / [unblock_websites]. *)
Record result := {
  success : bool;
  message : string;
  blocked_sites : list string;
  requires_admin : bool
}.

(** The lines appended by [block_websites]; [stamp] is the rendering of
    [datetime.now().strftime("%Y-%m-%d %H:%M:%S")]. *)
Definition blocking_entries (sites : list string) (stamp : string)
  : list string :=
  [ nl +:+ marker_start +:+ nl;
    "# Added by Focus Timer on " +:+ stamp +:+ nl ]
  ++ map (fun site => redirect_ip +:+ " " +:+ site +:+ nl) sites
  ++ [ marker_end +:+ nl ].

Definition block_websites (sites : list string) (stamp : string) (w : os)
  : os * result :=
  if negb (_check_admin_privileges w) then
    (w, {| success := false;
           message := "Administrator/root privileges required";
           blocked_sites := []; requires_admin := true |})
  else
    match _read_hosts_file w with
    | None =>
        (w, {| success := false;
               message := "Cannot read hosts file (permission denied)";
               blocked_sites := []; requires_admin := true |})
    | Some lines =>
        if is_blocking_active w then
          (w, {| success := true;
                 message := "Blocking is already active";
                 blocked_sites := sites; requires_admin := false |})
        else
          match _write_hosts_file w (lines ++ blocking_entries sites stamp) with
          | (w', false) =>
              (w', {| success := false;
                      message := "Cannot write to hosts file (permission denied)";
                      blocked_sites := []; requires_admin := true |})
          | (w', true) =>
              (w', {| success := true;
                      message := "Successfully blocked " +:+
                                 pretty (length sites) +:+ " websites";
                      blocked_sites := sites; requires_admin := false |})
          end
    end.

(** The loop of [unblock_websites] that drops the marked section;
    [skip] is the loop's flag. *)
Fixpoint remove_blocking_section (skip : bool) (lines : list string)
  : list string :=
  match lines with
  | [] => []
  | line :: rest =>
      if contains marker_start line then remove_blocking_section true rest
      else if contains marker_end line then remove_blocking_section false rest
      else if negb skip then line :: remove_blocking_section skip rest
      else remove_blocking_section skip rest
  end.

Definition unblock_websites (w : os) : os * result :=
  if negb (_check_admin_privileges w) then
    (w, {| success := false;
           message := "Administrator/root privileges required";
           blocked_sites := []; requires_admin := false |})
  else
    match _read_hosts_file w with
    | None =>
        (w, {| success := false;
               message := "Cannot read hosts file (permission denied)";
               blocked_sites := []; requires_admin := false |})
    | Some lines =>
        match _write_hosts_file w (remove_blocking_section false lines) with
        | (w', false) =>
            (w', {| success := false;
                    message := "Cannot write to hosts file (permission denied)";
                    blocked_sites := []; requires_admin := false |})
        | (w', true) =>
            (w', {| success := true;
                    message := "Successfully unblocked all websites";
                    blocked_sites := []; requires_admin := false |})
        end
    end.

End WebsiteBlocker.

(** ** Exceptions: a dict lookup [d[k]] on an absent key raises KeyError *)

Inductive exn : Type :=
  | KeyError (key : string)
  | AttributeError (name : string).

Inductive outcome (A : Type) : Type :=
  | Return (a : A)
  | Raise (e : exn).
Arguments Return {A} a.
Arguments Raise {A} e.

Global Instance outcome_ret : MRet outcome := fun A a => Return a.
Global Instance outcome_bind : MBind outcome := fun A B k m =>
  match m with
  | Return a => k a
  | Raise e => Raise e
  end.

(** [d[key]] *)
Definition item {A} (key : string) (field : option A) : outcome A :=
  match field with
  | Some v => Return v
  | None => Raise (KeyError key)
  end.

(** Truth value of [d.get(key)] and of [d.get(key, False)]. *)
Definition truthy (field : option bool) : bool := default false field.

(** ** The data model: schedule and notification dicts, session state *)

Record Schedule := {
  s_id : option string;
  s_title : option string;
  s_description : option string;
  s_date : option Z;
  s_start_time : option Z;
  s_end_time : option Z;
  s_category : option string;
  s_priority : option string;
  s_completed : option bool;
  s_created_at : option Z;
  s_started : option bool;
  s_missed_notified : option bool;
  s_auto_block_triggered : option bool;
  s_auto_block_time : option Z;
  s_auto_blocked : option bool;
  s_auto_block_executed : option Z;
  s_start_timestamp : option Z
}.

(** The keys of a schedule that the code assigns after creation. *)
Inductive flag_key :=
  | Completed | Started | MissedNotified | AutoBlockTriggered | AutoBlocked.
Inductive stamp_key :=
  | AutoBlockTime | AutoBlockExecuted | StartTimestamp.

(** [schedule[k] = v] for a boolean key. *)
Definition set_flag (k : flag_key) (v : bool) (s : Schedule) : Schedule :=
  {| s_id := s_id s; s_title := s_title s; s_description := s_description s;
     s_date := s_date s; s_start_time := s_start_time s;
     s_end_time := s_end_time s; s_category := s_category s;
     s_priority := s_priority s;
     s_completed := match k with Completed => Some v | _ => s_completed s end;
     s_created_at := s_created_at s;
     s_started := match k with Started => Some v | _ => s_started s end;
     s_missed_notified :=
       match k with MissedNotified => Some v | _ => s_missed_notified s end;
     s_auto_block_triggered :=
       match k with
       | AutoBlockTriggered => Some v
       | _ => s_auto_block_triggered s
       end;
     s_auto_block_time := s_auto_block_time s;
     s_auto_blocked :=
       match k with AutoBlocked => Some v | _ => s_auto_blocked s end;
     s_auto_block_executed := s_auto_block_executed s;
     s_start_timestamp := s_start_timestamp s |}.

(** [schedule[k] = t] for a datetime key. *)
Definition set_stamp (k : stamp_key) (t : Z) (s : Schedule) : Schedule :=
  {| s_id := s_id s; s_title := s_title s; s_description := s_description s;
     s_date := s_date s; s_start_time := s_start_time s;
     s_end_time := s_end_time s; s_category := s_category s;
     s_priority := s_priority s; s_completed := s_completed s;
     s_created_at := s_created_at s; s_started := s_started s;
     s_missed_notified := s_missed_notified s;
     s_auto_block_triggered := s_auto_block_triggered s;
     s_auto_block_time :=
       match k with AutoBlockTime => Some t | _ => s_auto_block_time s end;
     s_auto_blocked := s_auto_blocked s;
     s_auto_block_executed :=
       match k with
       | AutoBlockExecuted => Some t
       | _ => s_auto_block_executed s
       end;
     s_start_timestamp :=
       match k with StartTimestamp => Some t | _ => s_start_timestamp s end |}.

(** A notification dict.  A ['time_diff'] is kept in microseconds.
    Every notification that the code builds has the keys ['id'],
    ['schedule_id'], ['title'], ['time'] and ['timestamp'].  Of the
    display text ['message'] only the presence of the key is kept
    ([n_message]); every notification that the code builds has it. *)
Record Notification := {
  n_id : string;
  n_schedule_id : string;
  n_title : string;
  n_type : option string;
  n_time : Z;
  n_time_diff : option Z;
  n_timestamp : Z;
  n_read : option bool;
  n_severity : option string;
  n_auto_block : option bool;
  n_action : option string;
  n_message : bool
}.

(** The part of [st.session_state] that the schedule code uses. *)
Record session := {
  schedules : list Schedule;
  notifications : list Notification;
  last_notification_check : option Z;
  blocking_active : bool;
  blocking_reason : option string
}.

(** [any(n['id'] == notif_id for n in st.session_state.notifications)] *)
Definition has_notification (notif_id : string) (ns : list Notification)
  : bool :=
  existsb (fun n => String.eqb (n_id n) notif_id) ns.

(** A [for schedule in schedules:] loop whose body mutates the schedule
    it visits and some other state [E].  A body that raises stops the
    loop; what was mutated until then stays mutated. *)
Fixpoint for_each {E : Type}
    (body : Schedule -> E -> Schedule * E * outcome unit)
    (todo : list Schedule) (e : E) : list Schedule * E * outcome unit :=
  match todo with
  | [] => ([], e, Return tt)
  | s :: rest =>
      match body s e with
      | (s', e', Return _) =>
          let '(rest', e'', o) := for_each body rest e' in
          (s' :: rest', e'', o)
      | (s', e', Raise x) => (s' :: rest, e', Raise x)
      end
  end.

(** A body that raises only before it mutates anything. *)
Definition guarded {E : Type} (s : Schedule) (e : E)
    (o : outcome (Schedule * E)) : Schedule * E * outcome unit :=
  match o with
  | Return (s', e') => (s', e', Return tt)
  | Raise x => (s, e, Raise x)
  end.

(** ** config.py: the schedule store *)

Module Store.

Definition set_schedules (l : list Schedule) (st : session) : session :=
  {| schedules := l; notifications := notifications st;
     last_notification_check := last_notification_check st;
     blocking_active := blocking_active st;
     blocking_reason := blocking_reason st |}.

(** [exclude_id and schedule.get('id') == exclude_id]: [None] and the
    empty string are falsy. *)
Definition excluded (exclude_id : option string) (s : Schedule) : bool :=
  match exclude_id with
  | Some e => negb (String.eqb e "") && bool_decide (s_id s = Some e)
  | None => false
  end.

(** The body of the loop of [check_schedule_conflict]. *)
Definition conflict_body (new_start new_end new_date : Z)
    (exclude_id : option string) (s : Schedule) (conflicts : list Schedule)
  : outcome (list Schedule) :=
  if excluded exclude_id s then Return conflicts
  else
    d ← item "date" (s_date s);
    if d =? new_date then
      existing_start ← item "start_time" (s_start_time s);
      existing_end ← item "end_time" (s_end_time s);
      if (new_start <? existing_end) && (new_end >? existing_start)
      then Return (conflicts ++ [s])
      else Return conflicts
    else Return conflicts.

Fixpoint conflict_loop (new_start new_end new_date : Z)
    (exclude_id : option string) (todo conflicts : list Schedule)
  : outcome (list Schedule) :=
  match todo with
  | [] => Return conflicts
  | s :: rest =>
      c ← conflict_body new_start new_end new_date exclude_id s conflicts;
      conflict_loop new_start new_end new_date exclude_id rest c
  end.

Definition check_schedule_conflict (new_start new_end new_date : Z)
    (exclude_id : option string) (st : session) : outcome (list Schedule) :=
  conflict_loop new_start new_end new_date exclude_id (schedules st) [].

(** [f"schedule_{len(schedules)}_{datetime.now().timestamp()}"]; [ts]
    is the text that the f-string makes of the float
    [datetime.now().timestamp()], such as "1700000000.0" or
    "1700000000.25". *)
Definition schedule_id_of (len : nat) (ts : string) : string :=
  "schedule_" +:+ pretty len +:+ "_" +:+ ts.

(** [add_schedule]: [clock_id] is the text of the time stamp of its
    first reading of [datetime.now()], [clock_created] its second
    reading.  Writing the store to the pickle file is left out here
    (see [Pickle]). *)
Definition add_schedule (title description : string) (date start_time
    end_time : Z) (category priority : string) (clock_id : string)
    (clock_created : Z) (st : session) : session * string :=
  let schedule_id := schedule_id_of (length (schedules st)) clock_id in
  let schedule :=
    {| s_id := Some schedule_id; s_title := Some title;
       s_description := Some description; s_date := Some date;
       s_start_time := Some start_time; s_end_time := Some end_time;
       s_category := Some category; s_priority := Some priority;
       s_completed := Some false; s_created_at := Some clock_created;
       s_started := Some false; s_missed_notified := Some false;
       s_auto_block_triggered := None; s_auto_block_time := None;
       s_auto_blocked := None; s_auto_block_executed := None;
       s_start_timestamp := None |} in
  (set_schedules (schedules st ++ [schedule]) st, schedule_id).

(** [schedule.update(kwargs)]: the keys given in [kw] overwrite. *)
Definition dict_update (kw s : Schedule) : Schedule :=
  {| s_id := s_id kw ∪ s_id s; s_title := s_title kw ∪ s_title s;
     s_description := s_description kw ∪ s_description s;
     s_date := s_date kw ∪ s_date s;
     s_start_time := s_start_time kw ∪ s_start_time s;
     s_end_time := s_end_time kw ∪ s_end_time s;
     s_category := s_category kw ∪ s_category s;
     s_priority := s_priority kw ∪ s_priority s;
     s_completed := s_completed kw ∪ s_completed s;
     s_created_at := s_created_at kw ∪ s_created_at s;
     s_started := s_started kw ∪ s_started s;
     s_missed_notified := s_missed_notified kw ∪ s_missed_notified s;
     s_auto_block_triggered :=
       s_auto_block_triggered kw ∪ s_auto_block_triggered s;
     s_auto_block_time := s_auto_block_time kw ∪ s_auto_block_time s;
     s_auto_blocked := s_auto_blocked kw ∪ s_auto_blocked s;
     s_auto_block_executed :=
       s_auto_block_executed kw ∪ s_auto_block_executed s;
     s_start_timestamp := s_start_timestamp kw ∪ s_start_timestamp s |}.

Definition no_kwargs : Schedule :=
  {| s_id := None; s_title := None; s_description := None; s_date := None;
     s_start_time := None; s_end_time := None; s_category := None;
     s_priority := None; s_completed := None; s_created_at := None;
     s_started := None; s_missed_notified := None;
     s_auto_block_triggered := None; s_auto_block_time := None;
     s_auto_blocked := None; s_auto_block_executed := None;
     s_start_timestamp := None |}.

(** The loop of [update_schedule]: the first schedule whose id matches
    is updated; the result says whether one was found. *)
Fixpoint update_loop (schedule_id : string) (kw : Schedule)
    (todo : list Schedule) : list Schedule * outcome bool :=
  match todo with
  | [] => ([], Return false)
  | s :: rest =>
      match item "id" (s_id s) with
      | Raise e => (s :: rest, Raise e)
      | Return i =>
          if String.eqb i schedule_id then (dict_update kw s :: rest, Return true)
          else let '(rest', o) := update_loop schedule_id kw rest in
               (s :: rest', o)
      end
  end.

Definition update_schedule (schedule_id : string) (kw : Schedule)
    (st : session) : session * outcome bool :=
  let '(l, o) := update_loop schedule_id kw (schedules st) in
  (set_schedules l st, o).

(** [[n for n in notifications if not n.get('read', False)]] *)
Definition get_unread_notifications (st : session) : list Notification :=
  filter (fun n => truthy (n_read n) = false) (notifications st).

End Store.

Arguments Store.schedule_id_of : simpl never.

(** ** The notification evaluators *)

Definition set_notifications (ns : list Notification) (st : session)
  : session :=
  {| schedules := schedules st; notifications := ns;
     last_notification_check := last_notification_check st;
     blocking_active := blocking_active st;
     blocking_reason := blocking_reason st |}.

Definition set_last_notification_check (t : Z) (st : session) : session :=
  {| schedules := schedules st; notifications := notifications st;
     last_notification_check := Some t;
     blocking_active := blocking_active st;
     blocking_reason := blocking_reason st |}.

Definition set_blocking (active : bool) (reason : option string)
    (st : session) : session :=
  {| schedules := schedules st; notifications := notifications st;
     last_notification_check := last_notification_check st;
     blocking_active := active; blocking_reason := reason |}.

(** The keys that every evaluator puts into a notification dict, with
    ['read': False]; the keys that only some of them use are arguments. *)
Definition new_notification (notif_id schedule_id title type : string)
    (time : Z) (time_diff : option Z) (timestamp : Z)
    (severity : option string) (auto_block : option bool)
    (action : option string) : Notification :=
  {| n_id := notif_id; n_schedule_id := schedule_id; n_title := title;
     n_type := Some type; n_time := time; n_time_diff := time_diff;
     n_timestamp := timestamp; n_read := Some false;
     n_severity := severity; n_auto_block := auto_block;
     n_action := action; n_message := true |}.

(** The notification list and the pass's [new_notifications]. *)
Definition sink : Type := list Notification * list Notification.

(** [st.session_state.notifications.append(n); new_notifications.append(n)] *)
Definition emit (n : Notification) (k : sink) : sink :=
  (k.1 ++ [n], k.2 ++ [n]).

(** *** enhanced_notifications.py: check_enhanced_schedule_notifications

    Desktop alerts ([send_schedule_alert]) and [print] are left out. *)

Module Enhanced.
Import Clock.

(** The body of [for schedule in st.session_state.schedules]. *)
Definition body (now today : Z) (schedule : Schedule) (k : sink)
  : outcome (Schedule * sink) :=
  if truthy (s_completed schedule) then Return (schedule, k)
  else
    date ← item "date" (s_date schedule);
    if negb (date =? today) then Return (schedule, k)
    else
      start_time ← item "start_time" (s_start_time schedule);
      let time_diff := combine date start_time - now in
      schedule_id ← item "id" (s_id schedule);
      let schedule_started := truthy (s_started schedule) in
      if (time_diff <? minutes (-10)) && negb schedule_started then
        let notif_id := "auto_block_" +:+ schedule_id in
        if negb (has_notification notif_id k.1) then
          title ← item "title" (s_title schedule);
          let notification :=
            new_notification notif_id schedule_id title "auto_block"
              start_time (Some time_diff) now
              (Some "critical"%string) (Some true) None in
          Return (set_stamp AutoBlockTime now
                    (set_flag AutoBlockTriggered true schedule),
                  emit notification k)
        else Return (schedule, k)
      else if (minutes (-10) <? time_diff) && (time_diff <=? minutes (-5))
              && negb schedule_started then
        let notif_id := "missed_5min_" +:+ schedule_id in
        if negb (has_notification notif_id k.1) then
          title ← item "title" (s_title schedule);
          Return (schedule,
                  emit (new_notification notif_id schedule_id title
                          "missed_5min" start_time (Some time_diff) now
                          (Some "high"%string) None None) k)
        else Return (schedule, k)
      else if (minutes (-5) <? time_diff) && (time_diff <? 0)
              && negb schedule_started then
        let notif_id := "just_missed_" +:+ schedule_id in
        if negb (has_notification notif_id k.1) then
          title ← item "title" (s_title schedule);
          Return (schedule,
                  emit (new_notification notif_id schedule_id title
                          "just_missed" start_time (Some time_diff) now
                          (Some "medium"%string) None None) k)
        else Return (schedule, k)
      else if (minutes 9 <=? time_diff) && (time_diff <=? minutes 11) then
        let notif_id := "10min_" +:+ schedule_id in
        if negb (has_notification notif_id k.1) then
          title ← item "title" (s_title schedule);
          Return (schedule,
                  emit (new_notification notif_id schedule_id title
                          "10min_warning" start_time (Some time_diff) now
                          (Some "info"%string) None None) k)
        else Return (schedule, k)
      else if (minutes 4 <=? time_diff) && (time_diff <=? minutes 6) then
        let notif_id := "5min_" +:+ schedule_id in
        if negb (has_notification notif_id k.1) then
          title ← item "title" (s_title schedule);
          Return (schedule,
                  emit (new_notification notif_id schedule_id title
                          "5min_warning" start_time (Some time_diff) now
                          (Some "warning"%string) None None) k)
        else Return (schedule, k)
      else if (minutes (-1) <=? time_diff) && (time_diff <=? minutes 1)
              && negb schedule_started then
        let notif_id := "start_" +:+ schedule_id in
        if negb (has_notification notif_id k.1) then
          title ← item "title" (s_title schedule);
          Return (schedule,
                  emit (new_notification notif_id schedule_id title
                          "start_now" start_time (Some time_diff) now
                          (Some "urgent"%string) None None) k)
        else Return (schedule, k)
      else Return (schedule, k).

(** One turn of the loop, with [today = now.date()]. *)
Definition visit (now : Z) (schedule : Schedule) (k : sink)
  : Schedule * sink * outcome unit :=
  guarded schedule k (body now (date_of now) schedule k).

(** The loop over the store, from a given notification list. *)
Definition scan (now : Z) (todo : list Schedule) (k : sink)
  : list Schedule * sink * outcome unit :=
  for_each (visit now) todo k.

(** The function: the new session state and either the returned
    [new_notifications] or the exception that ended the call. *)
Definition check_enhanced_schedule_notifications (now : Z) (st : session)
  : session * outcome (list Notification) :=
  let last := default (now - minutes 1) (last_notification_check st) in
  if timedelta_seconds (now - last) <? 30
  then (set_last_notification_check last st, Return [])
  else
    let '(scheds, k, o) := scan now (schedules st) (notifications st, []) in
    (Store.set_schedules scheds
       (set_notifications k.1 (set_last_notification_check now st)),
     match o with
     | Return _ => Return k.2
     | Raise e => Raise e
     end).

End Enhanced.

(** *** pages.py: show_schedule_manager, "notification checking and
    auto-blocking"

    The page runs this loop on every render, without a re-check interval.
    [sites] is [blocker.blocked_sites] and [stamp] the rendering of the
    clock that [block_websites] writes into the hosts file. *)

Module Page.
Import Clock.

(** What the loop mutates besides the schedule it visits. *)
Record env := {
  e_sink : sink;
  e_os : WebsiteBlocker.os;
  e_blocking_active : bool;
  e_blocking_reason : option string
}.

Definition with_sink (k : sink) (e : env) : env :=
  {| e_sink := k; e_os := e_os e;
     e_blocking_active := e_blocking_active e;
     e_blocking_reason := e_blocking_reason e |}.

Definition body (sites : list string) (stamp : string) (now today : Z)
    (schedule : Schedule) (e : env) : outcome (Schedule * env) :=
  if truthy (s_completed schedule) then Return (schedule, e)
  else
    date ← item "date" (s_date schedule);
    if negb (date =? today) then Return (schedule, e)
    else
      start_time ← item "start_time" (s_start_time schedule);
      let time_diff := combine date start_time - now in
      schedule_id ← item "id" (s_id schedule);
      let schedule_started := truthy (s_started schedule) in
      if (minutes (-11) <? time_diff) && (time_diff <=? minutes (-10))
         && negb schedule_started
         && negb (truthy (s_auto_block_triggered schedule)) then
        let notif_id := "auto_block_" +:+ schedule_id in
        if negb (has_notification notif_id (e_sink e).1) then
          title ← item "title" (s_title schedule);
          let notification :=
            new_notification notif_id schedule_id title "critical"
              start_time None now None (Some true) None in
          let k := emit notification (e_sink e) in
          let schedule :=
            set_stamp AutoBlockTime now
              (set_flag AutoBlockTriggered true schedule) in
          if WebsiteBlocker._check_admin_privileges (e_os e) then
            let '(w, result) :=
              WebsiteBlocker.block_websites sites stamp (e_os e) in
            if WebsiteBlocker.success result then
              Return (set_flag AutoBlocked true schedule,
                      {| e_sink := k; e_os := w;
                         e_blocking_active := true;
                         e_blocking_reason :=
                           Some ("Missed schedule: " +:+ title) |})
            else
              Return (schedule,
                      {| e_sink := k; e_os := w;
                         e_blocking_active := e_blocking_active e;
                         e_blocking_reason := e_blocking_reason e |})
          else Return (schedule, with_sink k e)
        else Return (schedule, e)
      else if (minutes (-10) <? time_diff) && (time_diff <=? minutes (-5))
              && negb schedule_started then
        let notif_id := "missed_5min_" +:+ schedule_id in
        if negb (has_notification notif_id (e_sink e).1) then
          title ← item "title" (s_title schedule);
          Return (schedule,
                  with_sink
                    (emit (new_notification notif_id schedule_id title
                             "warning" start_time (Some time_diff) now
                             None None None) (e_sink e)) e)
        else Return (schedule, e)
      else if (minutes (-5) <? time_diff) && (time_diff <? 0)
              && negb schedule_started then
        let notif_id := "just_missed_" +:+ schedule_id in
        if negb (has_notification notif_id (e_sink e).1) then
          title ← item "title" (s_title schedule);
          Return (schedule,
                  with_sink
                    (emit (new_notification notif_id schedule_id title
                             "late" start_time (Some time_diff) now
                             None None None) (e_sink e)) e)
        else Return (schedule, e)
      else if (minutes 9 <=? time_diff) && (time_diff <=? minutes 11) then
        let notif_id := "10min_" +:+ schedule_id in
        if negb (has_notification notif_id (e_sink e).1) then
          title ← item "title" (s_title schedule);
          Return (schedule,
                  with_sink
                    (emit (new_notification notif_id schedule_id title
                             "upcoming" start_time (Some time_diff) now
                             None None None) (e_sink e)) e)
        else Return (schedule, e)
      else if (minutes 4 <=? time_diff) && (time_diff <=? minutes 6) then
        let notif_id := "5min_" +:+ schedule_id in
        if negb (has_notification notif_id (e_sink e).1) then
          title ← item "title" (s_title schedule);
          Return (schedule,
                  with_sink
                    (emit (new_notification notif_id schedule_id title
                             "soon" start_time (Some time_diff) now
                             None None None) (e_sink e)) e)
        else Return (schedule, e)
      else if (minutes (-1) <=? time_diff) && (time_diff <=? minutes 1)
              && negb schedule_started then
        let notif_id := "start_" +:+ schedule_id in
        if negb (has_notification notif_id (e_sink e).1) then
          title ← item "title" (s_title schedule);
          Return (schedule,
                  with_sink
                    (emit (new_notification notif_id schedule_id title
                             "start" start_time (Some time_diff) now
                             None None None) (e_sink e)) e)
        else Return (schedule, e)
      else Return (schedule, e).

(** One turn of the loop, with [today = now.date()]. *)
Definition visit (sites : list string) (stamp : string) (now : Z)
    (schedule : Schedule) (e : env) : Schedule * env * outcome unit :=
  guarded schedule e (body sites stamp now (date_of now) schedule e).

Definition scan (sites : list string) (stamp : string) (now : Z)
    (todo : list Schedule) (e : env) : list Schedule * env * outcome unit :=
  for_each (visit sites stamp now) todo e.

(** The section of the page as a function of the session and the
    operating system; it yields the page's [new_notifications]. *)
Definition check_notifications (sites : list string) (stamp : string)
    (now : Z) (st : session) (w : WebsiteBlocker.os)
  : session * WebsiteBlocker.os * outcome (list Notification) :=
  let e0 := {| e_sink := (notifications st, []); e_os := w;
               e_blocking_active := blocking_active st;
               e_blocking_reason := blocking_reason st |} in
  let '(scheds, e, o) := scan sites stamp now (schedules st) e0 in
  (Store.set_schedules scheds
     (set_notifications (e_sink e).1
        (set_blocking (e_blocking_active e) (e_blocking_reason e) st)),
   e_os e,
   match o with
   | Return _ => Return (e_sink e).2
   | Raise x => Raise x
   end).

End Page.

(** *** config.py: check_schedule_notifications_enhanced

    [log_user_activity] is left out. *)

Module Config.
Import Clock.

Definition body (now today : Z) (schedule : Schedule) (k : sink)
  : outcome (Schedule * sink) :=
  completed ← item "completed" (s_completed schedule);
  if (completed : bool) then Return (schedule, k)
  else
    date ← item "date" (s_date schedule);
    if negb (date =? today) then Return (schedule, k)
    else
      start_time ← item "start_time" (s_start_time schedule);
      let time_diff := combine date start_time - now in
      if time_diff <? minutes (-15) then
        if negb (truthy (s_missed_notified schedule)) then
          schedule_id ← item "id" (s_id schedule);
          title ← item "title" (s_title schedule);
          Return (set_flag MissedNotified true schedule,
                  emit (new_notification ("missed_" +:+ schedule_id)
                          schedule_id title "missed" start_time
                          (Some time_diff) now None None
                          (Some "block_sites"%string)) k)
        else Return (schedule, k)
      else if (minutes 9 <=? time_diff) && (time_diff <=? minutes 11) then
        schedule_id ← item "id" (s_id schedule);
        let notification_id := "notif_10min_" +:+ schedule_id in
        if negb (has_notification notification_id k.1) then
          title ← item "title" (s_title schedule);
          Return (schedule,
                  emit (new_notification notification_id schedule_id title
                          "10min_warning" start_time (Some time_diff) now
                          None None None) k)
        else Return (schedule, k)
      else if (minutes 4 <=? time_diff) && (time_diff <=? minutes 6) then
        schedule_id ← item "id" (s_id schedule);
        let notification_id := "notif_5min_" +:+ schedule_id in
        if negb (has_notification notification_id k.1) then
          title ← item "title" (s_title schedule);
          Return (schedule,
                  emit (new_notification notification_id schedule_id title
                          "5min_warning" start_time (Some time_diff) now
                          None None None) k)
        else Return (schedule, k)
      else if (minutes (-1) <=? time_diff) && (time_diff <=? minutes 1) then
        schedule_id ← item "id" (s_id schedule);
        let notification_id := "notif_start_" +:+ schedule_id in
        if negb (has_notification notification_id k.1) then
          title ← item "title" (s_title schedule);
          Return (schedule,
                  emit (new_notification notification_id schedule_id title
                          "start_now" start_time (Some time_diff) now
                          None None None) k)
        else Return (schedule, k)
      else Return (schedule, k).

(** One turn of the loop, with [today = now.date()]. *)
Definition visit (now : Z) (schedule : Schedule) (k : sink)
  : Schedule * sink * outcome unit :=
  guarded schedule k (body now (date_of now) schedule k).

Definition scan (now : Z) (todo : list Schedule) (k : sink)
  : list Schedule * sink * outcome unit :=
  for_each (visit now) todo k.

Definition check_schedule_notifications_enhanced (now : Z) (st : session)
  : session * outcome (list Notification) :=
  match last_notification_check st with
  | None => (st, Raise (AttributeError "last_notification_check"))
  | Some last =>
      if timedelta_seconds (now - last) <? 60 then (st, Return [])
      else
        let '(scheds, k, o) :=
          scan now (schedules st) (notifications st, []) in
        (Store.set_schedules scheds
           (set_notifications k.1 (set_last_notification_check now st)),
         match o with
         | Return _ => Return k.2
         | Raise e => Raise e
         end)
  end.

End Config.

(** *** notification_service.py: BackgroundNotificationService

    The service works on the schedules it loads from the pickle file and
    keeps the dict [notifications_sent]; what it hands to the desktop
    notifier is recorded in [sent].  The clock is read once per cycle. *)

Module Service.
Import Clock.

Record service := {
  notifications_sent : gmap string Z;
  sent : list (string * string)  (* (schedule id, notification type) *)
}.

(** [if key not in notifications_sent: send; notifications_sent[key] = now] *)
Definition notify_once (now : Z) (schedule : Schedule)
    (schedule_id notif_key type : string) (v : service)
  : outcome (Schedule * service) :=
  match notifications_sent v !! notif_key with
  | None =>
      _ ← item "title" (s_title schedule);
      Return (schedule,
              {| notifications_sent := <[notif_key := now]> (notifications_sent v);
                 sent := sent v ++ [(schedule_id, type)] |})
  | Some _ => Return (schedule, v)
  end.

Definition body (now today : Z) (schedule : Schedule) (v : service)
  : outcome (Schedule * service) :=
  if truthy (s_completed schedule) then Return (schedule, v)
  else if truthy (s_started schedule) then Return (schedule, v)
  else
    date ← item "date" (s_date schedule);
    if negb (date =? today) then Return (schedule, v)
    else
      schedule_id ← item "id" (s_id schedule);
      start_time ← item "start_time" (s_start_time schedule);
      let time_diff := combine date start_time - now in
      if (minutes 9 <=? time_diff) && (time_diff <=? minutes 11) then
        notify_once now schedule schedule_id (schedule_id +:+ "_10min")
          "10min" v
      else if (minutes 4 <=? time_diff) && (time_diff <=? minutes 6) then
        notify_once now schedule schedule_id (schedule_id +:+ "_5min")
          "5min" v
      else if (minutes (-1) <=? time_diff) && (time_diff <=? minutes 1) then
        notify_once now schedule schedule_id (schedule_id +:+ "_start")
          "start" v
      else if (minutes (-6) <=? time_diff) && (time_diff <? minutes (-4)) then
        notify_once now schedule schedule_id (schedule_id +:+ "_missed_5")
          "missed_5" v
      else if time_diff <? minutes (-10) then
        notify_once now schedule schedule_id (schedule_id +:+ "_missed_10")
          "missed_10" v
      else Return (schedule, v).

(** One turn of the loop, with [today = now.date()]. *)
Definition visit (now : Z) (schedule : Schedule) (v : service)
  : Schedule * service * outcome unit :=
  guarded schedule v (body now (date_of now) schedule v).

(** [check_and_notify], on the schedules just loaded from the file. *)
Definition check_and_notify (now : Z) (loaded : list Schedule)
    (v : service) : service * outcome unit :=
  let '(_, v', o) := for_each (visit now) loaded v in
  (v', o).

(** One turn of the [while True] loop of [run]: an exception of
    [check_and_notify] is caught and printed, and the loop goes on. *)
Definition run_cycle (now : Z) (loaded : list Schedule) (v : service)
  : service :=
  (check_and_notify now loaded v).1.

End Service.

(** ** The auto-block triggers *)

Module AutoBlock.
Import WebsiteBlocker.

(** What the two loops mutate besides the schedule they visit. *)
Record env := {
  e_os : os;
  e_blocking_active : bool;
  e_blocking_reason : option string;
  blocked_schedules : list string
}.

Definition with_os (w : os) (e : env) : env :=
  {| e_os := w; e_blocking_active := e_blocking_active e;
     e_blocking_reason := e_blocking_reason e;
     blocked_schedules := blocked_schedules e |}.

(** *** enhanced_notifications.py: handle_auto_blocking *)

Definition handle_body (sites : list string) (stamp : string) (now : Z)
    (schedule : Schedule) (e : env) : outcome (Schedule * env) :=
  if truthy (s_auto_block_triggered schedule)
     && negb (truthy (s_auto_blocked schedule)) then
    if truthy (s_started schedule) then
      Return (set_flag AutoBlockTriggered false schedule, e)
    else if negb (_check_admin_privileges (e_os e)) then
      Return (set_flag AutoBlockTriggered false schedule, e)
    else
      title ← item "title" (s_title schedule);
      let '(w, result) := block_websites sites stamp (e_os e) in
      if success result then
        Return (set_stamp AutoBlockExecuted now
                  (set_flag AutoBlocked true schedule),
                {| e_os := w; e_blocking_active := true;
                   e_blocking_reason :=
                     Some ("Missed schedule: " +:+ title);
                   blocked_schedules := blocked_schedules e ++ [title] |})
      else
        Return (set_flag AutoBlockTriggered false schedule, with_os w e)
  else Return (schedule, e).

(** The dict that both functions return. *)
Record report := {
  r_success : bool;
  r_blocked_schedules : list string
}.

Definition report_of (e : env) : report :=
  {| r_success := bool_decide (0 < length (blocked_schedules e))%nat;
     r_blocked_schedules := blocked_schedules e |}.

Definition run_loop (body : Schedule -> env -> Schedule * env * outcome unit)
    (st : session) (w : os) : session * os * outcome report :=
  let e0 := {| e_os := w; e_blocking_active := blocking_active st;
               e_blocking_reason := blocking_reason st;
               blocked_schedules := [] |} in
  let '(scheds, e, o) := for_each body (schedules st) e0 in
  (Store.set_schedules scheds
     (set_blocking (e_blocking_active e) (e_blocking_reason e) st),
   e_os e,
   match o with
   | Return _ => Return (report_of e)
   | Raise x => Raise x
   end).

Definition handle_auto_blocking (sites : list string) (stamp : string)
    (now : Z) (st : session) (w : os) : session * os * outcome report :=
  run_loop (fun s e => guarded s e (handle_body sites stamp now s e)) st w.

(** *** enhanced_schedule_config.py: auto_block_for_missed_schedules

    Here [schedule['title']] and, for the activity log,
    [schedule['id']] are read after the schedule was marked, so a
    missing key raises with the mark already made. *)

Definition missed_body (sites : list string) (stamp : string)
    (schedule : Schedule) (e : env) : Schedule * env * outcome unit :=
  if truthy (s_auto_block_triggered schedule)
     && negb (truthy (s_auto_blocked schedule)) then
    if negb (_check_admin_privileges (e_os e)) then
      (set_flag AutoBlocked false schedule, e, Return tt)
    else
      let '(w, result) := block_websites sites stamp (e_os e) in
      if success result then
        let schedule := set_flag AutoBlocked true schedule in
        match item "title" (s_title schedule) with
        | Raise x => (schedule, with_os w e, Raise x)
        | Return title =>
            let e1 :=
              {| e_os := w; e_blocking_active := e_blocking_active e;
                 e_blocking_reason := e_blocking_reason e;
                 blocked_schedules := blocked_schedules e ++ [title] |} in
            match item "id" (s_id schedule) with
            | Raise x => (schedule, e1, Raise x)
            | Return _ =>
                (schedule,
                 {| e_os := w; e_blocking_active := true;
                    e_blocking_reason := e_blocking_reason e;
                    blocked_schedules := blocked_schedules e1 |},
                 Return tt)
            end
        end
      else (schedule, with_os w e, Return tt)
  else (schedule, e, Return tt).

Definition auto_block_for_missed_schedules (sites : list string)
    (stamp : string) (st : session) (w : os)
  : session * os * outcome report :=
  run_loop (missed_body sites stamp) st w.

End AutoBlock.

(** ** pages.py: the buttons and the display order of show_schedule_manager *)

Module Manager.
Import WebsiteBlocker.

(** "Clear auto-block flags for all schedules":
    [if s.get('auto_block_triggered'): both flags = False]. *)
Definition clear_auto_block_flags (s : Schedule) : Schedule :=
  if truthy (s_auto_block_triggered s)
  then set_flag AutoBlocked false (set_flag AutoBlockTriggered false s)
  else s.

Inductive completion :=
  | TaskCompleted              (* "Task completed!" *)
  | TaskCompletedUnblocked     (* "Task completed! Websites unblocked!" *)
  | TaskCompletedStillBlocked. (* "Could not unblock websites automatically" *)

(** The "Complete" button of the schedule shown from position [i] of
    the store.  [update_schedule] works on the first schedule with that
    id; the flags are then read from the dict the button belongs to. *)
Definition click_complete (i : nat) (st : session) (w : os)
  : session * os * outcome completion :=
  match schedules st !! i with
  | None => (st, w, Return TaskCompleted)
  | Some schedule =>
      match item "id" (s_id schedule) with
      | Raise x => (st, w, Raise x)
      | Return schedule_id =>
          let '(st1, o) :=
            Store.update_schedule schedule_id
              (set_flag Completed true Store.no_kwargs) st in
          match o with
          | Raise x => (st1, w, Raise x)
          | Return _ =>
              let schedule := default schedule (schedules st1 !! i) in
              if truthy (s_auto_blocked schedule) && is_blocking_active w
              then
                let '(w', result) := unblock_websites w in
                if success result then
                  (Store.set_schedules
                     (map clear_auto_block_flags (schedules st1))
                     (set_blocking false None st1),
                   w', Return TaskCompletedUnblocked)
                else (st1, w', Return TaskCompletedStillBlocked)
              else (st1, w, Return TaskCompleted)
          end
      end
  end.

(** The "Start" button of the schedule at position [i]. *)
Definition click_start (now : Z) (i : nat) (st : session) : session :=
  match schedules st !! i with
  | None => st
  | Some schedule =>
      Store.set_schedules
        (<[i := set_flag AutoBlockTriggered false
                  (set_stamp StartTimestamp now
                     (set_flag Started true schedule))]> (schedules st))
        st
  end.

Inductive submission :=
  | MissingTitle                        (* "Please enter a task title!" *)
  | EndNotAfterStart                    (* "End time must be after start time!" *)
  | ConflictError (conflicts : list Schedule)
  | Added (schedule_id : string).

(** The warnings of a refused form, one for each conflict:
    [f"{conflict['title']} ({conflict['start_time'].strftime('%H:%M')} -
    {conflict['end_time'].strftime('%H:%M')})"]. *)
Fixpoint conflict_warnings (conflicts : list Schedule)
  : outcome (list (string * Z * Z)) :=
  match conflicts with
  | [] => Return []
  | conflict :: rest =>
      title ← item "title" (s_title conflict);
      start_time ← item "start_time" (s_start_time conflict);
      end_time ← item "end_time" (s_end_time conflict);
      warnings ← conflict_warnings rest;
      Return ((title, start_time, end_time) :: warnings)
  end.

(** "Handle form submission" of the Add Schedule tab. *)
Definition submit_add_schedule (title description : string)
    (schedule_date start_time end_time : Z) (category priority : string)
    (clock_id : string) (clock_created : Z) (st : session)
  : session * outcome submission :=
  if String.eqb title "" then (st, Return MissingTitle)
  else if end_time <=? start_time then (st, Return EndNotAfterStart)
  else
    match Store.check_schedule_conflict start_time end_time schedule_date
            None st with
    | Raise x => (st, Raise x)
    | Return [] =>
        let '(st', schedule_id) :=
          Store.add_schedule title description schedule_date start_time
            end_time category priority clock_id clock_created st in
        (st', Return (Added schedule_id))
    | Return conflicts =>
        (st, _ ← conflict_warnings conflicts;
             Return (ConflictError conflicts))
    end.

(** [type_priority] of "display notifications". *)
Definition type_priority : gmap string nat :=
  {[ "critical" := 0; "warning" := 1; "late" := 2;
     "start" := 3; "soon" := 4; "upcoming" := 5 ]}%nat.

(** [type_priority.get(n.get('type', 'upcoming'), 99)] *)
Definition sort_key (n : Notification) : nat :=
  default 99%nat (type_priority !! default "upcoming"%string (n_type n)).

(** Python's [sorted(l, key=key)] is a stable sort; its result is fixed
    by that, and is computed here by stable insertion. *)
Fixpoint insert_by {A : Type} (key : A -> nat) (x : A) (l : list A)
  : list A :=
  match l with
  | [] => [x]
  | y :: l' =>
      if (key x <=? key y)%nat then x :: y :: l'
      else y :: insert_by key x l'
  end.

Definition sorted {A : Type} (key : A -> nat) (l : list A) : list A :=
  foldr (insert_by key) [] l.

Definition sorted_notifs (st : session) : list Notification :=
  sorted sort_key (Store.get_unread_notifications st).

End Manager.

(** ** website_blocker.py: the list of blocked sites *)

Module SiteList.

(** [l.remove(x)]: the first occurrence goes.  The code calls it only
    after the test [x in l]. *)
Fixpoint remove (x : string) (l : list string) : list string :=
  match l with
  | [] => []
  | y :: rest => if String.eqb y x then rest else y :: remove x rest
  end.

(** [f"www.{site}" if not site.startswith('www.') else site] *)
Definition www_site (site : string) : string :=
  if String.prefix "www." site then site else "www." +:+ site.

Definition add_site (site : string) (blocked_sites : list string)
  : list string :=
  if decide (site ∈ blocked_sites) then blocked_sites
  else
    let blocked_sites := blocked_sites ++ [site] in
    if decide (www_site site ∈ blocked_sites) then blocked_sites
    else blocked_sites ++ [www_site site].

Definition remove_site (site : string) (blocked_sites : list string)
  : list string :=
  let blocked_sites :=
    if decide (site ∈ blocked_sites) then remove site blocked_sites
    else blocked_sites in
  if decide (www_site site ∈ blocked_sites)
  then remove (www_site site) blocked_sites
  else blocked_sites.

End SiteList.

(** ** config.py: deleting, looking up and listing schedules *)

Module Agenda.
Import Clock.

(** A list comprehension [[s for s in l if test(s)]] whose test may
    raise; the tests run in the order of the list. *)
Fixpoint comprehension (test : Schedule -> outcome bool)
    (l : list Schedule) : outcome (list Schedule) :=
  match l with
  | [] => Return []
  | s :: rest =>
      keep ← test s;
      rest' ← comprehension test rest;
      Return (if (keep : bool) then s :: rest' else rest')
  end.

(** [delete_schedule]: the store is assigned only when the comprehension
    has finished. *)
Definition delete_schedule (schedule_id : string) (st : session)
  : session * outcome unit :=
  match comprehension
          (fun s => i ← item "id" (s_id s);
                    Return (negb (String.eqb i schedule_id)))
          (schedules st) with
  | Return l => (Store.set_schedules l st, Return tt)
  | Raise e => (st, Raise e)
  end.

(** The loop of [get_schedule_by_id]. *)
Fixpoint lookup_loop (schedule_id : string) (todo : list Schedule)
  : outcome (option Schedule) :=
  match todo with
  | [] => Return None
  | s :: rest =>
      i ← item "id" (s_id s);
      if String.eqb i schedule_id then Return (Some s)
      else lookup_loop schedule_id rest
  end.

Definition get_schedule_by_id (schedule_id : string) (st : session)
  : outcome (option Schedule) :=
  lookup_loop schedule_id (schedules st).

Definition get_today_schedules (now : Z) (st : session)
  : outcome (list Schedule) :=
  let today := date_of now in
  comprehension (fun s => d ← item "date" (s_date s); Return (d =? today))
    (schedules st).

(** [today <= s['date'] <= future_date] reads the date once. *)
Definition get_upcoming_schedules (days now : Z) (st : session)
  : outcome (list Schedule) :=
  let today := date_of now in
  let future_date := today + days in
  comprehension
    (fun s => d ← item "date" (s_date s);
              Return ((today <=? d) && (d <=? future_date)))
    (schedules st).

(** [sum(1 for s in l if s['completed'])] *)
Fixpoint count_completed (l : list Schedule) : outcome Z :=
  match l with
  | [] => Return 0
  | s :: rest =>
      c ← item "completed" (s_completed s);
      n ← count_completed rest;
      Return (if (c : bool) then 1 + n else n)
  end.

(** The dict that [get_schedule_stats] returns. *)
Record stats := {
  stat_total : Z;
  stat_completed : Z;
  stat_pending : Z;
  stat_today : Z
}.

Definition get_schedule_stats (now : Z) (st : session) : outcome stats :=
  let total := Z.of_nat (length (schedules st)) in
  completed ← count_completed (schedules st);
  today_schedules ← get_today_schedules now st;
  Return {| stat_total := total; stat_completed := completed;
            stat_pending := total - completed;
            stat_today := Z.of_nat (length today_schedules) |}.

End Agenda.

(** ** pages.py: further buttons and forms of show_schedule_manager *)

Module Controls.
Import WebsiteBlocker.

Inductive unblocking :=
  | NoUnblockButton          (* the blocking banner is not shown *)
  | WebsitesUnblocked        (* "Websites unblocked!" *)
  | UnblockFailed (message : string).

(** The "Unblock" button of the banner that is shown while
    [blocker.is_blocking_active()]. *)
Definition click_unblock (st : session) (w : os)
  : session * os * unblocking :=
  if is_blocking_active w then
    let '(w', result) := unblock_websites w in
    if success result then
      (Store.set_schedules
         (map Manager.clear_auto_block_flags (schedules st))
         (set_blocking false None st),
       w', WebsitesUnblocked)
    else (st, w', UnblockFailed (message result))
  else (st, w, NoUnblockButton).

(** [notif['read'] = True] *)
Definition mark_read (n : Notification) : Notification :=
  {| n_id := n_id n; n_schedule_id := n_schedule_id n; n_title := n_title n;
     n_type := n_type n; n_time := n_time n; n_time_diff := n_time_diff n;
     n_timestamp := n_timestamp n; n_read := Some true;
     n_severity := n_severity n; n_auto_block := n_auto_block n;
     n_action := n_action n; n_message := n_message n |}.

(** The loop of a notification's "Start" button: the first schedule
    with the notification's schedule id is started, then [break]. *)
Fixpoint start_first (schedule_id : string) (now : Z)
    (todo : list Schedule) : list Schedule * outcome unit :=
  match todo with
  | [] => ([], Return tt)
  | s :: rest =>
      match item "id" (s_id s) with
      | Raise e => (s :: rest, Raise e)
      | Return i =>
          if String.eqb i schedule_id then
            (set_flag AutoBlockTriggered false
               (set_stamp StartTimestamp now (set_flag Started true s))
             :: rest, Return tt)
          else
            let '(rest', o) := start_first schedule_id now rest in
            (s :: rest', o)
      end
  end.

(** [notif.get('type') in ['critical', 'warning', 'late', 'start']] *)
Definition offers_start (n : Notification) : bool :=
  match n_type n with
  | Some t =>
      bool_decide (t ∈ ["critical"; "warning"; "late"; "start"]%string)
  | None => false
  end.

(** The "Start" button of the notification at position [i] of the
    session's list; unread notifications of the four types have one. *)
Definition click_notification_start (now : Z) (i : nat) (st : session)
  : session * outcome unit :=
  match notifications st !! i with
  | None => (st, Return tt)
  | Some notif =>
      if negb (truthy (n_read notif)) && offers_start notif then
        let '(l, o) :=
          start_first (n_schedule_id notif) now (schedules st) in
        match o with
        | Raise e => (Store.set_schedules l st, Raise e)
        | Return _ =>
            (set_notifications (<[i := mark_read notif]> (notifications st))
               (Store.set_schedules l st),
             Return tt)
        end
      else (st, Return tt)
  end.

(** The dismiss button of the notification at position [i]; every
    unread notification has one. *)
Definition click_dismiss (i : nat) (st : session) : session :=
  match notifications st !! i with
  | None => st
  | Some notif =>
      if negb (truthy (n_read notif))
      then set_notifications (<[i := mark_read notif]> (notifications st)) st
      else st
  end.

Inductive edit :=
  | EditMissingTitle                  (* "Please enter a task title!" *)
  | EditEndNotAfterStart              (* "End time must be after start time!" *)
  | EditConflict (conflicts : list Schedule)
  | Updated.                          (* "Schedule updated successfully!" *)

(** The keyword arguments that the edit form passes to
    [update_schedule]. *)
Definition edit_kwargs (new_title new_description : string)
    (new_start_time new_end_time : Z) (new_category new_priority : string)
  : Schedule :=
  {| s_id := None; s_title := Some new_title;
     s_description := Some new_description; s_date := None;
     s_start_time := Some new_start_time; s_end_time := Some new_end_time;
     s_category := Some new_category; s_priority := Some new_priority;
     s_completed := None; s_created_at := None; s_started := None;
     s_missed_notified := None; s_auto_block_triggered := None;
     s_auto_block_time := None; s_auto_blocked := None;
     s_auto_block_executed := None; s_start_timestamp := None |}.

(** "Save Changes" of the edit form of [schedule], a dict of the
    store. *)
Definition submit_edit (schedule : Schedule)
    (new_title new_description : string) (new_start_time new_end_time : Z)
    (new_category new_priority : string) (st : session)
  : session * outcome edit :=
  if String.eqb new_title "" then (st, Return EditMissingTitle)
  else if new_end_time <=? new_start_time
  then (st, Return EditEndNotAfterStart)
  else
    match item "date" (s_date schedule) with
    | Raise x => (st, Raise x)
    | Return date =>
        match item "id" (s_id schedule) with
        | Raise x => (st, Raise x)
        | Return schedule_id =>
            match Store.check_schedule_conflict new_start_time new_end_time
                    date (Some schedule_id) st with
            | Raise x => (st, Raise x)
            | Return [] =>
                let '(st', o) :=
                  Store.update_schedule schedule_id
                    (edit_kwargs new_title new_description new_start_time
                       new_end_time new_category new_priority) st in
                (st', _ ← o; Return Updated)
            | Return conflicts =>
                (st, _ ← Manager.conflict_warnings conflicts;
                     Return (EditConflict conflicts))
            end
        end
    end.

End Controls.

(** ** enhanced_schedule_config.py

    The evaluator with desktop alerts; the alerts themselves,
    [log_user_activity] and what [print] writes are left out, but not the
    keys that [print] reads. *)

Module Desktop.
Import Clock.

Definition body (now today : Z) (schedule : Schedule) (k : sink)
  : outcome (Schedule * sink) :=
  completed ← item "completed" (s_completed schedule);
  if (completed : bool) then Return (schedule, k)
  else
    date ← item "date" (s_date schedule);
    if negb (date =? today) then Return (schedule, k)
    else
      start_time ← item "start_time" (s_start_time schedule);
      let time_diff := combine date start_time - now in
      title ← item "title" (s_title schedule);
      if time_diff <? minutes (-10) then
        schedule_id ← item "id" (s_id schedule);
        let notification_id := "missed_10min_" +:+ schedule_id in
        if negb (has_notification notification_id k.1) then
          Return (set_flag AutoBlockTriggered true schedule,
                  emit (new_notification notification_id schedule_id title
                          "missed_10min" start_time (Some time_diff) now
                          None None (Some "auto_block"%string)) k)
        else Return (schedule, k)
      else if (minutes (-10) <=? time_diff) && (time_diff <? minutes (-5))
      then
        schedule_id ← item "id" (s_id schedule);
        let notification_id := "missed_5min_" +:+ schedule_id in
        if negb (has_notification notification_id k.1) then
          Return (schedule,
                  emit (new_notification notification_id schedule_id title
                          "missed_5min" start_time (Some time_diff) now
                          None None (Some "warning"%string)) k)
        else Return (schedule, k)
      else if (minutes 9 <=? time_diff) && (time_diff <=? minutes 11) then
        schedule_id ← item "id" (s_id schedule);
        let notification_id := "notif_10min_" +:+ schedule_id in
        if negb (has_notification notification_id k.1) then
          Return (schedule,
                  emit (new_notification notification_id schedule_id title
                          "10min_warning" start_time (Some time_diff) now
                          None None None) k)
        else Return (schedule, k)
      else if (minutes 4 <=? time_diff) && (time_diff <=? minutes 6) then
        schedule_id ← item "id" (s_id schedule);
        let notification_id := "notif_5min_" +:+ schedule_id in
        if negb (has_notification notification_id k.1) then
          Return (schedule,
                  emit (new_notification notification_id schedule_id title
                          "5min_warning" start_time (Some time_diff) now
                          None None None) k)
        else Return (schedule, k)
      else if (minutes (-1) <=? time_diff) && (time_diff <=? minutes 1) then
        schedule_id ← item "id" (s_id schedule);
        let notification_id := "notif_start_" +:+ schedule_id in
        if negb (has_notification notification_id k.1) then
          Return (schedule,
                  emit (new_notification notification_id schedule_id title
                          "start_now" start_time (Some time_diff) now
                          None None None) k)
        else Return (schedule, k)
      else Return (schedule, k).

(** One turn of the loop, with [today = now.date()]. *)
Definition visit (now : Z) (schedule : Schedule) (k : sink)
  : Schedule * sink * outcome unit :=
  guarded schedule k (body now (date_of now) schedule k).

Definition scan (now : Z) (todo : list Schedule) (k : sink)
  : list Schedule * sink * outcome unit :=
  for_each (visit now) todo k.

(** A session without [last_notification_check] gets [now], so the
    first call only sets it. *)
Definition check_schedule_notifications_with_desktop_alerts (now : Z)
    (st : session) : session * outcome (list Notification) :=
  let last := default now (last_notification_check st) in
  if timedelta_seconds (now - last) <? 30
  then (set_last_notification_check last st, Return [])
  else
    let '(scheds, k, o) := scan now (schedules st) (notifications st, []) in
    (Store.set_schedules scheds
       (set_notifications k.1 (set_last_notification_check now st)),
     match o with
     | Return _ => Return k.2
     | Raise e => Raise e
     end).

(** The loop of [handle_schedule_start]: [get_schedule_by_id] finds the
    first schedule with the id, which is then marked; the title is read
    for the activity log after that. *)
Fixpoint start_loop (schedule_id : string) (todo : list Schedule)
  : list Schedule * outcome bool :=
  match todo with
  | [] => ([], Return false)
  | s :: rest =>
      match item "id" (s_id s) with
      | Raise e => (s :: rest, Raise e)
      | Return i =>
          if String.eqb i schedule_id then
            let s' :=
              set_flag MissedNotified false
                (set_flag AutoBlockTriggered false
                   (set_flag Started true s)) in
            (s' :: rest, _ ← item "title" (s_title s'); Return true)
          else
            let '(rest', o) := start_loop schedule_id rest in
            (s :: rest', o)
      end
  end.

Definition handle_schedule_start (schedule_id : string) (st : session)
  : session * outcome bool :=
  let '(l, o) := start_loop schedule_id (schedules st) in
  (Store.set_schedules l st, o).

(** An entry of the list of [get_missed_schedules_requiring_block]. *)
Record missed := {
  m_schedule : Schedule;
  minutes_missed : Z
}.

Fixpoint missed_loop (now today : Z) (todo : list Schedule)
  : outcome (list missed) :=
  match todo with
  | [] => Return []
  | schedule :: rest =>
      completed ← item "completed" (s_completed schedule);
      if (completed : bool) then missed_loop now today rest
      else
        date ← item "date" (s_date schedule);
        if negb (date =? today) then missed_loop now today rest
        else
          start_time ← item "start_time" (s_start_time schedule);
          let time_diff := now - combine date start_time in
          if (minutes 10 <? time_diff)
             && negb (truthy (s_started schedule))
             && negb (truthy (s_auto_blocked schedule)) then
            more ← missed_loop now today rest;
            Return ({| m_schedule := schedule;
                       minutes_missed := Z.quot time_diff us_per_minute |}
                    :: more)
          else missed_loop now today rest
  end.

Definition get_missed_schedules_requiring_block (now : Z) (st : session)
  : outcome (list missed) :=
  missed_loop now (date_of now) (schedules st).

End Desktop.

(** ** notification_service.py: cleanup of the sent records *)

Module Housekeeping.
Import Clock Service.

(** [cleanup_old_notifications]; [timedelta(hours=24)] is one day. *)
Definition cleanup_old_notifications (now : Z) (v : service) : service :=
  let cutoff := now - us_per_day in
  let keys_to_remove :=
    (filter (fun kt => kt.2 < cutoff)
       (map_to_list (notifications_sent v))).*1 in
  {| notifications_sent :=
       foldl (fun m key => delete key m) (notifications_sent v)
         keys_to_remove;
     sent := sent v |}.

End Housekeeping.

(** ** enhanced_notifications.py: show_enhanced_notifications

    What is shown, in order; the display reads keys that not every
    notification dict has. *)

Module Display.

Definition severity_order : gmap string nat :=
  {[ "high" := 0; "urgent" := 1; "medium" := 2;
     "warning" := 3; "info" := 4 ]}%nat.

(** [severity_order.get(n.get('severity', 'info'), 99)] *)
Definition severity_key (n : Notification) : nat :=
  default 99%nat (severity_order !! default "info"%string (n_severity n)).

Definition auto_block_notifs (st : session) : list Notification :=
  filter (fun n => truthy (n_auto_block n) = true)
    (Store.get_unread_notifications st).

Definition other_notifs (st : session) : list Notification :=
  filter (fun n => truthy (n_auto_block n) = false)
    (Store.get_unread_notifications st).

(** [notif['message']] *)
Definition message_of (notif : Notification) : outcome unit :=
  if n_message notif then Return tt else Raise (KeyError "message").

(** The auto-block notifications are shown with [notif['title']],
    [notif['time_diff']], [notif['time']] and [notif['id']]; of these
    only ['time_diff'] can be missing. *)
Fixpoint show_auto_block (l : list Notification)
  : outcome (list Notification) :=
  match l with
  | [] => Return []
  | notif :: rest =>
      _ ← item "time_diff" (n_time_diff notif);
      shown ← show_auto_block rest;
      Return (notif :: shown)
  end.

(** The others with [notif['severity']], [notif['message']],
    [notif['timestamp']], [notif['time']], [notif['type']] and
    [notif['id']], read in this order. *)
Fixpoint show_other (l : list Notification) : outcome (list Notification) :=
  match l with
  | [] => Return []
  | notif :: rest =>
      _ ← item "severity" (n_severity notif);
      _ ← message_of notif;
      _ ← item "type" (n_type notif);
      shown ← show_other rest;
      Return (notif :: shown)
  end.

Definition show_enhanced_notifications (st : session)
  : outcome (list Notification) :=
  critical ← show_auto_block (auto_block_notifs st);
  others ← show_other (Manager.sorted severity_key (other_notifs st));
  Return (critical ++ others).

End Display.

(** ** config.py: calculate_study_streak

    The function reads one key of a focus session, ['date'] (a
    datetime); a session is represented by that key, absent or
    present. *)

Module Focus.
Import Clock.

(** Python's [sorted(l, key=key, reverse=True)]: descending, and stable
    (elements with equal keys keep their order). *)
Fixpoint insert_desc (x : Z) (l : list Z) : list Z :=
  match l with
  | [] => [x]
  | y :: l' => if y <=? x then x :: y :: l' else y :: insert_desc x l'
  end.

Definition sorted_desc (l : list Z) : list Z := foldr insert_desc [] l.

(** The keys [x['date']] that the sort computes, in list order. *)
Fixpoint dates (focus_sessions : list (option Z)) : outcome (list Z) :=
  match focus_sessions with
  | [] => Return []
  | x :: rest =>
      d ← item "date" x;
      ds ← dates rest;
      Return (d :: ds)
  end.

(** The loop over [sessions[1:]]. *)
Fixpoint streak_loop (streak current_date : Z) (sessions : list Z) : Z :=
  match sessions with
  | [] => streak
  | session :: rest =>
      let session_date := date_of session in
      if current_date - session_date =? 1
      then streak_loop (streak + 1) session_date rest
      else if 1 <? current_date - session_date then streak
      else streak_loop streak current_date rest
  end.

Definition calculate_study_streak (focus_sessions : list (option Z))
  : outcome Z :=
  match focus_sessions with
  | [] => Return 0
  | _ =>
      ds ← dates focus_sessions;
      match sorted_desc ds with
      | [] => Return 0
      | first :: rest => Return (streak_loop 1 (date_of first) rest)
      end
  end.

End Focus.

(** ** schedules_data.pkl: the schedules as the background service sees
    them

    config.py and enhanced_notifications.py dump the list
    [st.session_state.schedules] to the file 'schedules_data.pkl'
    ([save_schedules_for_background_service], [save_schedules_to_file]);
    notification_service.py loads that file at the start of every
    [check_and_notify].  A dump is a copy: what is done to the dicts of
    the session afterwards is not in the file until the next dump.
    Failures of the file system, which both sides catch and print, are
    left out. *)

Module Pickle.

(** The session of the dashboard and the content of the file; [None]
    while the file does not exist. *)
Record app := {
  a_session : session;
  schedules_data : option (list Schedule)
}.

Definition with_session (st : session) (a : app) : app :=
  {| a_session := st; schedules_data := schedules_data a |}.

(** [pickle.dump(st.session_state.schedules, f)] *)
Definition save_schedules_to_file (a : app) : app :=
  {| a_session := a_session a;
     schedules_data := Some (schedules (a_session a)) |}.

(** The same dump, as config.py defines it. *)
Definition save_schedules_for_background_service (a : app) : app :=
  save_schedules_to_file a.

(** [add_schedule] of config.py, with its two dumps. *)
Definition add_schedule (title description : string) (date start_time
    end_time : Z) (category priority : string) (clock_id : string)
    (clock_created : Z) (a : app) : app * string :=
  let '(st, schedule_id) :=
    Store.add_schedule title description date start_time end_time
      category priority clock_id clock_created (a_session a) in
  (save_schedules_to_file
     (save_schedules_for_background_service (with_session st a)),
   schedule_id).

(** [update_schedule] of config.py: the dump is made when a schedule
    with the id was found. *)
Definition update_schedule (schedule_id : string) (kw : Schedule) (a : app)
  : app * outcome bool :=
  let '(st, o) := Store.update_schedule schedule_id kw (a_session a) in
  match o with
  | Return true => (save_schedules_to_file (with_session st a), o)
  | _ => (with_session st a, o)
  end.

(** [delete_schedule] of config.py. *)
Definition delete_schedule (schedule_id : string) (a : app)
  : app * outcome unit :=
  let '(st, o) := Agenda.delete_schedule schedule_id (a_session a) in
  match o with
  | Return _ => (save_schedules_to_file (with_session st a), o)
  | Raise _ => (with_session st a, o)
  end.

(** The "Start" button of a schedule (pages.py): it sets the keys of
    the dict in the session and reruns the page; nothing is dumped. *)
Definition click_start (now : Z) (i : nat) (a : app) : app :=
  with_session (Manager.click_start now i (a_session a)) a.

(** The "Start" button of a notification (pages.py): nothing is dumped
    either. *)
Definition click_notification_start (now : Z) (i : nat) (a : app)
  : app * outcome unit :=
  let '(st, o) := Controls.click_notification_start now i (a_session a) in
  (with_session st a, o).

(** [load_schedules] of the service: the empty list when there is no
    file. *)
Definition load_schedules (a : app) : list Schedule :=
  default [] (schedules_data a).

(** One turn of the service next to the dashboard. *)
Definition service_cycle (now : Z) (a : app) (v : Service.service)
  : Service.service :=
  Service.run_cycle now (load_schedules a) v.

End Pickle.

(* ===================================================================== *)
(** * Part II: notions used in the statements *)
(* ===================================================================== *)

(** A schedule that carries the keys which the conflict check reads. *)
Definition well_timed (s : Schedule) : Prop :=
  is_Some (s_date s) /\ is_Some (s_start_time s) /\ is_Some (s_end_time s).

(** The conflict test of [check_schedule_conflict] for one stored
    schedule, as a boolean. *)
Definition overlaps (new_start new_end new_date : Z) (s : Schedule) : bool :=
  match s_date s, s_start_time s, s_end_time s with
  | Some d, Some existing_start, Some existing_end =>
      (d =? new_date) && (new_start <? existing_end)
      && (existing_start <? new_end)
  | _, _, _ => false
  end.

(** A hosts file that the blocker may read and write, as administrator,
    on a system with "\n" as line separator and a codec that has every
    character (UTF-8). *)
Definition privileged (txt : string) : WebsiteBlocker.os :=
  {| WebsiteBlocker.is_admin := true;
     WebsiteBlocker.hosts_readable := true;
     WebsiteBlocker.hosts_writable := true;
     WebsiteBlocker.linesep := Text.LF;
     WebsiteBlocker.encodable := fun _ => true;
     WebsiteBlocker.hosts := txt |}.

(** [block_websites] followed by [unblock_websites]. *)
Definition block_then_unblock (sites : list string) (stamp : string)
    (w : WebsiteBlocker.os) : WebsiteBlocker.os :=
  (WebsiteBlocker.unblock_websites
     (WebsiteBlocker.block_websites sites stamp w).1).1.

(** A hosts file seen without administrator rights. *)
Definition unprivileged (txt : string) : WebsiteBlocker.os :=
  {| WebsiteBlocker.is_admin := false;
     WebsiteBlocker.hosts_readable := true;
     WebsiteBlocker.hosts_writable := false;
     WebsiteBlocker.linesep := Text.LF;
     WebsiteBlocker.encodable := fun _ => true;
     WebsiteBlocker.hosts := txt |}.

(** ** Data of the examples *)

Definition fresh_session : session :=
  {| schedules := []; notifications := []; last_notification_check := None;
     blocking_active := false; blocking_reason := None |}.

Definition session_with (l : list Schedule) : session :=
  Store.set_schedules l fresh_session.

(** Day 20000 is "today" in the examples; times of day are given in
    minutes after midnight. *)
Definition example_day : Z := 20000.
Definition at_minute (m : Z) : Z := Clock.combine example_day (Clock.minutes m).

(** The schedule "Study", 14:00 to 15:00, as [add_schedule] creates it in
    an empty store. *)
Definition study_session : session :=
  (Store.add_schedule "Study" "" example_day (Clock.minutes 840)
     (Clock.minutes 900) "Study" "Medium"
     "1700000000.0" (Clock.seconds 1700000000)
     fresh_session).1.

Definition study : Schedule :=
  default Store.no_kwargs (head (schedules study_session)).

Definition localhost_only : string := "127.0.0.1 localhost" +:+ Text.nl.

(** "Study" after a successful auto-block. *)
Definition study_blocked : Schedule :=
  set_flag AutoBlocked true (set_flag AutoBlockTriggered true study).

(** The hosts file after the blocker has added its section. *)
Definition blocked_hosts : string :=
  WebsiteBlocker.hosts
    (WebsiteBlocker.block_websites WebsiteBlocker.default_blocked_sites
       "2025-01-01 14:11:00" (privileged localhost_only)).1.

(** An unread notification of a given display type and creation time. *)
Definition note (type : string) (timestamp : Z) : Notification :=
  new_notification ("note_" +:+ type) "schedule_0_1700000000.0" "Study" type
    (Clock.minutes 840) None timestamp None None None.

Definition session_showing (ns : list Notification) : session :=
  set_notifications ns fresh_session.

(** Display order by rank, and by creation time within a rank. *)
Definition by_rank (a b : Notification) : Prop :=
  (Manager.sort_key a <= Manager.sort_key b)%nat.

Definition by_rank_then_age (a b : Notification) : Prop :=
  (Manager.sort_key a < Manager.sort_key b)%nat
  \/ (Manager.sort_key a = Manager.sort_key b
      /\ n_timestamp a <= n_timestamp b).

Definition oldest_first (a b : Notification) : Prop :=
  n_timestamp a <= n_timestamp b.

(** ** Notions about evaluator passes *)

(** How many notifications of the list carry the id [x]. *)
Definition count_id (x : string) (ns : list Notification) : nat :=
  length (filter (fun n => n_id n = x) ns).

(** What a pass appended to the notification list. *)
Definition appended (before after : list Notification) : list Notification :=
  drop (length before) after.

(** The environment of a loop after it ran over [todo]. *)
Definition env_after {E : Type}
    (body : Schedule -> E -> Schedule * E * outcome unit)
    (todo : list Schedule) (e : E) : E :=
  (for_each body todo e).1.2.

(** The schedules of a loop after it ran over [todo]. *)
Definition schedules_after {E : Type}
    (body : Schedule -> E -> Schedule * E * outcome unit)
    (todo : list Schedule) (e : E) : list Schedule :=
  (for_each body todo e).1.1.

(** The outcome of a loop. *)
Definition outcome_of {E : Type}
    (body : Schedule -> E -> Schedule * E * outcome unit)
    (todo : list Schedule) (e : E) : outcome unit :=
  (for_each body todo e).2.

(** The time windows of [check_enhanced_schedule_notifications]: when a
    schedule whose start lies [time_diff] away may get the notification
    with the given id prefix and type. *)
Definition enhanced_fires (time_diff : Z) (schedule_started : bool)
    (prefix type : string) : Prop :=
  (time_diff < Clock.minutes (-10) /\ schedule_started = false /\
   prefix = "auto_block_"%string /\ type = "auto_block"%string)
  \/ (Clock.minutes (-10) < time_diff <= Clock.minutes (-5) /\
      schedule_started = false /\
      prefix = "missed_5min_"%string /\ type = "missed_5min"%string)
  \/ (Clock.minutes (-5) < time_diff < 0 /\ schedule_started = false /\
      prefix = "just_missed_"%string /\ type = "just_missed"%string)
  \/ (Clock.minutes 9 <= time_diff <= Clock.minutes 11 /\
      prefix = "10min_"%string /\ type = "10min_warning"%string)
  \/ (Clock.minutes 4 <= time_diff <= Clock.minutes 6 /\
      prefix = "5min_"%string /\ type = "5min_warning"%string)
  \/ (Clock.minutes (-1) <= time_diff <= Clock.minutes 1 /\
      schedule_started = false /\
      prefix = "start_"%string /\ type = "start_now"%string).

(** The same for the loop of [show_schedule_manager]. *)
Definition page_fires (time_diff : Z) (schedule_started triggered : bool)
    (prefix type : string) : Prop :=
  (Clock.minutes (-11) < time_diff <= Clock.minutes (-10) /\
   schedule_started = false /\ triggered = false /\
   prefix = "auto_block_"%string /\ type = "critical"%string)
  \/ (Clock.minutes (-10) < time_diff <= Clock.minutes (-5) /\
      schedule_started = false /\
      prefix = "missed_5min_"%string /\ type = "warning"%string)
  \/ (Clock.minutes (-5) < time_diff < 0 /\ schedule_started = false /\
      prefix = "just_missed_"%string /\ type = "late"%string)
  \/ (Clock.minutes 9 <= time_diff <= Clock.minutes 11 /\
      prefix = "10min_"%string /\ type = "upcoming"%string)
  \/ (Clock.minutes 4 <= time_diff <= Clock.minutes 6 /\
      prefix = "5min_"%string /\ type = "soon"%string)
  \/ (Clock.minutes (-1) <= time_diff <= Clock.minutes 1 /\
      schedule_started = false /\
      prefix = "start_"%string /\ type = "start"%string).

(** Repeated invocations, one per clock reading. *)
Definition enhanced_run (nows : list Z) (st : session) : session :=
  foldl (fun st now =>
           (Enhanced.check_enhanced_schedule_notifications now st).1)
    st nows.

Definition config_run (nows : list Z) (st : session) : session :=
  foldl (fun st now =>
           (Config.check_schedule_notifications_enhanced now st).1)
    st nows.

(** The id prefixes of the notifications that
    [check_schedule_notifications_enhanced] guards by their id. *)
Definition config_guarded_prefixes : list string :=
  [ "notif_10min_"; "notif_5min_"; "notif_start_" ]%string.

(** The background service at its start. *)
Definition idle_service : Service.service :=
  {| Service.notifications_sent := ∅; Service.sent := [] |}.

(** "Study" once the user has started it. *)
Definition study_started : Schedule := set_flag Started true study.

Definition study_id : string := "schedule_0_1700000000.0".

(** A record that [check_enhanced_schedule_notifications] can evaluate:
    it is completed, or it has a date and, when that is today, also a
    start time, an id and a title.  ['completed'] and ['started'] may be
    absent. *)
Definition enhanced_readable (today : Z) (s : Schedule) : Prop :=
  truthy (s_completed s) = true
  \/ exists d, s_date s = Some d /\
       (d <> today
        \/ (is_Some (s_start_time s) /\ is_Some (s_id s)
            /\ is_Some (s_title s))).

(** The same for the background service, which also passes over started
    schedules before it reads the date. *)
Definition service_readable (today : Z) (s : Schedule) : Prop :=
  truthy (s_started s) = true \/ enhanced_readable today s.

(** The re-check interval of [check_enhanced_schedule_notifications] has
    passed. *)
Definition enhanced_due (now : Z) (st : session) : Prop :=
  30 <= Clock.timedelta_seconds
          (now - default (now - Clock.minutes 1) (last_notification_check st)).

(** A record without ['date'] (and without the optional flags). *)
Definition undated : Schedule :=
  set_flag Completed false
    {| s_id := Some "schedule_9_1"%string; s_title := Some "Broken"%string;
       s_description := None; s_date := None;
       s_start_time := Some (Clock.minutes 840);
       s_end_time := Some (Clock.minutes 900);
       s_category := None; s_priority := None; s_completed := None;
       s_created_at := None; s_started := None; s_missed_notified := None;
       s_auto_block_triggered := None; s_auto_block_time := None;
       s_auto_blocked := None; s_auto_block_executed := None;
       s_start_timestamp := None |}.

(** "Study" without the keys ['completed'] and ['started']. *)
Definition study_bare : Schedule :=
  {| s_id := s_id study; s_title := s_title study;
     s_description := s_description study; s_date := s_date study;
     s_start_time := s_start_time study; s_end_time := s_end_time study;
     s_category := s_category study; s_priority := s_priority study;
     s_completed := None; s_created_at := s_created_at study;
     s_started := None; s_missed_notified := None;
     s_auto_block_triggered := None; s_auto_block_time := None;
     s_auto_blocked := None; s_auto_block_executed := None;
     s_start_timestamp := None |}.

(** The notifications that one visit of a loop body emitted. *)
Definition emitted_by (o : outcome (Schedule * sink)) : list Notification :=
  match o with
  | Return (_, k) => k.2
  | Raise _ => []
  end.

(** The environment in which the loop of [show_schedule_manager] starts. *)
Definition page_env (st : session) (w : WebsiteBlocker.os) : Page.env :=
  {| Page.e_sink := (notifications st, []); Page.e_os := w;
     Page.e_blocking_active := blocking_active st;
     Page.e_blocking_reason := blocking_reason st |}.

(** An auto-block attempt for the schedule at position [i] with id [sid]
    has been triggered in the session [st']: the schedule is flagged and
    exactly one auto-block notification stands in the list. *)
Definition auto_block_attempted (sid : string) (i : nat) (st' : session)
  : Prop :=
  (exists s', schedules st' !! i = Some s'
              /\ s_auto_block_triggered s' = Some true)
  /\ count_id ("auto_block_" +:+ sid) (notifications st') = 1%nat.

(** No attempt has been triggered: the schedule [s] at position [i] is
    as it was and there is no auto-block notification for [sid]. *)
Definition auto_block_untouched (sid : string) (i : nat) (s : Schedule)
    (st' : session) : Prop :=
  schedules st' !! i = Some s
  /\ count_id ("auto_block_" +:+ sid) (notifications st') = 0%nat.

(** A clock reading of the example day, [m] minutes and [s] seconds after
    midnight. *)
Definition at_second (m s : Z) : Z :=
  Clock.combine example_day (Clock.minutes m + Clock.seconds s).

(** A string without the separator of [schedule_id_of]. *)
Fixpoint plain (s : string) : Prop :=
  match s with
  | EmptyString => True
  | String c rest => c <> "_"%char /\ plain rest
  end.

(** A schedule that would overlap "Study": 14:30 to 15:30 on the same
    day. *)
Definition add_overlapping (st : session) : session * string :=
  Store.add_schedule "Overlap" "" example_day (Clock.minutes 870)
    (Clock.minutes 930) "Work" "High"
    "1700000100.0" (Clock.seconds 1700000100) st.

(** A string without a line break. *)
Fixpoint newline_free (s : string) : bool :=
  match s with
  | EmptyString => true
  | String c rest => negb (Ascii.eqb c Text.newline) && newline_free rest
  end.

(** A string without a carriage return. *)
Definition cr_free (s : string) : bool :=
  Text.all_chars (fun c => negb (Ascii.eqb c Text.carriage_return)) s.

(** What [block_websites] writes between its two marker lines. *)
Definition between_markers (sites : list string) (stamp : string)
  : list string :=
  ("# Added by Focus Timer on " +:+ stamp +:+ Text.nl)
  :: map (fun site =>
            WebsiteBlocker.redirect_ip +:+ " " +:+ site +:+ Text.nl) sites.

(** The exception, if any, that ended a computation. *)
Definition exception_of {A : Type} (o : outcome A) : option exn :=
  match o with
  | Return _ => None
  | Raise x => Some x
  end.

(** A schedule with the keys ['completed'] and ['started'] filled in by
    the defaults that [.get] uses for them. *)
Definition with_default_flags (s : Schedule) : Schedule :=
  set_flag Started (truthy (s_started s))
    (set_flag Completed (truthy (s_completed s)) s).

(** Repeated renderings of the schedule manager page. *)
Definition page_run (sites : list string) (stamp : string) (nows : list Z)
    (st : session) (w : WebsiteBlocker.os) : session * WebsiteBlocker.os :=
  foldl (fun r now =>
           (Page.check_notifications sites stamp now r.1 r.2).1)
    (st, w) nows.

(** ** Proof automation *)

(** Turns the boolean tests of a loop body into facts for [lia]. *)
Ltac boolean_tests :=
  repeat match goal with
  | H : _ && _ = true |- _ => apply andb_true_iff in H as [? ?]
  | H : negb _ = true |- _ => apply negb_true_iff in H
  | H : negb _ = false |- _ => apply negb_false_iff in H
  | H : (_ <? _) = true |- _ => apply Z.ltb_lt in H
  | H : (_ <=? _) = true |- _ => apply Z.leb_le in H
  | H : (_ =? _) = true |- _ => apply Z.eqb_eq in H
  end.

(** ** Notions about the hosts file *)

(** A complete line: it ends with its line break and has no other. *)
Fixpoint proper_line (l : string) : bool :=
  match l with
  | EmptyString => false
  | String c rest =>
      if Ascii.eqb c Text.newline then String.eqb rest ""
      else proper_line rest
  end.

(** A last line without line break. *)
Definition open_line (l : string) : bool :=
  negb (String.eqb l "") && newline_free l.

(** Lines as a text is cut into them: complete lines, the last one
    possibly without its line break. *)
Fixpoint well_split (ls : list string) : bool :=
  match ls with
  | [] => true
  | l :: rest =>
      match rest with
      | [] => proper_line l || open_line l
      | _ :: _ => proper_line l && well_split rest
      end
  end.

(** The line end of Windows. *)
Definition crlf : string := String Text.carriage_return Text.nl.

(** A hosts file on Windows, read and written as administrator:
    [os.linesep] is "\r\n"; the codec has every character. *)
Definition windows (txt : string) : WebsiteBlocker.os :=
  {| WebsiteBlocker.is_admin := true;
     WebsiteBlocker.hosts_readable := true;
     WebsiteBlocker.hosts_writable := true;
     WebsiteBlocker.linesep := Text.CRLF;
     WebsiteBlocker.encodable := fun _ => true;
     WebsiteBlocker.hosts := txt |}.

(** A hosts file read and written as administrator under a locale
    whose codec is ASCII. *)
Definition ascii_locale (txt : string) : WebsiteBlocker.os :=
  {| WebsiteBlocker.is_admin := true;
     WebsiteBlocker.hosts_readable := true;
     WebsiteBlocker.hosts_writable := true;
     WebsiteBlocker.linesep := Text.LF;
     WebsiteBlocker.encodable := fun _ => false;
     WebsiteBlocker.hosts := txt |}.

(** A site name with a character beyond ASCII (u with diaeresis, code
    point 252). *)
Definition umlaut_site : string :=
  "m" +:+ String (ascii_of_nat 252) "nchen.de".

(** A line that holds neither marker of the blocker. *)
Definition marker_free (l : string) : bool :=
  negb (Text.contains WebsiteBlocker.marker_start l)
  && negb (Text.contains WebsiteBlocker.marker_end l).

(** Lines as [split_lines] yields them: every line but the last ends with
    a line break. *)
Fixpoint line_shaped (ls : list string) : Prop :=
  match ls with
  | [] => True
  | l :: rest =>
      ((exists a, l = a +:+ Text.nl) \/ rest = []) /\ line_shaped rest
  end.

(** ** Notions about the store *)

(** The schedule carries an id other than [sid]. *)
Definition has_other_id (sid : string) (s : Schedule) : Prop :=
  exists i, s_id s = Some i /\ i <> sid.

(** How many schedules of the list have ['completed'] set to [b]. *)
Definition count_with_completed (b : bool) (l : list Schedule) : Z :=
  Z.of_nat (length (filter (fun s => s_completed s = Some b) l)).

(** Two stored schedules overlap: the test of [check_schedule_conflict]
    with the interval of [a] as the new one. *)
Definition clash (a b : Schedule) : bool :=
  match s_date a, s_start_time a, s_end_time a with
  | Some d, Some start, Some stop => overlaps start stop d b
  | _, _, _ => false
  end.

(** No two schedules of the store overlap. *)
Definition conflict_free (l : list Schedule) : Prop :=
  forall i j a b, i <> j -> l !! i = Some a -> l !! j = Some b ->
    clash a b = false.

(** The test of [delete_schedule] on a schedule that has an id. *)
Definition keeps (schedule_id : string) (s : Schedule) : bool :=
  match s_id s with
  | Some i => negb (String.eqb i schedule_id)
  | None => false
  end.

(** ** Notions about the background service *)

(** The key under which the service records a notification of a type
    for a schedule: [f"{schedule_id}_{type}"]. *)
Definition service_key (entry : string * string) : string :=
  entry.1 +:+ "_" +:+ entry.2.

(** Repeated turns of the service, each with its clock reading and the
    schedules it loads from the file, without cleanup in between. *)
Definition service_run (cycles : list (Z * list Schedule))
    (v : Service.service) : Service.service :=
  foldl (fun v c => Service.run_cycle c.1 c.2 v) v cycles.

(** Every notification handed to the notifier is on record, once. *)
Definition service_consistent (v : Service.service) : Prop :=
  NoDup (service_key <$> Service.sent v) /\
  forall entry, entry ∈ Service.sent v ->
    is_Some (Service.notifications_sent v !! service_key entry).

(** ** Notions about the buttons *)

(** [after] is [before] with notifications appended whose ids did not
    occur in [before]. *)
Definition fresh_tail (before after : list Notification) : Prop :=
  exists app, after = before ++ app /\
    forall n, n ∈ app -> count_id (n_id n) before = 0%nat.

(** The report of an auto-block loop that blocked for nothing. *)
Definition nothing_blocked : AutoBlock.report :=
  {| AutoBlock.r_success := false; AutoBlock.r_blocked_schedules := [] |}.

(** ** Data of the examples with a file and with several schedules *)

(** The dashboard before anything is added: no schedule, no file. *)
Definition fresh_app : Pickle.app :=
  {| Pickle.a_session := fresh_session; Pickle.schedules_data := None |}.

(** "Study", 14:00 to 15:00, added through [add_schedule] of
    config.py. *)
Definition study_app : Pickle.app :=
  (Pickle.add_schedule "Study" "" example_day (Clock.minutes 840)
     (Clock.minutes 900) "Study" "Medium"
     "1700000000.0" (Clock.seconds 1700000000)
     fresh_app).1.

(** Three schedules of the example day: "Read" at 14:10, "Write" at
    13:54 and "Plan" at 13:45. *)
Definition busy_session : session :=
  let st1 :=
    (Store.add_schedule "Read" "" example_day (Clock.minutes 850)
       (Clock.minutes 880) "Study" "Low"
       "1700000000.0" (Clock.seconds 1700000000)
       fresh_session).1 in
  let st2 :=
    (Store.add_schedule "Write" "" example_day (Clock.minutes 834)
       (Clock.minutes 849) "Work" "High"
       "1700000060.0" (Clock.seconds 1700000060)
       st1).1 in
  (Store.add_schedule "Plan" "" example_day (Clock.minutes 825)
     (Clock.minutes 833) "Work" "Medium"
     "1700000120.0" (Clock.seconds 1700000120)
     st2).1.

(* ===================================================================== *)
(** * Part III: properties *)
(* ===================================================================== *)

(** ** The hosts-file blocker *)

Section Blocker.
Import Text WebsiteBlocker.

Lemma append_cons c s t : String c s +:+ t = String c (s +:+ t).
Proof. reflexivity. Qed.

Lemma append_nil_l s : "" +:+ s = s.
Proof. reflexivity. Qed.

Lemma append_nil_r s : s +:+ "" = s.
Proof.
  induction s as [|c s IH]; [done|]. by rewrite append_cons, IH.
Qed.

Lemma append_assoc a b c : (a +:+ b) +:+ c = a +:+ (b +:+ c).
Proof.
  induction a as [|x a IH]; [done|]. by rewrite !append_cons, IH.
Qed.

Lemma join_app l1 l2 :
  join (l1 ++ l2) = join l1 +:+ join l2.
Proof.
  unfold join. induction l1 as [|l l1 IH]; simpl; [done|].
  by rewrite IH, append_assoc.
Qed.

Lemma join_split_lines s : join (split_lines s) = s.
Proof.
  unfold join. induction s as [|c s IH]; simpl; [done|].
  destruct (Ascii.eqb c newline); simpl; [by rewrite IH|].
  destruct (split_lines s) as [|l ls]; simpl in *; by rewrite <- IH.
Qed.

Lemma split_lines_nl_nonempty a : split_lines (a +:+ nl) <> [].
Proof.
  destruct a as [|c a]; simpl; [done|].
  destruct (Ascii.eqb c newline); [done|].
  by destruct (split_lines (a +:+ nl)).
Qed.

(** Reading a text that follows a complete line starts a new line. *)
Lemma split_lines_app_nl a b :
  split_lines ((a +:+ nl) +:+ b) = split_lines (a +:+ nl) ++ split_lines b.
Proof.
  induction a as [|c a IH]; simpl; [done|].
  destruct (Ascii.eqb c newline); simpl; [by rewrite IH|].
  rewrite IH. pose proof (split_lines_nl_nonempty a).
  by destruct (split_lines (a +:+ nl)).
Qed.

Lemma split_lines_one_line a :
  newline_free a = true -> split_lines (a +:+ nl) = [a +:+ nl].
Proof.
  induction a as [|c a IH]; simpl; [done|].
  intros [Hc Ha]%andb_true_iff. apply negb_true_iff in Hc.
  by rewrite Hc, IH.
Qed.

Lemma prefix_nil s : String.prefix "" s = true.
Proof. by destruct s. Qed.

Lemma prefix_app_l m a b :
  String.prefix m a = true -> String.prefix m (a +:+ b) = true.
Proof.
  revert a. induction m as [|c m IH]; intros a; [by rewrite !prefix_nil|].
  destruct a as [|x a]; [done|]. rewrite append_cons. simpl.
  destruct (ascii_dec c x); [apply IH|done].
Qed.

Lemma contains_app_l m a b :
  contains m a = true -> contains m (a +:+ b) = true.
Proof.
  induction a as [|x a IH].
  - simpl. rewrite orb_false_r. destruct m; [|done].
    intros _. rewrite append_nil_l. destruct b; simpl; by rewrite ?prefix_nil.
  - rewrite append_cons.
    change (contains m (String x a))
      with (String.prefix m (String x a) || contains m a).
    change (contains m (String x (a +:+ b)))
      with (String.prefix m (String x (a +:+ b)) || contains m (a +:+ b)).
    intros [H|H]%orb_true_iff; apply orb_true_iff.
    + left. by apply (prefix_app_l m (String x a) b).
    + right. by apply IH.
Qed.

Lemma contains_app_r m a b :
  contains m b = true -> contains m (a +:+ b) = true.
Proof.
  intros H. induction a as [|x a IH]; [done|].
  rewrite append_cons.
  change (contains m (String x (a +:+ b)))
    with (String.prefix m (String x (a +:+ b)) || contains m (a +:+ b)).
  apply orb_true_iff. by right.
Qed.

Lemma contains_lines m lines :
  contains m (join lines) = false ->
  Forall (fun line => contains m line = false) lines.
Proof.
  unfold join. induction lines as [|l ls IH]; simpl; intros H;
    constructor.
  - destruct (contains m l) eqn:Hl; [|done].
    by rewrite (contains_app_l m l _ Hl) in H.
  - apply IH. destruct (contains m (foldr String.append "" ls)) eqn:Hls;
      [|done].
    by rewrite (contains_app_r m l _ Hls) in H.
Qed.

Lemma prefix_nl m a :
  newline_free m = true ->
  String.prefix m (a +:+ nl) = String.prefix m a.
Proof.
  revert a. induction m as [|c m IH]; intros a Hm; simpl in *.
  { by destruct a. }
  apply andb_true_iff in Hm as [Hc Hm]. apply negb_true_iff in Hc.
  destruct a as [|x a]; simpl.
  - destruct (ascii_dec c newline) as [->|]; [|done].
    by rewrite Ascii.eqb_refl in Hc.
  - destruct (ascii_dec c x); [by apply IH|done].
Qed.

(** A marker has no line break, so a final line break adds no
    occurrence of it. *)
Lemma contains_nl m a :
  newline_free m = true -> m <> ""%string ->
  contains m (a +:+ nl) = contains m a.
Proof.
  intros Hm Hne. induction a as [|x a IH].
  - destruct m as [|c m]; [done|]. simpl in *.
    apply andb_true_iff in Hm as [Hc Hm]. apply negb_true_iff in Hc.
    destruct (ascii_dec c newline) as [->|]; [|done].
    by rewrite Ascii.eqb_refl in Hc.
  - change (contains m (String x a +:+ nl))
      with (String.prefix m (String x a +:+ nl) || contains m (a +:+ nl)).
    rewrite (prefix_nl m (String x a)) by done. by rewrite IH.
Qed.

Lemma remove_section_keeps lines rest :
  Forall (fun line => contains marker_start line = false
                      /\ contains marker_end line = false) lines ->
  remove_blocking_section false (lines ++ rest)
  = lines ++ remove_blocking_section false rest.
Proof.
  induction 1 as [|l ls [Hs He] _ IH]; simpl; [done|].
  by rewrite Hs, He, IH.
Qed.

Lemma remove_section_skips lines rest :
  Forall (fun line => contains marker_end line = false) lines ->
  remove_blocking_section true (lines ++ rest)
  = remove_blocking_section true rest.
Proof.
  induction 1 as [|l ls He _ IH]; simpl; [done|].
  rewrite He, IH. by destruct (contains marker_start l).
Qed.

Lemma blocking_entries_parts sites stamp :
  blocking_entries sites stamp
  = [nl +:+ marker_start +:+ nl] ++ between_markers sites stamp
    ++ [marker_end +:+ nl].
Proof. reflexivity. Qed.

(** The text between the markers is made of complete lines. *)
Lemma between_markers_text sites stamp :
  exists x, join (between_markers sites stamp) = x +:+ nl.
Proof.
  unfold between_markers.
  assert (Hsites : forall l : list string,
    join
      (map (fun site => redirect_ip +:+ " " +:+ site +:+ nl) l) = ""%string
    \/ exists x,
         join
           (map (fun site => redirect_ip +:+ " " +:+ site +:+ nl) l)
         = x +:+ nl).
  { induction l as [|site l IH]; [by left|]. right.
    change (join (map _ (site :: l)))
      with ((redirect_ip +:+ " " +:+ site +:+ nl) +:+
            join
              (map (fun site => redirect_ip +:+ " " +:+ site +:+ nl) l)).
    destruct IH as [->|[x ->]].
    - exists (redirect_ip +:+ " " +:+ site).
      by rewrite append_nil_r, !append_assoc.
    - exists ((redirect_ip +:+ " " +:+ site +:+ nl) +:+ x).
      by rewrite !append_assoc. }
  change (join (?l :: ?ls)) with (l +:+ join ls).
  destruct (Hsites sites) as [->|[x ->]].
  - exists ("# Added by Focus Timer on " +:+ stamp).
    by rewrite append_nil_r, !append_assoc.
  - exists (("# Added by Focus Timer on " +:+ stamp +:+ nl) +:+ x).
    by rewrite !append_assoc.
Qed.

(** *** Line ends: what reading and writing in text mode do *)

Lemma contains_cons m x s :
  contains m (String x s) = String.prefix m (String x s) || contains m s.
Proof. reflexivity. Qed.

Lemma native_newlines_cons sep x s :
  native_newlines sep (String x s)
  = (if Ascii.eqb x newline then linesep_text sep else String x "")
    +:+ native_newlines sep s.
Proof. reflexivity. Qed.

Lemma native_newlines_LF s : native_newlines LF s = s.
Proof.
  induction s as [|c s IH]; [done|].
  rewrite native_newlines_cons, IH.
  destruct (Ascii.eqb c newline) eqn:Hc; [|done].
  by apply Ascii.eqb_eq in Hc as ->.
Qed.

Lemma native_newlines_app sep a b :
  native_newlines sep (a +:+ b)
  = native_newlines sep a +:+ native_newlines sep b.
Proof.
  induction a as [|c a IH]; [done|].
  by rewrite append_cons, !native_newlines_cons, IH, append_assoc.
Qed.

Lemma prefix_newline m r :
  newline_free m = true -> m <> ""%string ->
  String.prefix m (String newline r) = false.
Proof.
  destruct m as [|c m]; [done|]. simpl.
  intros [Hc _]%andb_true_iff _. apply negb_true_iff in Hc.
  destruct (ascii_dec c newline) as [->|]; [|done].
  by rewrite Ascii.eqb_refl in Hc.
Qed.

Lemma prefix_carriage_return m r :
  cr_free m = true -> m <> ""%string ->
  String.prefix m (String carriage_return r) = false.
Proof.
  destruct m as [|c m]; [done|]. unfold cr_free. simpl.
  intros [Hc _]%andb_true_iff _. apply negb_true_iff in Hc.
  destruct (ascii_dec c carriage_return) as [->|]; [|done].
  by rewrite Ascii.eqb_refl in Hc.
Qed.

Lemma cr_free_cons c m :
  cr_free (String c m) = true ->
  Ascii.eqb c carriage_return = false /\ cr_free m = true.
Proof.
  unfold cr_free. simpl. intros [Hc Hm]%andb_true_iff.
  by apply negb_true_iff in Hc.
Qed.

Lemma newline_free_cons c m :
  newline_free (String c m) = true ->
  Ascii.eqb c newline = false /\ newline_free m = true.
Proof.
  simpl. intros [Hc Hm]%andb_true_iff. by apply negb_true_iff in Hc.
Qed.

(** A text without line ends is found at the start of the written text
    where it is found at the start of the text handed over. *)
Lemma prefix_native m sep s :
  newline_free m = true -> cr_free m = true ->
  String.prefix m (native_newlines sep s) = String.prefix m s.
Proof.
  revert s. induction m as [|c m IH]; intros s Hn Hc.
  { by rewrite !prefix_nil. }
  destruct s as [|x s]; [done|].
  rewrite native_newlines_cons.
  destruct (Ascii.eqb x newline) eqn:Hx.
  - apply Ascii.eqb_eq in Hx as ->.
    rewrite (prefix_newline (String c m)) by done.
    destruct sep.
    + by apply prefix_newline.
    + by apply prefix_carriage_return.
  - apply newline_free_cons in Hn as [_ Hn].
    apply cr_free_cons in Hc as [_ Hc].
    change (String x "" +:+ native_newlines sep s)
      with (String x (native_newlines sep s)).
    simpl. destruct (ascii_dec c x); [by apply IH|done].
Qed.

Lemma contains_native m sep s :
  newline_free m = true -> cr_free m = true -> m <> ""%string ->
  contains m (native_newlines sep s) = contains m s.
Proof.
  intros Hn Hc Hne. induction s as [|x s IH]; [done|].
  rewrite contains_cons, <- (prefix_native m sep (String x s)) by done.
  rewrite native_newlines_cons.
  destruct (Ascii.eqb x newline) eqn:Hx; [destruct sep|].
  - change (linesep_text LF +:+ native_newlines LF s)
      with (String newline (native_newlines LF s)).
    by rewrite contains_cons, IH.
  - change (linesep_text CRLF +:+ native_newlines CRLF s)
      with (String carriage_return (String newline (native_newlines CRLF s))).
    rewrite !contains_cons, IH.
    by rewrite (prefix_newline m), orb_false_l.
  - change (String x "" +:+ native_newlines sep s)
      with (String x (native_newlines sep s)).
    by rewrite contains_cons, IH.
Qed.

Lemma universal_newlines_cons x s :
  Ascii.eqb x carriage_return = false ->
  universal_newlines (String x s) = String x (universal_newlines s).
Proof. simpl. by intros ->. Qed.

Lemma universal_newlines_cr s :
  universal_newlines (String carriage_return s)
  = match s with
    | EmptyString => nl
    | String c' _ =>
        if Ascii.eqb c' newline then universal_newlines s
        else String newline (universal_newlines s)
    end.
Proof. reflexivity. Qed.

Lemma prefix_universal m s :
  newline_free m = true -> cr_free m = true ->
  String.prefix m (universal_newlines s) = String.prefix m s.
Proof.
  revert s. induction m as [|c m IH]; intros s Hn Hc.
  { by rewrite !prefix_nil. }
  destruct s as [|x s]; [done|].
  destruct (Ascii.eqb x carriage_return) eqn:Hx.
  - apply Ascii.eqb_eq in Hx as ->.
    rewrite (prefix_carriage_return (String c m)) by done.
    rewrite universal_newlines_cr.
    destruct s as [|c' s]; [by apply prefix_newline|].
    destruct (Ascii.eqb c' newline) eqn:Hc'.
    + apply Ascii.eqb_eq in Hc' as ->.
      rewrite universal_newlines_cons by done. by apply prefix_newline.
    + by apply prefix_newline.
  - rewrite universal_newlines_cons by done.
    apply newline_free_cons in Hn as [_ Hn].
    apply cr_free_cons in Hc as [_ Hc].
    simpl. destruct (ascii_dec c x); [by apply IH|done].
Qed.

(** Reading does not change where a text without line ends occurs. *)
Lemma contains_universal m s :
  newline_free m = true -> cr_free m = true -> m <> ""%string ->
  contains m (universal_newlines s) = contains m s.
Proof.
  intros Hn Hc Hne. induction s as [|x s IH]; [done|].
  rewrite (contains_cons m x s).
  destruct (Ascii.eqb x carriage_return) eqn:Hx.
  - apply Ascii.eqb_eq in Hx as ->.
    rewrite (prefix_carriage_return m) by done.
    rewrite universal_newlines_cr, orb_false_l.
    destruct s as [|c' s].
    { unfold nl. rewrite contains_cons, prefix_newline by done.
      by destruct m. }
    destruct (Ascii.eqb c' newline); [done|].
    by rewrite contains_cons, prefix_newline, IH.
  - rewrite <- (prefix_universal m (String x s)) by done.
    rewrite universal_newlines_cons by done.
    by rewrite contains_cons, IH.
Qed.

Lemma universal_newlines_cr_free s : cr_free (universal_newlines s) = true.
Proof.
  induction s as [|x s IH]; [done|].
  destruct (Ascii.eqb x carriage_return) eqn:Hx.
  - apply Ascii.eqb_eq in Hx as ->. rewrite universal_newlines_cr.
    destruct s as [|c' s]; [done|].
    by destruct (Ascii.eqb c' newline).
  - rewrite universal_newlines_cons by done.
    unfold cr_free in *. simpl. by rewrite Hx, IH.
Qed.

(** What was written is read back as the text handed over, when that
    text has no carriage return of its own. *)
Lemma universal_native sep s :
  cr_free s = true -> universal_newlines (native_newlines sep s) = s.
Proof.
  induction s as [|x s IH]; [done|].
  intros [Hx Hs]%cr_free_cons. rewrite native_newlines_cons.
  destruct (Ascii.eqb x newline) eqn:Hn; [destruct sep|].
  - apply Ascii.eqb_eq in Hn as ->.
    change (linesep_text LF +:+ native_newlines LF s)
      with (String newline (native_newlines LF s)).
    by rewrite universal_newlines_cons, IH.
  - apply Ascii.eqb_eq in Hn as ->.
    change (linesep_text CRLF +:+ native_newlines CRLF s)
      with (String carriage_return (String newline (native_newlines CRLF s))).
    rewrite universal_newlines_cr. simpl Ascii.eqb. cbv iota.
    by rewrite universal_newlines_cons, IH.
  - change (String x "" +:+ native_newlines sep s)
      with (String x (native_newlines sep s)).
    by rewrite universal_newlines_cons, IH.
Qed.

Lemma universal_newlines_id s :
  cr_free s = true -> universal_newlines s = s.
Proof.
  intros Hs. rewrite <- (native_newlines_LF s) at 1.
  by apply universal_native.
Qed.

(** Reading starts afresh after a complete line. *)
Lemma universal_newlines_app_nl a b :
  universal_newlines ((a +:+ nl) +:+ b)
  = universal_newlines (a +:+ nl) +:+ universal_newlines b.
Proof.
  induction a as [|c a IH]; [done|].
  rewrite !append_cons.
  destruct (Ascii.eqb c carriage_return) eqn:Hc.
  - apply Ascii.eqb_eq in Hc as ->. rewrite !universal_newlines_cr.
    destruct a as [|c' a]; [done|].
    rewrite !append_cons in *.
    destruct (Ascii.eqb c' newline); by rewrite IH.
  - by rewrite !universal_newlines_cons, IH.
Qed.

Lemma universal_newlines_nl_end a :
  exists a', universal_newlines (a +:+ nl) = a' +:+ nl.
Proof.
  induction a as [|c a [a' IH]]; [by exists ""%string|].
  rewrite append_cons.
  destruct (Ascii.eqb c carriage_return) eqn:Hc.
  - apply Ascii.eqb_eq in Hc as ->. rewrite universal_newlines_cr.
    destruct (a +:+ nl) as [|c' r] eqn:Har.
    { by exists ""%string. }
    destruct (Ascii.eqb c' newline); [by exists a'|].
    exists (String newline a'). by rewrite IH.
  - rewrite universal_newlines_cons by done.
    exists (String c a'). by rewrite IH.
Qed.

(** *** Tests on every character: encodable texts, texts without
    carriage return *)

Lemma all_chars_app test a b :
  all_chars test (a +:+ b) = all_chars test a && all_chars test b.
Proof.
  induction a as [|c a IH]; [done|].
  rewrite append_cons. simpl. by rewrite IH, andb_assoc.
Qed.

Lemma all_chars_join test lines :
  all_chars test (join lines) = forallb (all_chars test) lines.
Proof.
  induction lines as [|l ls IH]; [done|].
  change (join (l :: ls)) with (l +:+ join ls).
  by rewrite all_chars_app, IH.
Qed.

Lemma all_chars_split_lines test s :
  forallb (all_chars test) (split_lines s) = all_chars test s.
Proof. by rewrite <- all_chars_join, join_split_lines. Qed.

Lemma all_chars_universal test s :
  test newline = true ->
  all_chars test s = true -> all_chars test (universal_newlines s) = true.
Proof.
  intros Hnl. induction s as [|x s IH]; [done|].
  intros [Hx Hs]%andb_true_iff.
  destruct (Ascii.eqb x carriage_return) eqn:Hc.
  - apply Ascii.eqb_eq in Hc as ->. rewrite universal_newlines_cr.
    destruct s as [|c' s]; [by simpl; rewrite Hnl|].
    destruct (Ascii.eqb c' newline); [by apply IH|].
    simpl. rewrite Hnl. by apply IH.
  - rewrite universal_newlines_cons by done. simpl.
    by rewrite Hx, IH.
Qed.

Lemma all_chars_native test sep s :
  test newline = true -> test carriage_return = true ->
  all_chars test s = true -> all_chars test (native_newlines sep s) = true.
Proof.
  intros Hnl Hcr. induction s as [|x s IH]; [done|].
  intros [Hx Hs]%andb_true_iff.
  rewrite native_newlines_cons, all_chars_app, IH, andb_true_r by done.
  destruct (Ascii.eqb x newline); [|by simpl; rewrite Hx].
  destruct sep; simpl; by rewrite ?Hcr, Hnl.
Qed.

Lemma all_chars_true s : all_chars (fun _ => true) s = true.
Proof. by induction s. Qed.

Lemma in_codec_newline w : in_codec w newline = true.
Proof. reflexivity. Qed.

Lemma in_codec_carriage_return w : in_codec w carriage_return = true.
Proof. reflexivity. Qed.

(** The loop of [unblock_websites] only drops lines. *)
Lemma remove_section_forallb (test : string -> bool) skip lines :
  forallb test lines = true ->
  forallb test (remove_blocking_section skip lines) = true.
Proof.
  revert skip. induction lines as [|l ls IH]; intros skip; [done|].
  simpl. intros [Hl Hls]%andb_true_iff.
  destruct (contains marker_start l); [by apply IH|].
  destruct (contains marker_end l); [by apply IH|].
  destruct skip; simpl; [by apply IH|].
  by rewrite Hl, IH.
Qed.

(** *** Writing and reading the hosts file *)

Lemma writelines_app sep codec l1 l2 :
  forallb (all_chars codec) l1 = true ->
  writelines sep codec (l1 ++ l2)
  = (native_newlines sep (join l1) +:+ (writelines sep codec l2).1,
     (writelines sep codec l2).2).
Proof.
  induction l1 as [|l ls IH]; intros Hall.
  { rewrite app_nil_l.
    change (native_newlines sep (join [])) with ""%string.
    rewrite append_nil_l. by destruct (writelines sep codec l2). }
  simpl in Hall. apply andb_true_iff in Hall as [Hl Hls].
  change (writelines sep codec ((l :: ls) ++ l2))
    with (if all_chars codec l then
            (native_newlines sep l +:+ (writelines sep codec (ls ++ l2)).1,
             (writelines sep codec (ls ++ l2)).2)
          else (EmptyString, false)).
  rewrite Hl, IH by done. simpl.
  change (join (l :: ls)) with (l +:+ join ls).
  by rewrite native_newlines_app, append_assoc.
Qed.

(** Lines that the codec can encode are all written. *)
Lemma writelines_all sep codec lines :
  forallb (all_chars codec) lines = true ->
  writelines sep codec lines = (native_newlines sep (join lines), true).
Proof.
  intros Hall. rewrite <- (app_nil_r lines) at 1.
  rewrite writelines_app by done. simpl. by rewrite append_nil_r.
Qed.

(** Writing stops in front of the first line that the codec cannot
    encode. *)
Lemma writelines_stops sep codec l1 bad l2 :
  forallb (all_chars codec) l1 = true -> all_chars codec bad = false ->
  writelines sep codec (l1 ++ bad :: l2)
  = (native_newlines sep (join l1), false).
Proof.
  intros Hall Hbad. rewrite writelines_app by done. simpl.
  by rewrite Hbad, append_nil_r.
Qed.

(** What [_read_hosts_file] returns: lines that the codec has, without
    carriage return. *)
Lemma read_hosts_file_lines w lines :
  _read_hosts_file w = Some lines ->
  hosts_readable w = true /\
  lines = split_lines (universal_newlines (hosts w)) /\
  forallb (all_chars (in_codec w)) lines = true /\
  forallb cr_free lines = true.
Proof.
  unfold _read_hosts_file, readlines.
  destruct (hosts_readable w); [|done].
  destruct (all_chars _ (hosts w)) eqn:Hall; [|done].
  intros [= <-]. repeat split.
  - rewrite all_chars_split_lines. by apply all_chars_universal.
  - unfold cr_free. rewrite all_chars_split_lines.
    apply universal_newlines_cr_free.
Qed.

(** Blocking is active when the file can be read and holds the start
    marker, whatever its line ends are. *)
Lemma is_blocking_active_spec w :
  is_blocking_active w
  = hosts_readable w && all_chars (in_codec w) (hosts w)
    && contains marker_start (hosts w).
Proof.
  unfold is_blocking_active, _read_hosts_file, readlines.
  destruct (hosts_readable w && all_chars (in_codec w) (hosts w)); [|done].
  by rewrite join_split_lines, contains_universal.
Qed.

Lemma set_hosts_same w : set_hosts w (hosts w) = w.
Proof. by destruct w. Qed.

Lemma is_blocking_active_set_hosts w txt :
  is_blocking_active (set_hosts w txt)
  = hosts_readable w && all_chars (in_codec w) txt
    && contains marker_start txt.
Proof. by rewrite is_blocking_active_spec. Qed.

Lemma read_set_hosts w txt :
  _read_hosts_file (set_hosts w txt)
  = if hosts_readable w && all_chars (in_codec w) txt
    then Some (split_lines (universal_newlines txt))
    else None.
Proof. reflexivity. Qed.

(** The codec of the examples has every character. *)
Lemma privileged_codec_text txt s :
  all_chars (in_codec (privileged txt)) s = true.
Proof.
  induction s as [|c s IH]; [done|]. simpl. rewrite IH.
  unfold in_codec. simpl. by rewrite orb_true_r.
Qed.

Lemma privileged_codec txt lines :
  forallb (all_chars (in_codec (privileged txt))) lines = true.
Proof. apply forallb_forall. intros l _. apply privileged_codec_text. Qed.

Lemma read_privileged txt :
  _read_hosts_file (privileged txt)
  = Some (split_lines (universal_newlines txt)).
Proof.
  unfold _read_hosts_file, readlines.
  cbn [hosts_readable hosts privileged].
  by rewrite privileged_codec_text.
Qed.

Lemma write_privileged txt lines :
  _write_hosts_file (privileged txt) lines = (privileged (join lines), true).
Proof.
  unfold _write_hosts_file. cbn [hosts_writable linesep privileged].
  rewrite writelines_all by apply privileged_codec.
  by rewrite native_newlines_LF.
Qed.

(** [block_websites] as administrator on a file without the start
    marker: the section is put behind the text that was read. *)
Lemma block_websites_privileged sites stamp txt :
  contains marker_start txt = false ->
  (block_websites sites stamp (privileged txt)).1
  = privileged (universal_newlines txt
                +:+ join (blocking_entries sites stamp)) /\
  success (block_websites sites stamp (privileged txt)).2 = true /\
  is_blocking_active (block_websites sites stamp (privileged txt)).1 = true.
Proof.
  intros Hfree.
  assert (Hw : block_websites sites stamp (privileged txt)
    = (privileged (universal_newlines txt
                   +:+ join (blocking_entries sites stamp)),
       {| success := true;
          message := "Successfully blocked " +:+ pretty (length sites)
                     +:+ " websites";
          blocked_sites := sites; requires_admin := false |})).
  { unfold block_websites, _check_admin_privileges.
    rewrite read_privileged, is_blocking_active_spec.
    cbn [is_admin hosts_readable hosts privileged negb andb].
    rewrite Hfree, andb_false_r, write_privileged.
    by rewrite join_app, join_split_lines. }
  rewrite Hw. cbn [fst snd success]. repeat split.
  rewrite is_blocking_active_spec. cbn [hosts_readable hosts privileged].
  rewrite privileged_codec_text. simpl. apply contains_app_r.
  unfold blocking_entries. rewrite join_app.
  apply contains_app_l. reflexivity.
Qed.

(** [unblock_websites] as administrator. *)
Lemma unblock_websites_privileged txt :
  (unblock_websites (privileged txt)).1
  = privileged
      (join (remove_blocking_section false
               (split_lines (universal_newlines txt)))).
Proof.
  unfold unblock_websites, _check_admin_privileges.
  rewrite read_privileged. cbn [is_admin privileged negb].
  by rewrite write_privileged.
Qed.

(** What the two calls do to a hosts file without markers: the text
    that was read comes back with one line break added.  The lines that
    [block_websites] writes between its markers must not contain the end
    marker themselves. *)
Lemma block_unblock_appends_newline txt sites stamp :
  contains marker_start txt = false ->
  contains marker_end txt = false ->
  contains marker_end (join (between_markers sites stamp)) = false ->
  hosts (block_then_unblock sites stamp (privileged txt))
  = universal_newlines txt +:+ nl.
Proof.
  intros Hstart Hend Hmid. unfold block_then_unblock.
  destruct (block_websites_privileged sites stamp txt Hstart) as [-> _].
  rewrite unblock_websites_privileged. cbn [hosts privileged].
  set (U := universal_newlines txt).
  assert (HU : cr_free (U +:+ nl) = true).
  { unfold cr_free. rewrite all_chars_app.
    pose proof (universal_newlines_cr_free txt) as H. unfold cr_free in H.
    fold U in H. by rewrite H. }
  rewrite blocking_entries_parts, !join_app.
  destruct (between_markers_text sites stamp) as [mid Hmidtxt].
  replace (U +:+ join [nl +:+ marker_start +:+ nl] +:+
           join (between_markers sites stamp) +:+
           join [marker_end +:+ nl])
    with ((U +:+ nl) +:+ ((marker_start +:+ nl) +:+
          ((mid +:+ nl) +:+ (marker_end +:+ nl)))).
  2:{ rewrite Hmidtxt. unfold join. simpl.
      by rewrite !append_nil_r, !append_assoc. }
  rewrite !universal_newlines_app_nl.
  rewrite (universal_newlines_id (U +:+ nl)) by done.
  rewrite (universal_newlines_id (marker_start +:+ nl)) by reflexivity.
  rewrite (universal_newlines_id (marker_end +:+ nl)) by reflexivity.
  destruct (universal_newlines_nl_end mid) as [mid' Hmid'].
  assert (Hmid'' : contains marker_end (mid' +:+ nl) = false).
  { rewrite <- Hmid', contains_universal by done. by rewrite <- Hmidtxt. }
  rewrite Hmid'.
  rewrite !split_lines_app_nl.
  rewrite (split_lines_one_line marker_start),
    (split_lines_one_line marker_end) by reflexivity.
  rewrite remove_section_keeps.
  2:{ apply Forall_forall. intros line Hline.
      assert (Hs : contains marker_start (U +:+ nl) = false).
      { rewrite contains_nl by done. unfold U.
        by rewrite contains_universal. }
      assert (He : contains marker_end (U +:+ nl) = false).
      { rewrite contains_nl by done. unfold U.
        by rewrite contains_universal. }
      rewrite <- (join_split_lines (U +:+ nl)) in Hs, He.
      apply contains_lines in Hs, He. rewrite Forall_forall in Hs, He.
      auto. }
  change (remove_blocking_section false
            ([marker_start +:+ nl] ++ split_lines (mid' +:+ nl)
             ++ [marker_end +:+ nl]))
    with (remove_blocking_section true
            (split_lines (mid' +:+ nl) ++ [marker_end +:+ nl])).
  rewrite remove_section_skips.
  2:{ apply contains_lines. by rewrite join_split_lines. }
  change (remove_blocking_section true [marker_end +:+ nl]) with (@nil string).
  by rewrite app_nil_r, join_split_lines.
Qed.

(** C10, evaluated on the hosts file ["127.0.0.1 localhost\n"], which
    holds neither marker: with administrator rights and working file
    access both calls succeed, yet the file read back afterwards has two
    lines, the original one and an empty line.  The newline that
    [block_websites] puts in front of the start marker is read back as a
    line of its own and [unblock_websites] keeps it, so block followed by
    unblock is not the identity. *)
Theorem block_unblock_leaves_blank_line :
  let w0 := privileged ("127.0.0.1 localhost" +:+ nl) in
  let stamp := "2025-01-01 10:00:00"%string in
  let w1 := (block_websites default_blocked_sites stamp w0).1 in
  contains marker_start (hosts w0) = false /\
  contains marker_end (hosts w0) = false /\
  success (block_websites default_blocked_sites stamp w0).2 = true /\
  success (unblock_websites w1).2 = true /\
  readlines (hosts w0) = ["127.0.0.1 localhost" +:+ nl] /\
  readlines (hosts (block_then_unblock default_blocked_sites stamp w0))
    = ["127.0.0.1 localhost" +:+ nl; nl] /\
  hosts (block_then_unblock default_blocked_sites stamp w0) <> hosts w0.
Proof. vm_compute. repeat split; try reflexivity. discriminate. Qed.

End Blocker.

(** ** The schedule store: conflicts *)

Section Conflicts.
Import Store.

Lemma excluded_none s : excluded None s = false.
Proof. reflexivity. Qed.

Lemma conflict_body_overlaps new_start new_end new_date s conflicts :
  well_timed s ->
  conflict_body new_start new_end new_date None s conflicts
  = Return (if overlaps new_start new_end new_date s
            then conflicts ++ [s] else conflicts).
Proof.
  intros ([d Hd] & [b Hb] & [e He]).
  unfold conflict_body, overlaps. rewrite excluded_none, Hd, Hb, He. simpl.
  destruct (d =? new_date); simpl; [|reflexivity].
  rewrite Z.gtb_ltb. by destruct (_ && _).
Qed.

Lemma conflict_loop_filter new_start new_end new_date todo conflicts :
  Forall well_timed todo ->
  conflict_loop new_start new_end new_date None todo conflicts
  = Return (conflicts ++
            filter (fun s => overlaps new_start new_end new_date s = true)
              todo).
Proof.
  intros Hwf. revert conflicts.
  induction Hwf as [|s todo Hs _ IH]; intros conflicts; simpl.
  - by rewrite app_nil_r.
  - rewrite conflict_body_overlaps by done. simpl.
    rewrite IH, filter_cons.
    destruct (overlaps new_start new_end new_date s) eqn:Ho.
    + rewrite decide_True by done. by rewrite <- app_assoc.
    + rewrite decide_False by (by intros ?). done.
Qed.

(** C4: on a store whose schedules carry their date and times, the
    conflict check for a new interval [new_start, new_end) on
    [new_date] returns; a stored schedule of that date with interval
    [existing_start, existing_end) is among the reported conflicts if and
    only if [new_start < existing_end] and [existing_start < new_end].
    So an interval that ends where the other starts does not conflict,
    and two intervals that share an instant do. *)
Theorem conflict_iff_overlap st new_start new_end new_date x
    existing_start existing_end :
  Forall well_timed (schedules st) ->
  x ∈ schedules st ->
  s_date x = Some new_date ->
  s_start_time x = Some existing_start ->
  s_end_time x = Some existing_end ->
  exists conflicts,
    check_schedule_conflict new_start new_end new_date None st
      = Return conflicts /\
    (x ∈ conflicts <-> new_start < existing_end /\ existing_start < new_end) /\
    (new_end = existing_start -> x ∉ conflicts) /\
    (existing_end = new_start -> x ∉ conflicts) /\
    ((exists t, new_start <= t < new_end /\ existing_start <= t < existing_end)
     -> x ∈ conflicts).
Proof.
  intros Hwf Hx Hd Hs He.
  unfold check_schedule_conflict. rewrite conflict_loop_filter by done.
  eexists; split; [reflexivity|]. simpl.
  assert (Hiff : x ∈ filter
            (fun s => overlaps new_start new_end new_date s = true)
            (schedules st)
          <-> new_start < existing_end /\ existing_start < new_end).
  { rewrite list_elem_of_filter. unfold overlaps. rewrite Hd, Hs, He.
    rewrite Z.eqb_refl. simpl. rewrite andb_true_iff, !Z.ltb_lt. tauto. }
  split; [exact Hiff|].
  split; [intros -> Hin; apply Hiff in Hin; lia|].
  split; [intros <- Hin; apply Hiff in Hin; lia|].
  intros (t & ? & ?). apply Hiff. lia.
Qed.

(** The store of the specification's example: A = [10:30, 11:30). *)
Lemma conflict_iff_overlap_witness :
  let a := {| s_id := Some "schedule_0_1"%string; s_title := Some "A"%string;
              s_description := None; s_date := Some 20000;
              s_start_time := Some (Clock.minutes 630);
              s_end_time := Some (Clock.minutes 690);
              s_category := None; s_priority := None;
              s_completed := Some false; s_created_at := None;
              s_started := Some false; s_missed_notified := Some false;
              s_auto_block_triggered := None; s_auto_block_time := None;
              s_auto_blocked := None; s_auto_block_executed := None;
              s_start_timestamp := None |} in
  let st := {| schedules := [a]; notifications := [];
               last_notification_check := None; blocking_active := false;
               blocking_reason := None |} in
  exists conflicts,
    check_schedule_conflict (Clock.minutes 600) (Clock.minutes 660) 20000
      None st = Return conflicts /\
    (a ∈ conflicts <->
     Clock.minutes 600 < Clock.minutes 690 /\
     Clock.minutes 630 < Clock.minutes 660) /\
    (Clock.minutes 660 = Clock.minutes 630 -> a ∉ conflicts) /\
    (Clock.minutes 690 = Clock.minutes 600 -> a ∉ conflicts) /\
    ((exists t, Clock.minutes 600 <= t < Clock.minutes 660 /\
                Clock.minutes 630 <= t < Clock.minutes 690)
     -> a ∈ conflicts).
Proof.
  intros a st.
  apply (conflict_iff_overlap st (Clock.minutes 600) (Clock.minutes 660) 20000
           a (Clock.minutes 630) (Clock.minutes 690)).
  - repeat constructor; simpl; eauto.
  - simpl. left.
  - reflexivity.
  - reflexivity.
  - reflexivity.
Defined.

End Conflicts.

(** ** The auto-block triggers and the Complete button *)

Section Triggers.
Import WebsiteBlocker AutoBlock.

(** C6, as the code has it.  Take a schedule with [auto_block_triggered]
    set and [auto_blocked] not set, and let the blocker fail: no
    administrator rights, or [block_websites] reports failure.
    - [auto_block_for_missed_schedules] leaves [auto_block_triggered] as
      it is and [auto_blocked] false, and changes nothing else on the
      schedule, so the next cycle tries again.
    - [handle_auto_blocking] (the schedule has a title) sets
      [auto_block_triggered] to false; a later cycle passes the schedule
      over, whatever the state of the system then is. *)
Theorem auto_block_failure_flags sites stamp now schedule e :
  truthy (s_auto_block_triggered schedule) = true ->
  truthy (s_auto_blocked schedule) = false ->
  is_admin (e_os e) = false
  \/ success (block_websites sites stamp (e_os e)).2 = false ->
  (exists s' e',
     missed_body sites stamp schedule e = (s', e', Return tt) /\
     s_auto_block_triggered s' = s_auto_block_triggered schedule /\
     truthy (s_auto_blocked s') = false /\
     set_flag AutoBlocked false s' = set_flag AutoBlocked false schedule /\
     e_blocking_active e' = e_blocking_active e /\
     blocked_schedules e' = blocked_schedules e)
  /\
  (is_Some (s_title schedule) ->
   exists s' e',
     handle_body sites stamp now schedule e = Return (s', e') /\
     s_auto_block_triggered s' = Some false /\
     e_blocking_active e' = e_blocking_active e /\
     blocked_schedules e' = blocked_schedules e /\
     forall sites' stamp' now' e'',
       handle_body sites' stamp' now' s' e'' = Return (s', e'')).
Proof.
  intros Ht Hb Hfail. split.
  - unfold missed_body, _check_admin_privileges. rewrite Ht, Hb. simpl.
    destruct (is_admin (e_os e)) eqn:Ha; simpl.
    + destruct Hfail as [?|Hfail]; [done|].
      destruct (block_websites sites stamp (e_os e)) as [w r]. simpl in Hfail.
      rewrite Hfail. eexists _, _. repeat split; done.
    + eexists _, _. repeat split; done.
  - intros [title Htitle].
    unfold handle_body at 1. unfold _check_admin_privileges.
    rewrite Ht, Hb. simpl.
    assert (Hlater : forall sites' stamp' now' e'',
      handle_body sites' stamp' now'
        (set_flag AutoBlockTriggered false schedule) e''
      = Return (set_flag AutoBlockTriggered false schedule, e'')).
    { intros. unfold handle_body. simpl. done. }
    destruct (truthy (s_started schedule)).
    { eexists _, _. repeat split; done. }
    destruct (is_admin (e_os e)) eqn:Ha; simpl.
    + destruct Hfail as [?|Hfail]; [done|].
      rewrite Htitle. simpl.
      destruct (block_websites sites stamp (e_os e)) as [w r]. simpl in Hfail.
      rewrite Hfail. eexists _, _. repeat split; done.
    + eexists _, _. repeat split; done.
Qed.

Lemma auto_block_failure_flags_witness :
  let schedule := set_flag AutoBlockTriggered true study in
  let e := {| e_os := unprivileged localhost_only; e_blocking_active := false;
              e_blocking_reason := None; blocked_schedules := [] |} in
  (exists s' e',
     missed_body default_blocked_sites "stamp" schedule e
       = (s', e', Return tt) /\
     s_auto_block_triggered s' = s_auto_block_triggered schedule /\
     truthy (s_auto_blocked s') = false /\
     set_flag AutoBlocked false s' = set_flag AutoBlocked false schedule /\
     e_blocking_active e' = e_blocking_active e /\
     blocked_schedules e' = blocked_schedules e)
  /\
  (is_Some (s_title schedule) ->
   exists s' e',
     handle_body default_blocked_sites "stamp" (at_minute 851) schedule e
       = Return (s', e') /\
     s_auto_block_triggered s' = Some false /\
     e_blocking_active e' = e_blocking_active e /\
     blocked_schedules e' = blocked_schedules e /\
     forall sites' stamp' now' e'',
       handle_body sites' stamp' now' s' e'' = Return (s', e'')).
Proof.
  intros schedule e.
  apply (auto_block_failure_flags default_blocked_sites "stamp"
           (at_minute 851) schedule e).
  - reflexivity.
  - reflexivity.
  - left. reflexivity.
Defined.

(** C6 does not hold of [handle_auto_blocking]: "Study" was flagged for
    auto-blocking, the dashboard runs without administrator rights, and
    the call leaves the schedule with [auto_block_triggered = False]; a
    second call, now with administrator rights, does not block. *)
Lemma handle_auto_blocking_gives_up :
  let st := session_with [set_flag AutoBlockTriggered true study] in
  let r1 := handle_auto_blocking default_blocked_sites "stamp"
              (at_minute 851) st (unprivileged localhost_only) in
  let r2 := handle_auto_blocking default_blocked_sites "stamp"
              (at_minute 852) r1.1.1 (privileged localhost_only) in
  s_auto_block_triggered <$> schedules st = [Some true] /\
  s_auto_block_triggered <$> schedules r1.1.1 = [Some false] /\
  schedules r1.1.1 <> schedules st /\
  s_auto_blocked <$> schedules r2.1.1 = [None] /\
  hosts r2.1.2 = localhost_only.
Proof. vm_compute. repeat split; try reflexivity. discriminate. Qed.

End Triggers.

Section Completion.
Import WebsiteBlocker Store Manager.

Lemma update_loop_at schedule_id kw l i s :
  Forall (fun s => is_Some (s_id s)) l ->
  l !! i = Some s ->
  s_id s = Some schedule_id ->
  (forall j s', (j < i)%nat -> l !! j = Some s' ->
                s_id s' <> Some schedule_id) ->
  update_loop schedule_id kw l = (<[i := dict_update kw s]> l, Return true).
Proof.
  intros Hids. revert i.
  induction Hids as [|x l [xi Hxi] _ IH]; intros i Hi Hs Hfirst; [done|].
  simpl. rewrite Hxi. simpl.
  destruct i as [|i]; simpl in *.
  - assert (x = s) as -> by congruence.
    assert (xi = schedule_id) as -> by congruence.
    by rewrite String.eqb_refl.
  - destruct (String.eqb_spec xi schedule_id) as [->|Hne].
    { exfalso. apply (Hfirst 0%nat x); [lia|done|done]. }
    rewrite (IH i); [done|done|done|].
    intros j s' Hj Hl. apply (Hfirst (S j) s'); [lia|done].
Qed.

(** The Complete button on a schedule that has both [auto_blocked]
    and [auto_block_triggered] set, in a store where every schedule has
    an id and no earlier one has the same id.  Clicking Complete marks
    the schedule completed, and
    - when blocking is active and [unblock_websites] succeeds, both flags
      of the schedule become false;
    - when blocking is not active or [unblock_websites] fails, both flags
      stay as they were. *)
Lemma complete_with_both_flags i st w schedule schedule_id :
  schedules st !! i = Some schedule ->
  Forall (fun s => is_Some (s_id s)) (schedules st) ->
  s_id schedule = Some schedule_id ->
  (forall j s', (j < i)%nat -> schedules st !! j = Some s' ->
                s_id s' <> Some schedule_id) ->
  truthy (s_auto_blocked schedule) = true ->
  truthy (s_auto_block_triggered schedule) = true ->
  exists s',
    schedules (click_complete i st w).1.1 !! i = Some s' /\
    s_completed s' = Some true /\
    (is_blocking_active w = true ->
     success (unblock_websites w).2 = true ->
     s_auto_block_triggered s' = Some false /\
     s_auto_blocked s' = Some false /\
     (click_complete i st w).2 = Return TaskCompletedUnblocked) /\
    (is_blocking_active w = false
     \/ success (unblock_websites w).2 = false ->
     s_auto_block_triggered s' = s_auto_block_triggered schedule /\
     s_auto_blocked s' = s_auto_blocked schedule).
Proof.
  intros Hi Hids Hid Hfirst Hb Ht.
  pose proof (lookup_lt_Some _ _ _ Hi) as Hlt.
  destruct (s_auto_blocked schedule) as [[]|] eqn:Eb; try done.
  destruct (s_auto_block_triggered schedule) as [[]|] eqn:Et; try done.
  unfold click_complete. rewrite Hi, Hid. simpl.
  unfold update_schedule.
  rewrite (update_loop_at schedule_id _ _ i schedule) by done.
  simpl. rewrite list_lookup_insert_eq by done. simpl. rewrite Eb. simpl.
  destruct (is_blocking_active w) eqn:Hact; simpl.
  - destruct (unblock_websites w) as [w' r] eqn:Hun. simpl.
    destruct (success r) eqn:Hok; simpl.
    + eexists. split.
      { rewrite list_lookup_fmap, list_lookup_insert_eq by done. reflexivity. }
      unfold clear_auto_block_flags. simpl. rewrite Et. simpl.
      split; [by destruct (s_completed schedule)|].
      split; [done|]. intros [?|?]; done.
    + eexists. split; [by rewrite list_lookup_insert_eq|].
      simpl. rewrite Eb, Et.
      split; [by destruct (s_completed schedule)|]. split; done.
  - eexists. split; [by rewrite list_lookup_insert_eq|].
    simpl. rewrite Eb, Et.
    split; [by destruct (s_completed schedule)|]. split; done.
Qed.

(** C7 fails on the way that the page itself offers: auto-block,
    Start, Complete.  At 14:10 the loop of [show_schedule_manager]
    auto-blocks for "Study" (14:00 to 15:00, not started): the section
    is written to the hosts file and the schedule gets [auto_blocked]
    and [auto_block_triggered].  The user clicks Start, which clears
    [auto_block_triggered] only, and later Complete.  Blocking is
    active and [unblock_websites] succeeds, the page reports "Task
    completed! Websites unblocked!" and the session's [blocking_active]
    is cleared; but the loop under "Clear auto-block flags for all
    schedules" resets a schedule only if its [auto_block_triggered] is
    still set, so the completed schedule keeps [auto_blocked] true. *)
Theorem complete_after_start_keeps_auto_blocked :
  let blocked :=
    Page.check_notifications default_blocked_sites "2025-01-01 14:10:00"
      (at_minute 850) study_session (privileged localhost_only) in
  let st1 := blocked.1.1 in
  let w1 := blocked.1.2 in
  let st2 := click_start (at_minute 851) 0 st1 in
  let completed := click_complete 0 st2 w1 in
  (s_auto_blocked <$> schedules st1 = [Some true] /\
   s_auto_block_triggered <$> schedules st1 = [Some true] /\
   blocking_active st1 = true /\
   is_blocking_active w1 = true) /\
  (s_started <$> schedules st2 = [Some true] /\
   s_auto_block_triggered <$> schedules st2 = [Some false] /\
   s_auto_blocked <$> schedules st2 = [Some true]) /\
  (completed.2 = Return TaskCompletedUnblocked /\
   is_blocking_active completed.1.2 = false /\
   blocking_active completed.1.1 = false /\
   s_completed <$> schedules completed.1.1 = [Some true] /\
   s_auto_block_triggered <$> schedules completed.1.1 = [Some false] /\
   s_auto_blocked <$> schedules completed.1.1 = [Some true]).
Proof. by vm_compute. Qed.

End Completion.

(** ** The display order of notifications *)

Section StableSort.
Import Manager.
Context {A : Type} (key : A -> nat).

Lemma insert_by_Permutation x l : insert_by key x l ≡ₚ x :: l.
Proof.
  induction l as [|y l IH]; simpl; [done|].
  destruct (key x <=? key y)%nat; [done|].
  rewrite IH. apply Permutation_swap.
Qed.

Lemma sorted_Permutation l : sorted key l ≡ₚ l.
Proof.
  induction l as [|x l IH]; simpl; [done|].
  rewrite insert_by_Permutation. by rewrite IH.
Qed.

(** An order [R] that refines the order of the keys. *)
Context (R : A -> A -> Prop).
Hypothesis R_lt : forall a b, (key a < key b)%nat -> R a b.
Hypothesis R_key : forall a b, R a b -> (key a <= key b)%nat.

Lemma insert_by_StronglySorted x l :
  Forall (fun y => (key x <= key y)%nat -> R x y) l ->
  StronglySorted R l ->
  StronglySorted R (insert_by key x l).
Proof.
  intros Hx Hl. induction Hl as [|y l Hl IH Hy]; simpl.
  - repeat constructor.
  - apply Forall_cons in Hx as [Hxy Hx].
    destruct (Nat.leb_spec (key x) (key y)) as [Hle|Hgt].
    + constructor; [by constructor|]. constructor; [by apply Hxy|].
      rewrite Forall_forall in Hx, Hy. apply Forall_forall.
      intros z Hz. apply Hx; [done|]. specialize (R_key _ _ (Hy z Hz)). lia.
    + constructor; [by apply IH|].
      rewrite insert_by_Permutation. constructor; [by apply R_lt|done].
Qed.

Lemma sorted_StronglySorted l :
  StronglySorted (fun a b => (key a <= key b)%nat -> R a b) l ->
  StronglySorted R (sorted key l).
Proof.
  induction 1 as [|x l Hl IH Hx]; simpl; [constructor|].
  apply insert_by_StronglySorted; [|done].
  by rewrite sorted_Permutation.
Qed.

(** Stability: the elements of one key keep their order. *)
Lemma insert_by_filter r x l :
  filter (fun a => key a = r) (insert_by key x l)
  = filter (fun a => key a = r) (x :: l).
Proof.
  induction l as [|y l IH]; simpl; [done|].
  destruct (Nat.leb_spec (key x) (key y)) as [Hle|Hgt]; [done|].
  rewrite (filter_cons _ y), IH, !filter_cons.
  destruct (decide (key y = r)), (decide (key x = r)); try done. lia.
Qed.

Lemma sorted_filter r l :
  filter (fun a => key a = r) (sorted key l)
  = filter (fun a => key a = r) l.
Proof.
  induction l as [|x l IH]; simpl; [done|].
  by rewrite insert_by_filter, !filter_cons, IH.
Qed.

(** Sortedness and stability fix the result of a sort: two lists in
    key order with the same elements of every key, in the same order, are
    equal. *)
Lemma stable_sort_unique (l1 l2 : list A) :
  StronglySorted (fun a b => (key a <= key b)%nat) l1 ->
  StronglySorted (fun a b => (key a <= key b)%nat) l2 ->
  (forall r, filter (fun a => key a = r) l1 = filter (fun a => key a = r) l2) ->
  l1 = l2.
Proof.
  intros H1. revert l2. induction H1 as [|x l1 H1 IH Hx]; intros l2 H2 Hf.
  - destruct l2 as [|y l2]; [done|].
    specialize (Hf (key y)). rewrite filter_cons, decide_True in Hf by done.
    done.
  - destruct H2 as [|y l2 H2 Hy].
    { specialize (Hf (key x)). rewrite filter_cons, decide_True in Hf by done.
      done. }
    assert (Hxy : key x = key y).
    { pose proof (Hf (key x)) as Hfx. pose proof (Hf (key y)) as Hfy.
      rewrite !filter_cons in Hfx, Hfy.
      rewrite decide_True in Hfx by done.
      rewrite (decide_True (P := key y = key y)) in Hfy by done.
      destruct (decide (key y = key x)) as [|Hne]; [done|].
      destruct (decide (key x = key y)) as [|_]; [done|].
      assert (x ∈ filter (fun a => key a = key x) l2) as Hin
        by (rewrite <- Hfx; left).
      assert (y ∈ filter (fun a => key a = key y) l1) as Hin'
        by (rewrite Hfy; left).
      apply list_elem_of_filter in Hin as [_ Hin].
      apply list_elem_of_filter in Hin' as [_ Hin'].
      rewrite Forall_forall in Hx, Hy.
      specialize (Hx _ Hin'). specialize (Hy _ Hin). lia. }
    assert (x = y) as ->.
    { specialize (Hf (key x)). rewrite !filter_cons in Hf.
      rewrite decide_True in Hf by done.
      rewrite decide_True in Hf by done. by simplify_eq. }
    f_equal. apply IH; [done|]. intros r. specialize (Hf r).
    rewrite !filter_cons in Hf. destruct (decide (key y = r)); by simplify_eq.
Qed.

End StableSort.

Section DisplayOrder.
Import Store Manager.

Lemma StronglySorted_weaken {A} (R1 R2 : A -> A -> Prop) l :
  (forall a b, R1 a b -> R2 a b) ->
  StronglySorted R1 l -> StronglySorted R2 l.
Proof.
  intros HR. induction 1 as [|x l _ IH Hx]; constructor; [done|].
  eapply Forall_impl; [exact Hx|]. intros; by apply HR.
Qed.

Lemma StronglySorted_total {A} (R : A -> A -> Prop) l :
  (forall a b, R a b) -> StronglySorted R l.
Proof.
  intros HR. induction l; constructor; [done|].
  apply Forall_forall. intros; apply HR.
Qed.

Lemma StronglySorted_filter_list {A} (R : A -> A -> Prop) (P : A -> Prop)
    `{!forall x, Decision (P x)} l :
  StronglySorted R l -> StronglySorted R (filter P l).
Proof.
  induction 1 as [|x l _ IH Hx]; [constructor|].
  rewrite filter_cons. destruct (decide (P x)); [|done].
  constructor; [done|]. apply Forall_forall. intros y Hy.
  apply list_elem_of_filter in Hy as [_ Hy].
  rewrite Forall_forall in Hx. by apply Hx.
Qed.

(** So [sorted] is the stable sort: it returns the one list that is in
    key order and keeps the elements of every key in their order. *)
Lemma sorted_is_the_stable_sort {A} (key : A -> nat) l l' :
  StronglySorted (fun a b => (key a <= key b)%nat) l' ->
  (forall r, filter (fun a => key a = r) l'
             = filter (fun a => key a = r) l) ->
  l' = sorted key l.
Proof.
  intros Hsorted Hstable. apply (stable_sort_unique key); [done| |].
  - apply sorted_StronglySorted; [lia|lia|].
    by apply StronglySorted_total.
  - intros r. by rewrite sorted_filter.
Qed.

Lemma sort_key_of_type n type rank :
  n_type n = Some type -> type_priority !! type = Some rank ->
  sort_key n = rank.
Proof. intros Ht Hr. unfold sort_key. by rewrite Ht; simpl; rewrite Hr. Qed.

(** C8, as the code has it.  The notifications shown are the unread ones,
    stably sorted by the rank of their type: critical 0, warning 1,
    late 2, start 3, soon 4, upcoming 5 (also when the type is missing),
    any other type 99.  The result is a rearrangement of the unread
    notifications in non-decreasing rank; notifications of one rank keep
    the order they have in the notification list, and no timestamp is
    looked at.  When the notification list is in order of creation, the
    display is therefore ordered by rank and then oldest first.  Types
    [upcoming, critical, soon] come out as [critical, soon, upcoming]. *)
Theorem display_order st :
  sorted_notifs st ≡ₚ get_unread_notifications st /\
  StronglySorted by_rank (sorted_notifs st) /\
  (forall r, filter (fun n => sort_key n = r) (sorted_notifs st)
             = filter (fun n => sort_key n = r) (get_unread_notifications st)) /\
  (StronglySorted oldest_first (notifications st) ->
   StronglySorted by_rank_then_age (sorted_notifs st)) /\
  (forall n,
     (n_type n = Some "critical"%string -> sort_key n = 0%nat) /\
     (n_type n = Some "warning"%string -> sort_key n = 1%nat) /\
     (n_type n = Some "late"%string -> sort_key n = 2%nat) /\
     (n_type n = Some "start"%string -> sort_key n = 3%nat) /\
     (n_type n = Some "soon"%string -> sort_key n = 4%nat) /\
     (n_type n = Some "upcoming"%string -> sort_key n = 5%nat) /\
     (n_type n = None -> sort_key n = 5%nat)) /\
  sorted_notifs
    (session_showing [note "upcoming" 1; note "critical" 2; note "soon" 3])
  = [note "critical" 2; note "soon" 3; note "upcoming" 1].
Proof.
  unfold sorted_notifs. split; [apply sorted_Permutation|].
  split.
  { apply sorted_StronglySorted.
    - unfold by_rank; lia.
    - unfold by_rank; lia.
    - by apply StronglySorted_total. }
  split; [intros r; apply sorted_filter|].
  split.
  { intros Hage. apply sorted_StronglySorted.
    - unfold by_rank_then_age; lia.
    - unfold by_rank_then_age; lia.
    - unfold get_unread_notifications.
      apply StronglySorted_filter_list.
      eapply StronglySorted_weaken; [|exact Hage].
      unfold oldest_first, by_rank_then_age. intros; lia. }
  split; [|by vm_compute].
  intros n.
  repeat split; intros Ht;
    try (by apply (sort_key_of_type n _ _ Ht); vm_compute).
  unfold sort_key. rewrite Ht. by vm_compute.
Qed.

(** C8 does not hold as stated: two unread notifications of type start,
    the one created at 200 standing before the one created at 100 in the
    notification list, are shown in that order, the newer one first; and a
    warning is shown before an older notification of type late. *)
Lemma display_ties_keep_list_order :
  sort_key (note "start" 200) = sort_key (note "start" 100) /\
  n_timestamp (note "start" 100) < n_timestamp (note "start" 200) /\
  sorted_notifs (session_showing [note "start" 200; note "start" 100])
  = [note "start" 200; note "start" 100] /\
  sorted_notifs (session_showing [note "late" 100; note "warning" 200])
  = [note "warning" 200; note "late" 100].
Proof. by vm_compute. Qed.

End DisplayOrder.

(** ** Loops over the store *)

Section Loops.
Context {E : Type} (body : Schedule -> E -> Schedule * E * outcome unit).

Lemma for_each_app pre post e :
  for_each body (pre ++ post) e
  = match for_each body pre e with
    | (pre', e', Return _) =>
        let '(post', e'', o) := for_each body post e' in
        (pre' ++ post', e'', o)
    | (pre', e', Raise x) => (pre' ++ post, e', Raise x)
    end.
Proof.
  revert e. induction pre as [|s pre IH]; intros e; simpl.
  - by destruct (for_each body post e) as [[??]?].
  - destruct (body s e) as [[s' e'] [[]|x]]; [|done].
    rewrite IH. destruct (for_each body pre e') as [[pre' e''] [[]|x]].
    + by destruct (for_each body post e'') as [[??]?].
    + done.
Qed.

Lemma for_each_length todo e :
  length (schedules_after body todo e) = length todo.
Proof.
  unfold schedules_after. revert e.
  induction todo as [|s todo IH]; intros e; simpl; [done|].
  destruct (body s e) as [[s' e'] [[]|x]]; [|done].
  specialize (IH e'). destruct (for_each body todo e') as [[??]?].
  simpl in *. by rewrite IH.
Qed.

(** A property of the environment that every step keeps holds at the
    end, whether the loop finishes or raises. *)
Lemma for_each_invariant (P : E -> Prop) todo e :
  P e ->
  (forall s e, s ∈ todo -> P e -> P (body s e).1.2) ->
  P (env_after body todo e).
Proof.
  unfold env_after. revert e.
  induction todo as [|s todo IH]; intros e He Hstep; simpl; [done|].
  pose proof (Hstep s e ltac:(left) He) as Hs.
  destruct (body s e) as [[s' e'] [[]|x]]; simpl in *; [|done].
  specialize (IH e' Hs). destruct (for_each body todo e') as [[??]?].
  simpl in *. apply IH. intros ? ? Hin. apply Hstep. by right.
Qed.

(** The loop finishes when no step raises. *)
Lemma for_each_returns todo e :
  (forall s e, s ∈ todo -> (body s e).2 = Return tt) ->
  outcome_of body todo e = Return tt.
Proof.
  unfold outcome_of. revert e.
  induction todo as [|s todo IH]; intros e Hstep; simpl; [done|].
  pose proof (Hstep s e ltac:(left)) as Hs.
  destruct (body s e) as [[s' e'] o]; simpl in *; subst.
  specialize (IH e'). destruct (for_each body todo e') as [[??]?].
  simpl in *. apply IH. intros ? ? Hin. apply Hstep. by right.
Qed.

End Loops.

(** ** What one visit of an evaluator does *)

Section Visits.
Import Clock.

Lemma enhanced_visit now today s k s' k' :
  Enhanced.body now today s k = Return (s', k') ->
  (s' = s /\ k' = k)
  \/ exists d t sid title prefix type n,
       s_date s = Some d /\ d = today /\ s_start_time s = Some t /\
       s_id s = Some sid /\ s_title s = Some title /\
       truthy (s_completed s) = false /\
       enhanced_fires (combine d t - now) (truthy (s_started s))
         prefix type /\
       has_notification (prefix +:+ sid) k.1 = false /\
       n_id n = prefix +:+ sid /\ n_schedule_id n = sid /\
       n_type n = Some type /\ n_timestamp n = now /\
       k' = emit n k /\
       s' = (if String.eqb prefix "auto_block_"
             then set_stamp AutoBlockTime now
                    (set_flag AutoBlockTriggered true s)
             else s).
Proof.
  unfold Enhanced.body. intros H.
  destruct (truthy (s_completed s)) eqn:Hc; [left; by simplify_eq|].
  destruct (s_date s) as [d|] eqn:Hd; simpl in H; [|done].
  destruct (d =? today) eqn:Hdt; simpl in H; [|left; by simplify_eq].
  destruct (s_start_time s) as [t|] eqn:Ht; simpl in H; [|done].
  destruct (s_id s) as [sid|] eqn:Hi; simpl in H; [|done].
  apply Z.eqb_eq in Hdt.
  repeat match type of H with
  | (if ?c then _ else _) = _ =>
      let Hb := fresh "Hb" in destruct c eqn:Hb
  end;
  try (left; by simplify_eq);
  (destruct (s_title s) as [title|] eqn:Htt; simpl in H; [|done]);
  match type of H with
  | Return (_, emit (new_notification (?p +:+ _) ?a ?b ?ty ?c ?e ?f ?g ?h ?i)
                 _) = _ =>
      injection H as <- <-; right; boolean_tests;
      exists d, t, sid, title, p, ty,
        (new_notification (p +:+ sid) a b ty c e f g h i);
      repeat (split; [first [done | reflexivity
                             | unfold enhanced_fires; tauto]|]);
      done
  end.
Qed.

Lemma page_visit sites stamp now today s e s' e' :
  Page.body sites stamp now today s e = Return (s', e') ->
  (s' = s /\ e' = e)
  \/ exists d t sid title prefix type n,
       s_date s = Some d /\ d = today /\ s_start_time s = Some t /\
       s_id s = Some sid /\ s_title s = Some title /\
       truthy (s_completed s) = false /\
       page_fires (combine d t - now) (truthy (s_started s))
         (truthy (s_auto_block_triggered s)) prefix type /\
       has_notification (prefix +:+ sid) (Page.e_sink e).1 = false /\
       n_id n = prefix +:+ sid /\ n_schedule_id n = sid /\
       n_type n = Some type /\ n_timestamp n = now /\
       Page.e_sink e' = emit n (Page.e_sink e) /\
       (if String.eqb prefix "auto_block_"
        then s_auto_block_triggered s' = Some true
        else s' = s /\ e' = Page.with_sink (Page.e_sink e') e).
Proof.
  unfold Page.body. intros H.
  destruct (truthy (s_completed s)) eqn:Hc; [left; by simplify_eq|].
  destruct (s_date s) as [d|] eqn:Hd; simpl in H; [|done].
  destruct (d =? today) eqn:Hdt; simpl in H; [|left; by simplify_eq].
  destruct (s_start_time s) as [t|] eqn:Ht; simpl in H; [|done].
  destruct (s_id s) as [sid|] eqn:Hi; simpl in H; [|done].
  apply Z.eqb_eq in Hdt.
  repeat match type of H with
  | (if ?c then _ else _) = _ =>
      let Hb := fresh "Hb" in destruct c eqn:Hb
  end;
  try (left; by simplify_eq);
  (destruct (s_title s) as [title|] eqn:Htt; simpl in H; [|done]);
  try (destruct (WebsiteBlocker._check_admin_privileges (Page.e_os e));
       [destruct (WebsiteBlocker.block_websites sites stamp (Page.e_os e))
          as [w r]; destruct (WebsiteBlocker.success r)|]);
  match type of H with
  | context [emit (new_notification (?p +:+ _) ?a ?b ?ty ?c ?x ?f ?g ?h ?i)
               _] =>
      injection H as <- <-; right; boolean_tests;
      exists d, t, sid, title, p, ty,
        (new_notification (p +:+ sid) a b ty c x f g h i);
      repeat (split; [first [done | reflexivity
                             | unfold page_fires; tauto]|]);
      done
  end.
Qed.

(** In [check_schedule_notifications_enhanced] every notification but
    the "missed" one is guarded by the test on its id. *)
Lemma config_visit now today s k s' k' :
  Config.body now today s k = Return (s', k') ->
  k' = k
  \/ exists n,
       k' = emit n k /\
       (has_notification (n_id n) k.1 = false
        \/ exists sid, n_id n = "missed_" +:+ sid).
Proof.
  unfold Config.body. intros H.
  destruct (s_completed s) as [[]|]; simpl in H; [left; by simplify_eq| |done].
  destruct (s_date s) as [d|] eqn:Hd; simpl in H; [|done].
  destruct (d =? today) eqn:Hdt; simpl in H; [|left; by simplify_eq].
  destruct (s_start_time s) as [t|] eqn:Ht; simpl in H; [|done].
  repeat match type of H with
  | (if ?c then _ else _) = _ =>
      let Hb := fresh "Hb" in destruct c eqn:Hb
  | mbind _ (item _ ?o) = _ =>
      let v := fresh "v" in destruct o as [v|]; simpl in H; [|done]
  end;
  try (left; by simplify_eq);
  injection H as <- <-; right; boolean_tests; eexists; (split; [reflexivity|]);
  simpl; eauto.
Qed.

(** The state after the loop of the page. *)
Lemma page_check sites stamp now st w :
  schedules (Page.check_notifications sites stamp now st w).1.1
  = schedules_after (Page.visit sites stamp now) (schedules st)
      (page_env st w) /\
  notifications (Page.check_notifications sites stamp now st w).1.1
  = (Page.e_sink
       (env_after (Page.visit sites stamp now) (schedules st)
          (page_env st w))).1.
Proof.
  unfold Page.check_notifications, Page.scan, schedules_after, env_after,
    page_env.
  by destruct (for_each _ _ _) as [[scheds e] o].
Qed.

End Visits.

(** ** Idempotent emission *)

Section Idempotence.

Lemma appended_app (before app : list Notification) :
  appended before (before ++ app) = app.
Proof. unfold appended. by rewrite drop_app_length. Qed.

Lemma appended_same (before : list Notification) : appended before before = [].
Proof. unfold appended. by rewrite drop_all. Qed.

Lemma count_id_app x a b :
  count_id x (a ++ b) = (count_id x a + count_id x b)%nat.
Proof. unfold count_id. by rewrite filter_app, length_app. Qed.

Lemma count_id_cons x n l :
  count_id x (n :: l)
  = ((if decide (n_id n = x) then 1 else 0) + count_id x l)%nat.
Proof. unfold count_id. rewrite filter_cons. by destruct (decide _). Qed.

Lemma has_notification_count x ns :
  has_notification x ns = false <-> count_id x ns = 0%nat.
Proof.
  unfold has_notification. induction ns as [|n ns IH]; simpl; [done|].
  rewrite count_id_cons, orb_false_iff, IH.
  destruct (String.eqb_spec (n_id n) x), (decide (n_id n = x));
    try done; split; try lia; intros []; try done; lia.
Qed.

(** An appended notification whose id was absent adds no second one. *)
Lemma count_id_emit x n (k : sink) bound :
  has_notification (n_id n) k.1 = false ->
  (count_id x k.1 <= Nat.max 1 bound)%nat ->
  (count_id x (emit n k).1 <= Nat.max 1 bound)%nat.
Proof.
  intros Hn Hk. unfold emit. simpl. rewrite count_id_app, count_id_cons.
  apply has_notification_count in Hn.
  destruct (decide (n_id n = x)) as [<-|]; unfold count_id at 2; simpl; lia.
Qed.

Lemma count_id_emit_other x n (k : sink) :
  n_id n <> x -> count_id x (emit n k).1 = count_id x k.1.
Proof.
  intros Hn. unfold emit. simpl. rewrite count_id_app, count_id_cons.
  rewrite decide_False by done. unfold count_id at 2. simpl. lia.
Qed.

Lemma enhanced_pass_count x now st bound :
  (count_id x (notifications st) <= Nat.max 1 bound)%nat ->
  (count_id x
     (notifications (Enhanced.check_enhanced_schedule_notifications now st).1)
   <= Nat.max 1 bound)%nat.
Proof.
  intros Hst. unfold Enhanced.check_enhanced_schedule_notifications.
  destruct (_ <? 30); [done|].
  pose proof (for_each_invariant
    (Enhanced.visit now)
    (fun k : sink => (count_id x k.1 <= Nat.max 1 bound)%nat)
    (schedules st) (notifications st, [])) as Hinv.
  unfold env_after, Enhanced.scan in *.
  destruct (for_each _ _ _) as [[scheds k] o]. simpl in *.
  apply Hinv; [done|]. clear. intros s k _ Hk.
  unfold Enhanced.visit.
  destruct (Enhanced.body now (Clock.date_of now) s k) as [[s' k']|]
    eqn:Hbody; simpl; [|done].
  apply enhanced_visit in Hbody
    as [[_ ->]|(d & t & sid & title & prefix & type & n & Hv)]; [done|].
  destruct Hv as (_&_&_&_&_&_&_&Hnew&Hid&_&_&_&->&_).
  apply count_id_emit; [|done]. by rewrite Hid.
Qed.

Lemma missed_prefix_differs prefix sid sid' :
  prefix ∈ config_guarded_prefixes ->
  "missed_" +:+ sid' <> prefix +:+ sid.
Proof.
  unfold config_guarded_prefixes. rewrite !elem_of_cons, elem_of_nil.
  intros [->|[->|[->|[]]]]; discriminate.
Qed.

Lemma config_pass_count prefix sid now st bound :
  prefix ∈ config_guarded_prefixes ->
  (count_id (prefix +:+ sid) (notifications st) <= Nat.max 1 bound)%nat ->
  (count_id (prefix +:+ sid)
     (notifications (Config.check_schedule_notifications_enhanced now st).1)
   <= Nat.max 1 bound)%nat.
Proof.
  intros Hp Hst. unfold Config.check_schedule_notifications_enhanced.
  destruct (last_notification_check st); [|done].
  destruct (_ <? 60); [done|].
  pose proof (for_each_invariant
    (Config.visit now)
    (fun k : sink =>
       (count_id (prefix +:+ sid) k.1 <= Nat.max 1 bound)%nat)
    (schedules st) (notifications st, [])) as Hinv.
  unfold env_after, Config.scan in *.
  destruct (for_each _ _ _) as [[scheds k] o]. simpl in *.
  apply Hinv; [done|]. clear -Hp. intros s k _ Hk.
  unfold Config.visit.
  destruct (Config.body now (Clock.date_of now) s k) as [[s' k']|]
    eqn:Hbody; simpl; [|done].
  apply config_visit in Hbody as [->|(n & -> & [Hnew|[sid' Hm]])]; [done| |].
  - by apply count_id_emit.
  - rewrite count_id_emit_other; [done|].
    rewrite Hm. by apply missed_prefix_differs.
Qed.

Lemma page_pass_count x sites stamp now st w bound :
  (count_id x (notifications st) <= Nat.max 1 bound)%nat ->
  (count_id x
     (notifications (Page.check_notifications sites stamp now st w).1.1)
   <= Nat.max 1 bound)%nat.
Proof.
  intros Hst. destruct (page_check sites stamp now st w) as [_ ->].
  apply (for_each_invariant (Page.visit sites stamp now)
           (fun e : Page.env =>
              (count_id x (Page.e_sink e).1 <= Nat.max 1 bound)%nat));
    [done|].
  intros s e _ He. unfold Page.visit.
  destruct (Page.body sites stamp now (Clock.date_of now) s e) as [[s' e']|]
    eqn:Hbody; simpl; [|done].
  apply page_visit in Hbody
    as [[_ ->]|(d & t & sid & title & prefix & type & n & Hv)]; [done|].
  destruct Hv as (_&_&_&_&_&_&_&Hnew&Hid&_&_&_&->&_).
  apply count_id_emit; [|done]. by rewrite Hid.
Qed.

Lemma page_run_count x sites stamp nows st w bound :
  (count_id x (notifications st) <= Nat.max 1 bound)%nat ->
  (count_id x (notifications (page_run sites stamp nows st w).1)
   <= Nat.max 1 bound)%nat.
Proof.
  unfold page_run. revert st w.
  induction nows as [|now nows IH]; intros st w Hst; simpl; [done|].
  destruct (Page.check_notifications sites stamp now st w) as [[st' w'] o]
    eqn:Hpass. simpl.
  apply IH.
  pose proof (page_pass_count x sites stamp now st w bound Hst) as H.
  by rewrite Hpass in H.
Qed.

Lemma enhanced_run_count x nows st bound :
  (count_id x (notifications st) <= Nat.max 1 bound)%nat ->
  (count_id x (notifications (enhanced_run nows st)) <= Nat.max 1 bound)%nat.
Proof.
  unfold enhanced_run. revert st.
  induction nows as [|now nows IH]; intros st Hst; simpl; [done|].
  apply IH. by apply enhanced_pass_count.
Qed.

Lemma config_run_count prefix sid nows st bound :
  prefix ∈ config_guarded_prefixes ->
  (count_id (prefix +:+ sid) (notifications st) <= Nat.max 1 bound)%nat ->
  (count_id (prefix +:+ sid) (notifications (config_run nows st))
   <= Nat.max 1 bound)%nat.
Proof.
  intros Hp. unfold config_run. revert st.
  induction nows as [|now nows IH]; intros st Hst; simpl; [done|].
  apply IH. by apply config_pass_count.
Qed.

(** The "missed" notification of
    [check_schedule_notifications_enhanced] is guarded by the flag that
    its emission sets. *)
Lemma config_missed_sets_flag now today s k s' k' n :
  Config.body now today s k = Return (s', k') ->
  n ∈ appended k.1 k'.1 -> n_type n = Some "missed"%string ->
  truthy (s_missed_notified s') = true.
Proof.
  unfold Config.body. intros H.
  destruct (s_completed s) as [[]|]; simpl in H;
    [injection H as <- <-; rewrite appended_same; by intros ?%elem_of_nil
    | |done].
  destruct (s_date s) as [d|]; simpl in H; [|done].
  destruct (negb (d =? today)); simpl in H;
    [injection H as <- <-; rewrite appended_same; by intros ?%elem_of_nil|].
  destruct (s_start_time s) as [t|]; simpl in H; [|done].
  repeat match type of H with
  | (if ?c then _ else _) = _ => destruct c
  | mbind _ (item _ ?o) = _ => destruct o; simpl in H; [|done]
  end;
  injection H as <- <-; unfold emit; simpl;
  rewrite ?appended_same, ?appended_app;
  intros Hn; try (by apply elem_of_nil in Hn);
  apply list_elem_of_singleton in Hn as ->; simpl; done.
Qed.

Lemma config_missed_flag_guards now today s k n :
  truthy (s_missed_notified s) = true ->
  n ∈ emitted_by (Config.body now today s k) ->
  n ∈ k.2 \/ n_type n <> Some "missed"%string.
Proof.
  unfold Config.body. intros Hflag.
  destruct (s_completed s) as [[]|]; simpl; [by left| |by intros ?%elem_of_nil].
  destruct (s_date s) as [d|]; simpl; [|by intros ?%elem_of_nil].
  destruct (negb (d =? today)); simpl; [by left|].
  destruct (s_start_time s) as [t|]; simpl; [|by intros ?%elem_of_nil].
  rewrite Hflag. simpl.
  repeat match goal with
  | |- _ ∈ emitted_by (if ?c then _ else _) -> _ => destruct c; simpl
  | |- _ ∈ emitted_by (mbind _ (item _ ?o)) -> _ => destruct o; simpl
  end;
  try (by left); try (by intros ?%elem_of_nil);
  unfold emit; simpl; intros [?|Hn]%elem_of_app; try (by left);
  apply list_elem_of_singleton in Hn as ->; by right.
Qed.

(** C2: however often and at whatever clock readings
    [check_enhanced_schedule_notifications] is invoked, no notification
    id comes to stand in the notification list more than once, unless it
    did before: the number of notifications with a given id never
    exceeds the larger of 1 and what it was at the start.  So it is in
    the loop of [show_schedule_manager], and in
    [check_schedule_notifications_enhanced] for the ids of its
    10-minute, 5-minute and start notifications, which are guarded by
    the test on the id.  Its "missed" notification is guarded by the
    flag [missed_notified] instead: once a visit of a schedule has
    emitted it, no later visit of that schedule emits it again. *)
Theorem emission_is_idempotent nows st x prefix sid sites stamp w
    s now1 k1 s1 k1' n1 now2 ns n2 :
  (count_id x (notifications (enhanced_run nows st))
   <= Nat.max 1 (count_id x (notifications st)))%nat /\
  (count_id x (notifications (page_run sites stamp nows st w).1)
   <= Nat.max 1 (count_id x (notifications st)))%nat /\
  (prefix ∈ config_guarded_prefixes ->
   (count_id (prefix +:+ sid) (notifications (config_run nows st))
    <= Nat.max 1 (count_id (prefix +:+ sid) (notifications st)))%nat) /\
  (Config.body now1 (Clock.date_of now1) s k1 = Return (s1, k1') ->
   n1 ∈ appended k1.1 k1'.1 -> n_type n1 = Some "missed"%string ->
   n2 ∈ emitted_by (Config.body now2 (Clock.date_of now2) s1 (ns, [])) ->
   n_type n2 <> Some "missed"%string).
Proof.
  split; [|split; [|split]].
  - apply enhanced_run_count. lia.
  - apply page_run_count. lia.
  - intros Hp. apply config_run_count; [done|lia].
  - intros Hbody Hn1 Hty Hn2.
    pose proof (config_missed_sets_flag _ _ _ _ _ _ _ Hbody Hn1 Hty) as Hflag.
    destruct (config_missed_flag_guards _ _ _ _ _ Hflag Hn2) as [Hin|?];
      [|done].
    by apply elem_of_nil in Hin.
Qed.

End Idempotence.

(** ** A started schedule gets no "missed" notification *)

Section Started.
Import Clock.

Lemma service_visit now today s v s' v' :
  Service.body now today s v = Return (s', v') ->
  s' = s /\
  (v' = v
   \/ exists sid type,
        s_id s = Some sid /\ truthy (s_started s) = false /\
        Service.sent v' = Service.sent v ++ [(sid, type)]).
Proof.
  unfold Service.body, Service.notify_once. intros H.
  destruct (truthy (s_completed s)); [by simplify_eq; auto|].
  destruct (truthy (s_started s)) eqn:Hs; [by simplify_eq; auto|].
  destruct (s_date s) as [d|]; simpl in H; [|done].
  destruct (d =? today); simpl in H; [|by simplify_eq; auto].
  destruct (s_id s) as [sid|]; simpl in H; [|done].
  destruct (s_start_time s) as [t|]; simpl in H; [|done].
  repeat match type of H with
  | (if ?c then _ else _) = _ => destruct c
  | match ?o with Some _ => _ | None => _ end = _ => destruct o
  end;
  try (by simplify_eq; auto);
  (destruct (s_title s); simpl in H; [|done]);
  injection H as <- <-; (split; [done|]); right; by eexists _, _.
Qed.

Lemma enhanced_fires_started td prefix type :
  enhanced_fires td true prefix type ->
  type = "10min_warning"%string \/ type = "5min_warning"%string.
Proof. unfold enhanced_fires. intros H. decompose [and or] H; auto; done. Qed.

Lemma page_fires_started td triggered prefix type :
  page_fires td true triggered prefix type ->
  type = "upcoming"%string \/ type = "soon"%string.
Proof. unfold page_fires. intros H. decompose [and or] H; auto; done. Qed.

Lemma enhanced_pass_started now st sid (allowed : Notification -> Prop) :
  (forall s, s ∈ schedules st -> s_id s = Some sid ->
             truthy (s_started s) = true) ->
  (forall n, n_type n = Some "10min_warning"%string
             \/ n_type n = Some "5min_warning"%string -> allowed n) ->
  forall n,
    n ∈ appended (notifications st)
          (notifications
             (Enhanced.check_enhanced_schedule_notifications now st).1) ->
    n_schedule_id n = sid -> allowed n.
Proof.
  intros Hst Hallowed. unfold Enhanced.check_enhanced_schedule_notifications.
  destruct (_ <? 30); simpl.
  { rewrite appended_same. by intros n ?%elem_of_nil. }
  pose proof (for_each_invariant
    (Enhanced.visit now)
    (fun k : sink => exists app, k.1 = notifications st ++ app /\
       forall n, n ∈ app -> n_schedule_id n = sid -> allowed n)
    (schedules st) (notifications st, [])) as Hinv.
  unfold env_after, Enhanced.scan in *.
  destruct (for_each _ _ _) as [[scheds k] o]. simpl in *.
  destruct Hinv as (app & -> & Happ).
  - exists []. split; [by rewrite app_nil_r|]. by intros n ?%elem_of_nil.
  - intros s k0 Hin (app & Hk & Happ).
    unfold Enhanced.visit.
    destruct (Enhanced.body now (date_of now) s k0) as [[s' k']|]
      eqn:Hbody; simpl; [|by eauto].
    apply enhanced_visit in Hbody
      as [[_ ->]|(d & t & i & title & prefix & type & n & Hv)]; [by eauto|].
    destruct Hv as (_&_&_&Hi&_&_&Hfires&_&_&Hn&Hty&_&->&_).
    exists (app ++ [n]). simpl. rewrite Hk, <- app_assoc. split; [done|].
    intros n' [Hn'|Hn']%elem_of_app Hsid; [by apply Happ|].
    apply list_elem_of_singleton in Hn' as ->. apply Hallowed.
    rewrite Hty. rewrite Hn in Hsid. subst i.
    rewrite Hsid in Hi. rewrite (Hst s Hin Hi) in Hfires.
    apply enhanced_fires_started in Hfires as [->| ->]; auto.
  - by rewrite appended_app.
Qed.

Lemma page_pass_started sites stamp now st w sid
    (allowed : Notification -> Prop) :
  (forall s, s ∈ schedules st -> s_id s = Some sid ->
             truthy (s_started s) = true) ->
  (forall n, n_type n = Some "upcoming"%string
             \/ n_type n = Some "soon"%string -> allowed n) ->
  forall n,
    n ∈ appended (notifications st)
          (notifications
             (Page.check_notifications sites stamp now st w).1.1) ->
    n_schedule_id n = sid -> allowed n.
Proof.
  intros Hst Hallowed. unfold Page.check_notifications.
  pose proof (for_each_invariant
    (Page.visit sites stamp now)
    (fun e : Page.env =>
       exists app, (Page.e_sink e).1 = notifications st ++ app /\
       forall n, n ∈ app -> n_schedule_id n = sid -> allowed n)
    (schedules st)
    {| Page.e_sink := (notifications st, []); Page.e_os := w;
       Page.e_blocking_active := blocking_active st;
       Page.e_blocking_reason := blocking_reason st |}) as Hinv.
  unfold env_after, Page.scan in *.
  destruct (for_each _ _ _) as [[scheds e] o]. simpl in *.
  destruct Hinv as (app & -> & Happ).
  - exists []. split; [by rewrite app_nil_r|]. by intros n ?%elem_of_nil.
  - intros s e0 Hin (app & Hk & Happ).
    unfold Page.visit.
    destruct (Page.body sites stamp now (date_of now) s e0) as [[s' e']|]
      eqn:Hbody; simpl; [|by eauto].
    apply page_visit in Hbody
      as [[_ ->]|(d & t & i & title & prefix & type & n & Hv)]; [by eauto|].
    destruct Hv as (_&_&_&Hi&_&_&Hfires&_&_&Hn&Hty&_&Hsink&_).
    exists (app ++ [n]). rewrite Hsink. simpl.
    rewrite Hk, <- app_assoc. split; [done|].
    intros n' [Hn'|Hn']%elem_of_app Hsid; [by apply Happ|].
    apply list_elem_of_singleton in Hn' as ->. apply Hallowed.
    rewrite Hty. rewrite Hn in Hsid. subst i.
    rewrite Hsid in Hi. rewrite (Hst s Hin Hi) in Hfires.
    apply page_fires_started in Hfires as [->| ->]; auto.
  - by rewrite appended_app.
Qed.

Lemma service_pass_started now loaded v sid :
  (forall s, s ∈ loaded -> s_id s = Some sid ->
             truthy (s_started s) = true) ->
  exists app,
    Service.sent (Service.run_cycle now loaded v) = Service.sent v ++ app /\
    forall entry, entry ∈ app -> entry.1 <> sid.
Proof.
  intros Hst. unfold Service.run_cycle, Service.check_and_notify.
  pose proof (for_each_invariant
    (Service.visit now)
    (fun v' : Service.service =>
       exists app, Service.sent v' = Service.sent v ++ app /\
       forall entry, entry ∈ app -> entry.1 <> sid)
    loaded v) as Hinv.
  unfold env_after in *.
  destruct (for_each _ _ _) as [[scheds v'] o]. simpl in *.
  apply Hinv.
  - exists []. split; [by rewrite app_nil_r|]. by intros n ?%elem_of_nil.
  - intros s v0 Hin (app & Hk & Happ).
    unfold Service.visit.
    destruct (Service.body now (date_of now) s v0) as [[s' v1]|]
      eqn:Hbody; simpl; [|by eauto].
    apply service_visit in Hbody
      as [_ [->|(i & type & Hi & Hs & Hsent)]]; [by eauto|].
    exists (app ++ [(i, type)]). rewrite Hsent, Hk, <- app_assoc.
    split; [done|].
    intros entry [He|He]%elem_of_app; [by apply Happ|].
    apply list_elem_of_singleton in He as ->. simpl. intros ->.
    rewrite (Hst s Hin Hi) in Hs. done.
Qed.

(** What the three evaluators do with a schedule that they see as
    started.  While every schedule with the id [sid] in the list handed
    to the evaluator has [started] set, an invocation at any clock
    reading [now] emits for that id
    - in [check_enhanced_schedule_notifications] only notifications of
      type 10min_warning or 5min_warning,
    - in the loop of [show_schedule_manager] only notifications of type
      upcoming or soon (its names for the same two warnings),
    - in [check_and_notify] of the background service nothing at all. *)
Lemma evaluators_pass_over_started now st sid sites stamp w v :
  (forall s, s ∈ schedules st -> s_id s = Some sid ->
             truthy (s_started s) = true) ->
  (forall n,
     n ∈ appended (notifications st)
           (notifications
              (Enhanced.check_enhanced_schedule_notifications now st).1) ->
     n_schedule_id n = sid ->
     n_type n = Some "10min_warning"%string
     \/ n_type n = Some "5min_warning"%string) /\
  (forall n,
     n ∈ appended (notifications st)
           (notifications
              (Page.check_notifications sites stamp now st w).1.1) ->
     n_schedule_id n = sid ->
     n_type n = Some "upcoming"%string \/ n_type n = Some "soon"%string) /\
  (forall entry,
     entry ∈ drop (length (Service.sent v))
               (Service.sent (Service.run_cycle now (schedules st) v)) ->
     entry.1 <> sid).
Proof.
  intros Hst. split; [|split].
  - by apply (enhanced_pass_started now st sid).
  - by apply (page_pass_started sites stamp now st w sid).
  - destruct (service_pass_started now (schedules st) v sid Hst)
      as (app & -> & Happ).
    by rewrite drop_app_length.
Qed.

(** Which operations of the dashboard write 'schedules_data.pkl':
    [add_schedule], an [update_schedule] that finds its schedule and a
    [delete_schedule] that returns leave the file equal to the store;
    the two Start buttons leave the file as it is. *)
Lemma dumps_of_the_dashboard a :
  (forall title description date start_time end_time category priority
          clock_id clock_created,
     let a' :=
       (Pickle.add_schedule title description date start_time end_time
          category priority clock_id clock_created a).1 in
     Pickle.schedules_data a' = Some (schedules (Pickle.a_session a'))) /\
  (forall schedule_id kw,
     let a' := (Pickle.update_schedule schedule_id kw a).1 in
     (Pickle.update_schedule schedule_id kw a).2 = Return true ->
     Pickle.schedules_data a' = Some (schedules (Pickle.a_session a'))) /\
  (forall schedule_id,
     let a' := (Pickle.delete_schedule schedule_id a).1 in
     (Pickle.delete_schedule schedule_id a).2 = Return tt ->
     Pickle.schedules_data a' = Some (schedules (Pickle.a_session a'))) /\
  (forall now i,
     Pickle.schedules_data (Pickle.click_start now i a)
     = Pickle.schedules_data a) /\
  (forall now i,
     Pickle.schedules_data (Pickle.click_notification_start now i a).1
     = Pickle.schedules_data a).
Proof.
  repeat split.
  - intros schedule_id kw. unfold Pickle.update_schedule.
    destruct (Store.update_schedule _ _ _) as [st [[]|x]]; simpl; done.
  - intros schedule_id. unfold Pickle.delete_schedule.
    destruct (Agenda.delete_schedule _ _) as [st [[]|x]]; simpl; done.
  - intros now i. unfold Pickle.click_notification_start.
    by destruct (Controls.click_notification_start _ _ _).
Qed.

(** C3 fails for the background service.  "Study", 14:00 to 15:00, is
    added with [add_schedule], which dumps the schedules to
    'schedules_data.pkl'; at 14:02 the user clicks Start.  The button
    sets [started] in the session and dumps nothing, so the file still
    holds the schedule with [started] false.  The two evaluators of the
    dashboard, which read the session, emit nothing at 14:05 nor in
    their auto-block windows (14:10 for the page, 14:11 for
    [check_enhanced_schedule_notifications]); the service, which reads
    the file, sends missed_5 at 14:05 and missed_10 at 14:11 for the
    started schedule.  Had the button
    dumped the schedules, as the comment at [sync_schedules] asks
    ("Call this whenever schedules are modified"), the service would
    have sent nothing. *)
Theorem service_notifies_after_start :
  let a := Pickle.click_start (at_minute 842) 0 study_app in
  let st := Pickle.a_session a in
  let v1 := Pickle.service_cycle (at_minute 845) a idle_service in
  let v2 := Pickle.service_cycle (at_minute 851) a v1 in
  let synced := Pickle.save_schedules_to_file a in
  s_id <$> schedules st = [Some study_id] /\
  s_started <$> schedules st = [Some true] /\
  s_started <$> Pickle.load_schedules a = [Some false] /\
  notifications
    (Enhanced.check_enhanced_schedule_notifications (at_minute 845) st).1
  = [] /\
  notifications
    (Enhanced.check_enhanced_schedule_notifications (at_minute 851) st).1
  = [] /\
  notifications
    (Page.check_notifications WebsiteBlocker.default_blocked_sites
       "2025-01-01 14:05:00" (at_minute 845) st
       (privileged localhost_only)).1.1 = [] /\
  notifications
    (Page.check_notifications WebsiteBlocker.default_blocked_sites
       "2025-01-01 14:10:00" (at_minute 850) st
       (privileged localhost_only)).1.1 = [] /\
  Service.sent v1 = [(study_id, "missed_5"%string)] /\
  Service.sent v2
  = [(study_id, "missed_5"%string); (study_id, "missed_10"%string)] /\
  s_started <$> Pickle.load_schedules synced = [Some true] /\
  Service.sent
    (Pickle.service_cycle (at_minute 851) synced
       (Pickle.service_cycle (at_minute 845) synced idle_service)) = [].
Proof. by vm_compute. Qed.

End Started.

(** ** Records with missing keys *)

Section Malformed.
Import Clock.

Lemma enhanced_body_returns now today s k :
  enhanced_readable today s ->
  exists r, Enhanced.body now today s k = Return r.
Proof.
  unfold enhanced_readable, Enhanced.body.
  intros [Hc|(d & Hd & Hrest)]; [rewrite Hc; by eauto|].
  destruct (truthy (s_completed s)); [by eauto|].
  rewrite Hd. simpl.
  destruct (Z.eqb_spec d today) as [->|Hne]; simpl; [|by eauto].
  destruct Hrest as [?|([t ->] & [i ->] & [title ->])]; [done|]. simpl.
  repeat match goal with
  | |- exists r, (if ?c then _ else _) = _ => destruct c
  end; eauto.
Qed.

Lemma service_body_returns now today s v :
  service_readable today s ->
  exists r, Service.body now today s v = Return r.
Proof.
  unfold service_readable, enhanced_readable, Service.body.
  intros [Hs|[Hc|(d & Hd & Hrest)]].
  - rewrite Hs. destruct (truthy (s_completed s)); by eauto.
  - rewrite Hc; by eauto.
  - destruct (truthy (s_completed s)); [by eauto|].
    destruct (truthy (s_started s)); [by eauto|].
    rewrite Hd. simpl.
    destruct (Z.eqb_spec d today) as [->|Hne]; simpl; [|by eauto].
    destruct Hrest as [?|([t ->] & [i ->] & [title Ht])]; [done|]. simpl.
    unfold Service.notify_once. rewrite Ht. simpl.
    repeat match goal with
    | |- exists r, (if ?c then _ else _) = _ => destruct c
    | |- exists r, match ?o with Some _ => _ | None => _ end = _ =>
        destruct o
    end; eauto.
Qed.

Lemma enhanced_scan_returns now todo k :
  Forall (enhanced_readable (date_of now)) todo ->
  outcome_of
    (Enhanced.visit now) todo k
  = Return tt.
Proof.
  intros Hall. apply for_each_returns. intros s k0 Hin.
  unfold Enhanced.visit. rewrite Forall_forall in Hall.
  destruct (enhanced_body_returns now (date_of now) s k0 (Hall s Hin))
    as [[s' k'] ->]. done.
Qed.

Lemma service_scan_returns now todo v :
  Forall (service_readable (date_of now)) todo ->
  outcome_of
    (Service.visit now) todo v
  = Return tt.
Proof.
  intros Hall. apply for_each_returns. intros s v0 Hin.
  unfold Service.visit. rewrite Forall_forall in Hall.
  destruct (service_body_returns now (date_of now) s v0 (Hall s Hin))
    as [[s' v'] ->]. done.
Qed.

Lemma enhanced_body_undated now today s k :
  truthy (s_completed s) = false -> s_date s = None ->
  Enhanced.body now today s k = Raise (KeyError "date").
Proof. intros Hc Hd. unfold Enhanced.body. by rewrite Hc, Hd. Qed.

(** The loop stops at a record that raises: what it did before stays,
    the records behind are not visited. *)
Lemma for_each_stops {E} (body : Schedule -> E -> Schedule * E * outcome unit)
    pre bad post e x :
  outcome_of body pre e = Return tt ->
  body bad (env_after body pre e) = (bad, env_after body pre e, Raise x) ->
  for_each body (pre ++ bad :: post) e
  = (schedules_after body pre e ++ bad :: post, env_after body pre e,
     Raise x).
Proof.
  unfold outcome_of, env_after, schedules_after. intros Hpre Hbad.
  rewrite for_each_app.
  destruct (for_each body pre e) as [[pre' e'] o]. simpl in *. subst o.
  by rewrite Hbad.
Qed.

(** A record without ['completed'] or ['started'] is evaluated like the
    record with these keys set to false. *)
Lemma enhanced_body_defaults now today s k :
  emitted_by (Enhanced.body now today s k)
  = emitted_by (Enhanced.body now today (with_default_flags s) k) /\
  exception_of (Enhanced.body now today s k)
  = exception_of (Enhanced.body now today (with_default_flags s) k).
Proof.
  unfold Enhanced.body, with_default_flags. simpl.
  destruct (truthy (s_completed s)); [done|].
  destruct (s_date s) as [d|]; simpl; [|done].
  destruct (negb (d =? today)); [done|].
  destruct (s_start_time s) as [t|]; simpl; [|done].
  destruct (s_id s) as [i|]; simpl; [|done].
  destruct (truthy (s_started s)); simpl;
  repeat match goal with
  | |- emitted_by (if ?c then _ else _) = _ /\ _ => destruct c; simpl
  | |- emitted_by (mbind _ (item _ ?o)) = _ /\ _ => destruct o; simpl
  end; done.
Qed.

(** C9, as the code has it.  An invocation of
    [check_enhanced_schedule_notifications], and a pass of the
    background service, completes without an exception when every record
    it does not pass over has its date and, if dated today, its start
    time, id and title; ['completed'] and ['started'] may be missing, and
    a record without them is evaluated like one that is neither
    completed nor started.  A record that is not completed and has no
    date makes the invocation raise [KeyError 'date'] when the loop
    reaches it: the records before it have been evaluated, as if the
    store ended there, and the records after it are left as they
    were. *)
Theorem missing_keys now st v pre bad post s k :
  (Forall (enhanced_readable (date_of now)) (schedules st) ->
   exists new,
     (Enhanced.check_enhanced_schedule_notifications now st).2 = Return new)
  /\
  (Forall (service_readable (date_of now)) (schedules st) ->
   (Service.check_and_notify now (schedules st) v).2 = Return tt)
  /\
  (emitted_by (Enhanced.body now (date_of now) s k)
   = emitted_by (Enhanced.body now (date_of now) (with_default_flags s) k) /\
   exception_of (Enhanced.body now (date_of now) s k)
   = exception_of
       (Enhanced.body now (date_of now) (with_default_flags s) k))
  /\
  (schedules st = pre ++ bad :: post ->
   enhanced_due now st ->
   Forall (enhanced_readable (date_of now)) pre ->
   truthy (s_completed bad) = false -> s_date bad = None ->
   let r := Enhanced.check_enhanced_schedule_notifications now st in
   let r0 := Enhanced.check_enhanced_schedule_notifications now
               (Store.set_schedules pre st) in
   r.2 = Raise (KeyError "date") /\
   notifications r.1 = notifications r0.1 /\
   schedules r.1 = schedules r0.1 ++ bad :: post).
Proof.
  split; [|split; [|split]].
  - intros Hall. unfold Enhanced.check_enhanced_schedule_notifications.
    destruct (_ <? 30); [by eauto|].
    pose proof (enhanced_scan_returns now (schedules st) (notifications st, [])
                  Hall) as Hret.
    unfold outcome_of, Enhanced.scan in *.
    destruct (for_each _ _ _) as [[scheds k1] o]. simpl in *. subst o. eauto.
  - intros Hall. unfold Service.check_and_notify.
    pose proof (service_scan_returns now (schedules st) v Hall) as Hret.
    unfold outcome_of in *.
    by destruct (for_each _ _ _) as [[scheds k1] o].
  - apply enhanced_body_defaults.
  - intros Hst Hdue Hpre Hc Hd r r0. subst r r0.
    unfold Enhanced.check_enhanced_schedule_notifications.
    unfold enhanced_due in Hdue. simpl.
    destruct (Z.ltb_spec
      (timedelta_seconds
         (now - default (now - minutes 1) (last_notification_check st))) 30)
      as [?|_]; [lia|].
    unfold Enhanced.scan. rewrite Hst. simpl.
    pose proof (enhanced_scan_returns now pre (notifications st, []) Hpre)
      as Hret.
    rewrite (for_each_stops _ pre bad post _ (KeyError "date") Hret).
    2:{ unfold Enhanced.visit. by rewrite enhanced_body_undated. }
    unfold outcome_of, env_after, schedules_after in *.
    destruct (for_each _ pre _) as [[scheds k1] o]. simpl in *. done.
Qed.

(** C9 does not hold as stated: with a record without ['date'] in front
    of "Study", 11 minutes after the start of "Study", the invocation
    raises and "Study" gets no notification; the background service
    stops its pass in the same way.  Without the broken record both
    notify. *)
Lemma undated_record_aborts_the_pass :
  let now := at_minute 851 in
  let broken := session_with [undated; study_bare] in
  let sound := session_with [study_bare] in
  (Enhanced.check_enhanced_schedule_notifications now broken).2
  = Raise (KeyError "date") /\
  notifications (Enhanced.check_enhanced_schedule_notifications now broken).1
  = [] /\
  n_id <$>
    notifications (Enhanced.check_enhanced_schedule_notifications now sound).1
  = ["auto_block_" +:+ study_id] /\
  (Service.check_and_notify now (schedules broken) idle_service).2
  = Raise (KeyError "date") /\
  Service.sent (Service.run_cycle now (schedules broken) idle_service) = [] /\
  Service.sent (Service.run_cycle now (schedules sound) idle_service)
  = [(study_id, "missed_10"%string)].
Proof. by vm_compute. Qed.

End Malformed.

(** ** The auto-block threshold *)

Section Threshold.
Import Clock.

(** Position of a visit in the loop. *)
Lemma for_each_visit {E}
    (body : Schedule -> E -> Schedule * E * outcome unit) pre s post e :
  outcome_of body pre e = Return tt ->
  schedules_after body (pre ++ s :: post) e !! length pre
  = Some (body s (env_after body pre e)).1.1 /\
  env_after body (pre ++ s :: post) e
  = match (body s (env_after body pre e)).2 with
    | Return _ => env_after body post (body s (env_after body pre e)).1.2
    | Raise _ => (body s (env_after body pre e)).1.2
    end.
Proof.
  unfold outcome_of, env_after, schedules_after. intros Hpre.
  rewrite for_each_app.
  pose proof (for_each_length body pre e) as Hlen.
  unfold schedules_after in Hlen.
  destruct (for_each body pre e) as [[pre' e'] o]. simpl in *. subst o.
  simpl.
  destruct (body s e') as [[s' e''] [[]|x]]; simpl.
  - destruct (for_each body post e'') as [[post' e3] o]. simpl.
    by rewrite lookup_app_r, Hlen, Nat.sub_diag by lia.
  - by rewrite lookup_app_r, Hlen, Nat.sub_diag by lia.
Qed.

(** The id prefixes keep the ids of different schedules apart. *)
Lemma enhanced_prefix_inj td started prefix type i sid :
  enhanced_fires td started prefix type ->
  prefix +:+ i = "auto_block_" +:+ sid ->
  prefix = "auto_block_"%string /\ i = sid.
Proof.
  unfold enhanced_fires. intros H Heq.
  decompose [and or] H; subst; try discriminate.
  split; [done|]. by simplify_eq/=.
Qed.

Lemma page_prefix_inj td started triggered prefix type i sid :
  page_fires td started triggered prefix type ->
  prefix +:+ i = "auto_block_" +:+ sid ->
  prefix = "auto_block_"%string /\ i = sid.
Proof.
  unfold page_fires. intros H Heq.
  decompose [and or] H; subst; try discriminate.
  split; [done|]. by simplify_eq/=.
Qed.

(** A visit changes the number of auto-block notifications of [sid]
    and the schedule only if it is a visit of a schedule with that id
    which is more than ten minutes late. *)
Lemma enhanced_visit_frame now s k sid :
  s_id s <> Some sid
  \/ (exists d t, s_date s = Some d /\ s_start_time s = Some t /\
                  minutes (-10) <= combine d t - now) ->
  count_id ("auto_block_" +:+ sid) (Enhanced.visit now s k).1.2.1
  = count_id ("auto_block_" +:+ sid) k.1 /\
  ((exists d t, s_date s = Some d /\ s_start_time s = Some t /\
                minutes (-10) <= combine d t - now) ->
   (Enhanced.visit now s k).1.1 = s).
Proof.
  intros Hother. unfold Enhanced.visit.
  destruct (Enhanced.body now (date_of now) s k) as [[s' k']|] eqn:Hbody;
    simpl; [|done].
  apply enhanced_visit in Hbody
    as [[-> ->]|(d & t & i & title & prefix & type & n & Hv)]; [done|].
  destruct Hv as (Hd&_&Ht&Hi&_&_&Hfires&_&Hn&_&_&_&->&->).
  assert (Hp : prefix +:+ i <> "auto_block_" +:+ sid
               /\ (prefix = "auto_block_"%string ->
                   ~ exists d t, s_date s = Some d /\ s_start_time s = Some t
                                 /\ minutes (-10) <= combine d t - now)).
  { split.
    - intros Heq.
      destruct (enhanced_prefix_inj _ _ _ _ _ _ Hfires Heq) as [-> ->].
      destruct Hother as [?|(d' & t' & Hd' & Ht' & Hle)]; [done|].
      unfold enhanced_fires in Hfires. simplify_eq.
      decompose [and or] Hfires; try discriminate. lia.
    - intros -> (d' & t' & Hd' & Ht' & Hle).
      unfold enhanced_fires in Hfires. simplify_eq.
      decompose [and or] Hfires; try discriminate. lia. }
  destruct Hp as [Hne Hpre]. split.
  - apply count_id_emit_other. by rewrite Hn.
  - intros Hlate. destruct (String.eqb_spec prefix "auto_block_"); [|done].
    by destruct Hpre.
Qed.

Lemma enhanced_scan_frame now todo k sid :
  (forall s, s ∈ todo -> s_id s <> Some sid) ->
  count_id ("auto_block_" +:+ sid) (env_after (Enhanced.visit now) todo k).1
  = count_id ("auto_block_" +:+ sid) k.1.
Proof.
  intros Hother.
  apply (for_each_invariant _
           (fun k' : sink => count_id ("auto_block_" +:+ sid) k'.1
                             = count_id ("auto_block_" +:+ sid) k.1));
    [done|].
  intros s k0 Hin <-.
  apply enhanced_visit_frame. left. by apply Hother.
Qed.

(** The visit of a schedule that is more than ten minutes late and not
    started, when its auto-block notification is not yet there. *)
Lemma enhanced_visit_due now s k sid t title :
  truthy (s_completed s) = false ->
  s_date s = Some (date_of now) -> s_start_time s = Some t ->
  s_id s = Some sid -> s_title s = Some title ->
  truthy (s_started s) = false ->
  combine (date_of now) t - now < minutes (-10) ->
  has_notification ("auto_block_" +:+ sid) k.1 = false ->
  exists n,
    n_id n = "auto_block_" +:+ sid /\
    Enhanced.visit now s k
    = (set_stamp AutoBlockTime now (set_flag AutoBlockTriggered true s),
       emit n k, Return tt).
Proof.
  intros Hc Hd Ht Hi Htt Hs Hlate Hnew.
  unfold Enhanced.visit, Enhanced.body.
  rewrite Hc, Hd. simpl. rewrite Z.eqb_refl, Ht, Hi. simpl.
  rewrite Hs. apply Z.ltb_lt in Hlate. rewrite Hlate. simpl.
  rewrite Hnew, Htt. simpl. eexists; split; [|reflexivity]; reflexivity.
Qed.

(** The state after an invocation, when the re-check interval has
    passed, is the state after the loop; otherwise nothing but the
    time of the last check may have changed. *)
Lemma enhanced_check_due now st :
  enhanced_due now st ->
  schedules (Enhanced.check_enhanced_schedule_notifications now st).1
  = schedules_after (Enhanced.visit now) (schedules st) (notifications st, [])
  /\
  notifications (Enhanced.check_enhanced_schedule_notifications now st).1
  = (env_after (Enhanced.visit now) (schedules st) (notifications st, [])).1.
Proof.
  unfold enhanced_due, Enhanced.check_enhanced_schedule_notifications,
    Enhanced.scan, schedules_after, env_after.
  intros Hdue.
  destruct (Z.ltb_spec
    (timedelta_seconds
       (now - default (now - minutes 1) (last_notification_check st))) 30)
    as [?|_]; [lia|].
  by destruct (for_each _ _ _) as [[scheds k] o].
Qed.

Lemma enhanced_check_cases now st :
  (schedules (Enhanced.check_enhanced_schedule_notifications now st).1
   = schedules st /\
   notifications (Enhanced.check_enhanced_schedule_notifications now st).1
   = notifications st)
  \/ enhanced_due now st.
Proof.
  unfold enhanced_due, Enhanced.check_enhanced_schedule_notifications.
  destruct (Z.ltb_spec
    (timedelta_seconds
       (now - default (now - minutes 1) (last_notification_check st))) 30)
    as [?|?]; [by left|by right].
Qed.

Lemma enhanced_threshold now st pre s post sid t title :
  schedules st = pre ++ s :: post ->
  Forall (enhanced_readable (date_of now)) pre ->
  (forall s', s' ∈ pre ++ post -> s_id s' <> Some sid) ->
  truthy (s_completed s) = false ->
  s_date s = Some (date_of now) -> s_start_time s = Some t ->
  s_id s = Some sid -> s_title s = Some title ->
  truthy (s_started s) = false ->
  has_notification ("auto_block_" +:+ sid) (notifications st) = false ->
  (enhanced_due now st ->
   combine (date_of now) t - now < minutes (-10) ->
   exists s',
     schedules (Enhanced.check_enhanced_schedule_notifications now st).1
       !! length pre = Some s' /\
     s_auto_block_triggered s' = Some true /\
     count_id ("auto_block_" +:+ sid)
       (notifications
          (Enhanced.check_enhanced_schedule_notifications now st).1)
     = 1%nat)
  /\
  (minutes (-10) <= combine (date_of now) t - now ->
   schedules (Enhanced.check_enhanced_schedule_notifications now st).1
     !! length pre = Some s /\
   count_id ("auto_block_" +:+ sid)
     (notifications
        (Enhanced.check_enhanced_schedule_notifications now st).1)
   = 0%nat).
Proof.
  intros Hst Hpre Hother Hc Hd Ht Hi Htt Hs Hnew.
  pose proof (proj1 (has_notification_count _ _) Hnew) as Hzero.
  assert (Hopre : forall s', s' ∈ pre -> s_id s' <> Some sid).
  { intros s' Hin. apply Hother, elem_of_app. by left. }
  assert (Hopost : forall s', s' ∈ post -> s_id s' <> Some sid).
  { intros s' Hin. apply Hother, elem_of_app. by right. }
  pose proof (enhanced_scan_returns now pre (notifications st, []) Hpre)
    as Hret.
  destruct (for_each_visit (Enhanced.visit now) pre s post
              (notifications st, []) Hret) as [Hlook Henv].
  pose proof (enhanced_scan_frame now pre (notifications st, []) sid Hopre)
    as Hframe. simpl in Hframe.
  set (k1 := env_after (Enhanced.visit now) pre (notifications st, [])) in *.
  split.
  - intros Hdue Hlate.
    destruct (enhanced_check_due now st Hdue) as [-> ->]. rewrite Hst.
    destruct (enhanced_visit_due now s k1 sid t title Hc Hd Ht Hi Htt Hs
                Hlate) as (n & Hn & Hvisit).
    { apply has_notification_count. by rewrite Hframe. }
    rewrite Hvisit in Hlook, Henv. simpl in Hlook, Henv.
    eexists. split; [exact Hlook|]. split; [done|].
    rewrite Henv, (enhanced_scan_frame now post _ sid Hopost).
    unfold emit. simpl. rewrite count_id_app, count_id_cons, Hframe, Hzero.
    by rewrite decide_True by done.
  - intros Hearly.
    destruct (enhanced_check_cases now st) as [[-> ->]|Hdue].
    { rewrite Hst. split; [|done].
      by rewrite lookup_app_r, Nat.sub_diag by lia. }
    destruct (enhanced_check_due now st Hdue) as [-> ->]. rewrite Hst.
    destruct (enhanced_visit_frame now s k1 sid) as [Hcount Hsame].
    { right. by exists (date_of now), t. }
    specialize (Hsame ltac:(by exists (date_of now), t)).
    rewrite Hsame in Hlook. split; [done|].
    rewrite Henv.
    destruct (Enhanced.visit now s k1).2.
    + rewrite (enhanced_scan_frame now post _ sid Hopost). lia.
    + lia.
Qed.

(** *** The same for the loop of the page *)

Lemma page_body_returns sites stamp now today s e :
  enhanced_readable today s ->
  exists r, Page.body sites stamp now today s e = Return r.
Proof.
  unfold enhanced_readable, Page.body.
  intros [Hc|(d & Hd & Hrest)]; [rewrite Hc; by eauto|].
  destruct (truthy (s_completed s)); [by eauto|].
  rewrite Hd. simpl.
  destruct (Z.eqb_spec d today) as [->|Hne]; simpl; [|by eauto].
  destruct Hrest as [?|([t ->] & [i ->] & [title ->])]; [done|]. simpl.
  repeat match goal with
  | |- exists r, (if ?c then _ else _) = _ => destruct c
  | |- exists r, (let '(_, _) := ?c in _) = _ => destruct c
  end; eauto.
Qed.

Lemma page_scan_returns sites stamp now todo e :
  Forall (enhanced_readable (date_of now)) todo ->
  outcome_of (Page.visit sites stamp now) todo e = Return tt.
Proof.
  intros Hall. apply for_each_returns. intros s e0 Hin.
  unfold Page.visit. rewrite Forall_forall in Hall.
  destruct (page_body_returns sites stamp now (date_of now) s e0
              (Hall s Hin)) as [[s' e'] ->]. done.
Qed.

Lemma page_visit_frame sites stamp now s e sid :
  s_id s <> Some sid
  \/ (exists d t, s_date s = Some d /\ s_start_time s = Some t /\
                  (combine d t - now <= minutes (-11)
                   \/ minutes (-10) < combine d t - now)) ->
  count_id ("auto_block_" +:+ sid)
    (Page.e_sink (Page.visit sites stamp now s e).1.2).1
  = count_id ("auto_block_" +:+ sid) (Page.e_sink e).1 /\
  ((exists d t, s_date s = Some d /\ s_start_time s = Some t /\
                (combine d t - now <= minutes (-11)
                 \/ minutes (-10) < combine d t - now)) ->
   (Page.visit sites stamp now s e).1.1 = s).
Proof.
  intros Hother. unfold Page.visit.
  destruct (Page.body sites stamp now (date_of now) s e) as [[s' e']|]
    eqn:Hbody; simpl; [|done].
  apply page_visit in Hbody
    as [[-> ->]|(d & t & i & title & prefix & type & n & Hv)]; [done|].
  destruct Hv as (Hd&_&Ht&Hi&_&_&Hfires&_&Hn&_&_&_&Hsink&Hs').
  assert (Hp : prefix +:+ i <> "auto_block_" +:+ sid
               /\ (prefix = "auto_block_"%string ->
                   ~ exists d t, s_date s = Some d /\ s_start_time s = Some t
                       /\ (combine d t - now <= minutes (-11)
                           \/ minutes (-10) < combine d t - now))).
  { split.
    - intros Heq.
      destruct (page_prefix_inj _ _ _ _ _ _ _ Hfires Heq) as [-> ->].
      destruct Hother as [?|(d' & t' & Hd' & Ht' & Hle)]; [done|].
      unfold page_fires in Hfires. simplify_eq.
      decompose [and or] Hfires; try discriminate; lia.
    - intros -> (d' & t' & Hd' & Ht' & Hle).
      unfold page_fires in Hfires. simplify_eq.
      decompose [and or] Hfires; try discriminate; lia. }
  destruct Hp as [Hne Hpre]. split.
  - rewrite Hsink. apply count_id_emit_other. by rewrite Hn.
  - intros Hout. destruct (String.eqb_spec prefix "auto_block_").
    + by destruct Hpre.
    + by destruct Hs'.
Qed.

Lemma page_scan_frame sites stamp now todo e sid :
  (forall s, s ∈ todo -> s_id s <> Some sid) ->
  count_id ("auto_block_" +:+ sid)
    (Page.e_sink (env_after (Page.visit sites stamp now) todo e)).1
  = count_id ("auto_block_" +:+ sid) (Page.e_sink e).1.
Proof.
  intros Hother.
  apply (for_each_invariant _
           (fun e' : Page.env =>
              count_id ("auto_block_" +:+ sid) (Page.e_sink e').1
              = count_id ("auto_block_" +:+ sid) (Page.e_sink e).1));
    [done|].
  intros s e0 Hin <-.
  apply page_visit_frame. left. by apply Hother.
Qed.

(** The visit of a schedule that is between ten and eleven minutes
    late, not started and not yet flagged. *)
Lemma page_visit_due sites stamp now s e sid t title :
  truthy (s_completed s) = false ->
  s_date s = Some (date_of now) -> s_start_time s = Some t ->
  s_id s = Some sid -> s_title s = Some title ->
  truthy (s_started s) = false ->
  truthy (s_auto_block_triggered s) = false ->
  minutes (-11) < combine (date_of now) t - now <= minutes (-10) ->
  has_notification ("auto_block_" +:+ sid) (Page.e_sink e).1 = false ->
  exists s' e' n,
    Page.visit sites stamp now s e = (s', e', Return tt) /\
    s_auto_block_triggered s' = Some true /\
    n_id n = "auto_block_" +:+ sid /\
    Page.e_sink e' = emit n (Page.e_sink e).
Proof.
  intros Hc Hd Ht Hi Htt Hs Htr [Hlo Hhi] Hnew.
  unfold Page.visit, Page.body.
  rewrite Hc, Hd. simpl. rewrite Z.eqb_refl, Ht, Hi. simpl.
  rewrite Hs, Htr. apply Z.ltb_lt in Hlo. apply Z.leb_le in Hhi.
  rewrite Hlo, Hhi. simpl. rewrite Hnew, Htt. simpl.
  destruct (WebsiteBlocker._check_admin_privileges (Page.e_os e)).
  - destruct (WebsiteBlocker.block_websites sites stamp (Page.e_os e))
      as [w r].
    destruct (WebsiteBlocker.success r); simpl;
      eexists _, _, _; (split; [reflexivity|]); simpl;
      (split; [reflexivity|]); (split; [|reflexivity]); reflexivity.
  - simpl. eexists _, _, _; (split; [reflexivity|]); simpl.
    (split; [reflexivity|]); (split; [|reflexivity]); reflexivity.
Qed.

Lemma page_threshold sites stamp now st w pre s post sid t title :
  schedules st = pre ++ s :: post ->
  Forall (enhanced_readable (date_of now)) pre ->
  (forall s', s' ∈ pre ++ post -> s_id s' <> Some sid) ->
  truthy (s_completed s) = false ->
  s_date s = Some (date_of now) -> s_start_time s = Some t ->
  s_id s = Some sid -> s_title s = Some title ->
  truthy (s_started s) = false ->
  has_notification ("auto_block_" +:+ sid) (notifications st) = false ->
  (truthy (s_auto_block_triggered s) = false ->
   minutes (-11) < combine (date_of now) t - now <= minutes (-10) ->
   exists s',
     schedules (Page.check_notifications sites stamp now st w).1.1
       !! length pre = Some s' /\
     s_auto_block_triggered s' = Some true /\
     count_id ("auto_block_" +:+ sid)
       (notifications (Page.check_notifications sites stamp now st w).1.1)
     = 1%nat)
  /\
  (combine (date_of now) t - now <= minutes (-11)
   \/ minutes (-10) < combine (date_of now) t - now ->
   schedules (Page.check_notifications sites stamp now st w).1.1
     !! length pre = Some s /\
   count_id ("auto_block_" +:+ sid)
     (notifications (Page.check_notifications sites stamp now st w).1.1)
   = 0%nat).
Proof.
  intros Hst Hpre Hother Hc Hd Ht Hi Htt Hs Hnew.
  pose proof (proj1 (has_notification_count _ _) Hnew) as Hzero.
  assert (Hopre : forall s', s' ∈ pre -> s_id s' <> Some sid).
  { intros s' Hin. apply Hother, elem_of_app. by left. }
  assert (Hopost : forall s', s' ∈ post -> s_id s' <> Some sid).
  { intros s' Hin. apply Hother, elem_of_app. by right. }
  pose proof (page_scan_returns sites stamp now pre (page_env st w) Hpre)
    as Hret.
  destruct (for_each_visit (Page.visit sites stamp now) pre s post
              (page_env st w) Hret) as [Hlook Henv].
  pose proof (page_scan_frame sites stamp now pre (page_env st w) sid Hopre)
    as Hframe. simpl in Hframe.
  set (e1 := env_after (Page.visit sites stamp now) pre (page_env st w))
    in *.
  destruct (page_check sites stamp now st w) as [-> ->]. rewrite Hst.
  split.
  - intros Htr Hwin.
    destruct (page_visit_due sites stamp now s e1 sid t title
                Hc Hd Ht Hi Htt Hs Htr Hwin)
      as (s' & e' & n & Hvisit & Hflag & Hn & Hsink).
    { apply has_notification_count. by rewrite Hframe. }
    rewrite Hvisit in Hlook, Henv. simpl in Hlook, Henv.
    exists s'. split; [exact Hlook|]. split; [done|].
    rewrite Henv, (page_scan_frame sites stamp now post _ sid Hopost), Hsink.
    unfold emit. simpl. rewrite count_id_app, count_id_cons, Hframe, Hzero.
    by rewrite decide_True by done.
  - intros Hout.
    destruct (page_visit_frame sites stamp now s e1 sid) as [Hcount Hsame].
    { right. by exists (date_of now), t. }
    specialize (Hsame ltac:(by exists (date_of now), t)).
    rewrite Hsame in Hlook. split; [done|].
    rewrite Henv.
    destruct (Page.visit sites stamp now s e1).2.
    + rewrite (page_scan_frame sites stamp now post _ sid Hopost). lia.
    + lia.
Qed.

Lemma minutes_opp n : minutes (- n) = - minutes n.
Proof. unfold minutes. lia. Qed.

(** C1, as the code has it.  Take a schedule dated today, not completed
    and not started, with id and title, whose id no other stored schedule
    has and for which no auto-block notification exists yet; the records
    before it in the store can be evaluated.  Let [late] be the time
    since its start.
    - [check_enhanced_schedule_notifications], when its re-check interval
      has passed: if [late] is more than 10 minutes, the invocation has
      triggered the auto-block attempt ([auto_block_triggered] is true,
      exactly one auto-block notification); if [late] is at most 10
      minutes, none.
    - The loop of [show_schedule_manager]: the attempt is triggered when
      [late] is at least 10 and less than 11 minutes (and the schedule is
      not flagged yet); for less than 10 minutes, and for 11 minutes or
      more, the invocation triggers none. *)
Theorem auto_block_threshold now st w sites stamp pre s post sid t title :
  schedules st = pre ++ s :: post ->
  Forall (enhanced_readable (date_of now)) pre ->
  (forall s', s' ∈ pre ++ post -> s_id s' <> Some sid) ->
  truthy (s_completed s) = false ->
  s_date s = Some (date_of now) -> s_start_time s = Some t ->
  s_id s = Some sid -> s_title s = Some title ->
  truthy (s_started s) = false ->
  has_notification ("auto_block_" +:+ sid) (notifications st) = false ->
  let late := now - combine (date_of now) t in
  let enhanced := (Enhanced.check_enhanced_schedule_notifications now st).1 in
  let page := (Page.check_notifications sites stamp now st w).1.1 in
  (enhanced_due now st -> minutes 10 < late ->
   auto_block_attempted sid (length pre) enhanced) /\
  (late <= minutes 10 -> auto_block_untouched sid (length pre) s enhanced) /\
  (truthy (s_auto_block_triggered s) = false ->
   minutes 10 <= late < minutes 11 ->
   auto_block_attempted sid (length pre) page) /\
  (late < minutes 10 \/ minutes 11 <= late ->
   auto_block_untouched sid (length pre) s page).
Proof.
  intros Hst Hpre Hother Hc Hd Ht Hi Htt Hs Hnew late enhanced page.
  destruct (enhanced_threshold now st pre s post sid t title
              Hst Hpre Hother Hc Hd Ht Hi Htt Hs Hnew) as [He1 He2].
  destruct (page_threshold sites stamp now st w pre s post sid t title
              Hst Hpre Hother Hc Hd Ht Hi Htt Hs Hnew) as [Hp1 Hp2].
  assert (H10 : minutes (-10) = - minutes 10) by apply (minutes_opp 10).
  assert (H11 : minutes (-11) = - minutes 11) by apply (minutes_opp 11).
  subst late enhanced page.
  unfold auto_block_attempted, auto_block_untouched.
  split; [|split; [|split]].
  - intros Hdue Hlate. destruct He1 as (s' & ? & ? & ?); [done|lia|]. eauto.
  - intros Hlate. apply He2. lia.
  - intros Htr Hlate. destruct Hp1 as (s' & ? & ? & ?); [done|lia|]. eauto.
  - intros Hlate. apply Hp2. lia.
Qed.

(** "Study" (14:00) alone in the store, at 14:10:01. *)
Lemma auto_block_threshold_witness :
  let now := at_second 850 1 in
  let late := now - combine (date_of now) (minutes 840) in
  let enhanced :=
    (Enhanced.check_enhanced_schedule_notifications now study_session).1 in
  let page :=
    (Page.check_notifications WebsiteBlocker.default_blocked_sites
       "2025-01-01 14:10:01" now study_session
       (privileged localhost_only)).1.1 in
  (enhanced_due now study_session -> minutes 10 < late ->
   auto_block_attempted study_id 0 enhanced) /\
  (late <= minutes 10 -> auto_block_untouched study_id 0 study enhanced) /\
  (truthy (s_auto_block_triggered study) = false ->
   minutes 10 <= late < minutes 11 ->
   auto_block_attempted study_id 0 page) /\
  (late < minutes 10 \/ minutes 11 <= late ->
   auto_block_untouched study_id 0 study page).
Proof.
  apply (auto_block_threshold (at_second 850 1) study_session
           (privileged localhost_only) WebsiteBlocker.default_blocked_sites
           "2025-01-01 14:10:01" [] study [] study_id (minutes 840) "Study").
  - reflexivity.
  - constructor.
  - intros s' Hs'. simpl in Hs'. by apply elem_of_nil in Hs'.
  - reflexivity.
  - reflexivity.
  - reflexivity.
  - reflexivity.
  - reflexivity.
  - reflexivity.
  - reflexivity.
Defined.

(** The two clock readings of the specification, evaluated: at 14:10:01
    both evaluators have triggered the attempt for "Study", at 14:09:59
    neither has. *)
Lemma auto_block_at_the_threshold :
  let run_enhanced now :=
    (Enhanced.check_enhanced_schedule_notifications now study_session).1 in
  let run_page now :=
    (Page.check_notifications WebsiteBlocker.default_blocked_sites
       "2025-01-01 14:10:01" now study_session
       (privileged localhost_only)).1.1 in
  let summary st' :=
    (s_auto_block_triggered <$> schedules st', n_id <$> notifications st') in
  summary (run_enhanced (at_second 850 1))
  = ([Some true], ["auto_block_" +:+ study_id]) /\
  summary (run_page (at_second 850 1))
  = ([Some true], ["auto_block_" +:+ study_id]) /\
  summary (run_enhanced (at_second 849 59))
  = ([None], ["missed_5min_" +:+ study_id]) /\
  summary (run_page (at_second 849 59))
  = ([None], ["missed_5min_" +:+ study_id]).
Proof. by vm_compute. Qed.

(** C1 does not hold of the loop of [show_schedule_manager]: "Study" is
    12 minutes past its start, not started and not completed, and the
    invocation neither flags it nor emits an auto-block notification. *)
Lemma page_misses_late_schedule :
  let now := at_second 852 0 in
  let page :=
    (Page.check_notifications WebsiteBlocker.default_blocked_sites
       "2025-01-01 14:12:00" now study_session
       (privileged localhost_only)).1.1 in
  s_date study = Some (date_of now) /\
  s_started study = Some false /\ s_completed study = Some false /\
  now - combine (date_of now) (minutes 840) = minutes 12 /\
  schedules page = [study] /\
  s_auto_block_triggered study = None /\
  notifications page = [].
Proof. by vm_compute. Qed.

End Threshold.

(** ** Adding a schedule *)

Section Adding.
Import Store Manager.

Lemma pretty_N_go_plain x s : plain s -> plain (pretty_N_go x s).
Proof.
  revert s. induction (N.lt_wf_0 x) as [x _ IH]; intros s Hs.
  assert (x = 0 \/ 0 < x)%N as [->|?] by lia.
  - by rewrite pretty_N_go_0.
  - rewrite pretty_N_go_step by done. apply IH.
    { by apply N.div_lt. }
    split; [|done]. unfold pretty_N_char. by repeat case_match.
Qed.

Lemma pretty_nat_plain (n : nat) : plain (pretty n).
Proof.
  unfold pretty, pretty_nat, pretty, pretty_N.
  destruct (decide _); [by repeat split|]. by apply pretty_N_go_plain.
Qed.

Lemma plain_split a b r r' :
  plain a -> plain b ->
  a +:+ String "_" r = b +:+ String "_" r' -> a = b /\ r = r'.
Proof.
  revert b. induction a as [|c a IH]; intros [|c' b] Ha Hb Heq;
    simpl in *.
  - by simplify_eq.
  - destruct Hb as [Hc' _]. by simplify_eq.
  - destruct Ha as [Hc _]. by simplify_eq.
  - destruct Ha as [_ Ha], Hb as [_ Hb]. simplify_eq.
    destruct (IH b Ha Hb ltac:(done)) as [-> ->]. done.
Qed.

(** The id tells the store length and the time stamp it was made
    from. *)
Lemma schedule_id_of_inj len ts len' ts' :
  schedule_id_of len ts = schedule_id_of len' ts' ->
  len = len' /\ ts = ts'.
Proof.
  unfold schedule_id_of. intros Heq.
  apply (inj (String.app "schedule_")) in Heq.
  apply plain_split in Heq as [Hlen Hts]; try apply pretty_nat_plain.
  split; [by apply (inj pretty) in Hlen|done].
Qed.

Lemma filter_overlaps_nil new_start new_end new_date (l : list Schedule) :
  (forall x, x ∈ l -> overlaps new_start new_end new_date x = false) ->
  filter (fun s => overlaps new_start new_end new_date s = true) l = [].
Proof.
  induction l as [|s l IH]; intros Hno; [done|].
  rewrite filter_cons, decide_False.
  - apply IH. intros x Hx. apply Hno. by right.
  - rewrite (Hno s) by left. done.
Qed.

Lemma filter_overlaps_well_timed new_start new_end new_date
    (l : list Schedule) :
  Forall well_timed
    (filter (fun s => overlaps new_start new_end new_date s = true) l).
Proof.
  apply Forall_forall. intros c [Hc _]%list_elem_of_filter.
  unfold overlaps in Hc. unfold well_timed.
  by destruct (s_date c), (s_start_time c), (s_end_time c).
Qed.

(** A refused form shows its warnings when every conflict has a
    title. *)
Lemma conflict_warnings_titled conflicts :
  Forall well_timed conflicts ->
  (forall c, c ∈ conflicts -> is_Some (s_title c)) ->
  exists warnings, conflict_warnings conflicts = Return warnings.
Proof.
  induction 1 as [|c cs (_ & [t0 Ht0] & [t1 Ht1]) _ IH]; intros Htitle.
  { by eexists. }
  destruct (Htitle c) as [title Hc]; [left|].
  destruct IH as [warnings Hw]; [intros c' Hc'; apply Htitle; by right|].
  exists ((title, t0, t1) :: warnings). simpl.
  by rewrite Hc, Ht0, Ht1, Hw.
Qed.

(** The warning of a conflict without title is a KeyError. *)
Lemma conflict_warnings_untitled conflicts :
  Forall well_timed conflicts ->
  (exists c, c ∈ conflicts /\ s_title c = None) ->
  conflict_warnings conflicts = Raise (KeyError "title").
Proof.
  induction 1 as [|c cs (_ & [t0 Ht0] & [t1 Ht1]) _ IH]; intros (x & Hx & Hnone).
  { by apply elem_of_nil in Hx. }
  simpl. destruct (s_title c) as [title|] eqn:Hc; [|done]. simpl.
  rewrite Ht0, Ht1. simpl. rewrite IH; [done|].
  apply elem_of_cons in Hx as [->|Hx]; [congruence|by exists x].
Qed.

(** C5, as the code has it.  [add_schedule] itself never rejects: it
    appends a record with [completed], [started] and [missed_notified]
    false and without auto-block flags (which read as false), and
    returns the id "schedule_<store length>_<time stamp>"; that id
    differs from the id of every stored schedule that was made from
    another store length or another time stamp.  The conflict check is
    done by the form that calls it, on a store whose records carry date
    and times: without a title, or with an end time that is not after
    the start time, nothing is added; otherwise, when stored schedules
    of that date overlap, the form leaves the store as it is and
    reports them, which needs the title of each (a conflict without
    title ends the report in KeyError 'title'); and when none overlaps,
    the form calls [add_schedule]. *)
Theorem add_schedule_behaviour title description date start_time end_time
    category priority clock_id clock_created st :
  Forall well_timed (schedules st) ->
  let form :=
    submit_add_schedule title description date start_time end_time
      category priority clock_id clock_created st in
  let added :=
    add_schedule title description date start_time end_time
      category priority clock_id clock_created st in
  let conflicts :=
    filter (fun s => overlaps start_time end_time date s = true)
      (schedules st) in
  (exists record,
     schedules added.1 = schedules st ++ [record] /\
     added.2 = schedule_id_of (length (schedules st)) clock_id /\
     s_id record = Some added.2 /\
     s_date record = Some date /\
     s_start_time record = Some start_time /\
     s_end_time record = Some end_time /\
     s_completed record = Some false /\
     s_started record = Some false /\
     s_missed_notified record = Some false /\
     truthy (s_auto_block_triggered record) = false /\
     truthy (s_auto_blocked record) = false /\
     forall x len ts,
       x ∈ schedules st -> s_id x = Some (schedule_id_of len ts) ->
       (len, ts) <> (length (schedules st), clock_id) ->
       s_id x <> s_id record) /\
  (title = ""%string -> form = (st, Return MissingTitle)) /\
  (title <> ""%string -> end_time <= start_time ->
   form = (st, Return EndNotAfterStart)) /\
  (title <> ""%string -> start_time < end_time ->
   (exists x, x ∈ schedules st
              /\ overlaps start_time end_time date x = true) ->
   conflicts <> [] /\ form.1 = st /\
   ((forall c, c ∈ conflicts -> is_Some (s_title c)) ->
    form.2 = Return (ConflictError conflicts)) /\
   ((exists c, c ∈ conflicts /\ s_title c = None) ->
    form.2 = Raise (KeyError "title"))) /\
  (title <> ""%string -> start_time < end_time ->
   (forall x, x ∈ schedules st ->
              overlaps start_time end_time date x = false) ->
   form = (added.1, Return (Added added.2))).
Proof.
  intros Hwf form added conflicts. subst form added.
  split; [|split; [|split; [|split]]].
  - eexists. split; [reflexivity|]. simpl.
    repeat (split; [reflexivity|]).
    intros x len ts Hx Hid Hne Heq. rewrite Hid in Heq.
    apply (inj Some) in Heq.
    apply schedule_id_of_inj in Heq as [-> ->]. done.
  - intros ->. done.
  - intros Ht Hle. unfold submit_add_schedule.
    destruct (String.eqb_spec title ""); [done|].
    apply Z.leb_le in Hle. by rewrite Hle.
  - intros Ht Hlt (x & Hx & Hover). unfold submit_add_schedule.
    destruct (String.eqb_spec title ""); [done|].
    destruct (Z.leb_spec end_time start_time); [lia|].
    unfold check_schedule_conflict. rewrite conflict_loop_filter by done.
    rewrite app_nil_l. fold conflicts.
    pose proof (filter_overlaps_well_timed start_time end_time date
                  (schedules st)) as Hwt. fold conflicts in Hwt.
    assert (Hin : x ∈ conflicts) by (by apply list_elem_of_filter).
    destruct conflicts as [|c cs] eqn:Hf; [by apply elem_of_nil in Hin|].
    cbn [fst snd]. split; [done|]. split; [done|]. split.
    + intros Htitle.
      destruct (conflict_warnings_titled _ Hwt Htitle) as [warnings Hw].
      by rewrite Hw.
    + intros Hnone.
      by rewrite (conflict_warnings_untitled _ Hwt Hnone).
  - intros Ht Hlt Hno. unfold submit_add_schedule.
    destruct (String.eqb_spec title ""); [done|].
    destruct (Z.leb_spec end_time start_time); [lia|].
    unfold check_schedule_conflict. rewrite conflict_loop_filter by done.
    by rewrite filter_overlaps_nil.
Qed.

Lemma add_schedule_behaviour_witness :
  let form :=
    submit_add_schedule "Review" "notes" example_day (Clock.minutes 870)
      (Clock.minutes 930) "Study" "Medium"
      "1700000200.0" (Clock.seconds 1700000200)
      study_session in
  let added :=
    add_schedule "Review" "notes" example_day (Clock.minutes 870)
      (Clock.minutes 930) "Study" "Medium"
      "1700000200.0" (Clock.seconds 1700000200)
      study_session in
  let conflicts :=
    filter (fun s => overlaps (Clock.minutes 870) (Clock.minutes 930)
                       example_day s = true)
      (schedules study_session) in
  (exists record,
     schedules added.1 = schedules study_session ++ [record] /\
     added.2 = schedule_id_of (length (schedules study_session))
                 "1700000200.0" /\
     s_id record = Some added.2 /\
     s_date record = Some example_day /\
     s_start_time record = Some (Clock.minutes 870) /\
     s_end_time record = Some (Clock.minutes 930) /\
     s_completed record = Some false /\
     s_started record = Some false /\
     s_missed_notified record = Some false /\
     truthy (s_auto_block_triggered record) = false /\
     truthy (s_auto_blocked record) = false /\
     forall x len ts,
       x ∈ schedules study_session ->
       s_id x = Some (schedule_id_of len ts) ->
       (len, ts) <> (length (schedules study_session),
                     "1700000200.0"%string) ->
       s_id x <> s_id record) /\
  ("Review"%string = ""%string -> form = (study_session, Return MissingTitle)) /\
  ("Review"%string <> ""%string -> Clock.minutes 930 <= Clock.minutes 870 ->
   form = (study_session, Return EndNotAfterStart)) /\
  ("Review"%string <> ""%string -> Clock.minutes 870 < Clock.minutes 930 ->
   (exists x, x ∈ schedules study_session
              /\ overlaps (Clock.minutes 870) (Clock.minutes 930)
                   example_day x = true) ->
   conflicts <> [] /\ form.1 = study_session /\
   ((forall c, c ∈ conflicts -> is_Some (s_title c)) ->
    form.2 = Return (ConflictError conflicts)) /\
   ((exists c, c ∈ conflicts /\ s_title c = None) ->
    form.2 = Raise (KeyError "title"))) /\
  ("Review"%string <> ""%string -> Clock.minutes 870 < Clock.minutes 930 ->
   (forall x, x ∈ schedules study_session ->
              overlaps (Clock.minutes 870) (Clock.minutes 930)
                example_day x = false) ->
   form = (added.1, Return (Added added.2))).
Proof.
  apply (add_schedule_behaviour "Review" "notes" example_day
           (Clock.minutes 870) (Clock.minutes 930) "Study" "Medium"
           "1700000200.0" (Clock.seconds 1700000200) study_session).
  repeat constructor; simpl; eauto.
Defined.

(** C5 does not hold as stated.  [add_schedule] appends a schedule from
    14:30 to 15:30 to a store that holds "Study" from 14:00 to 15:00 on
    the same day, and returns its id; the form, given an empty title
    and a free time slot, adds nothing; and the id is not always new:
    after "Study" has been deleted the store has one schedule again, so
    a schedule added while the clock shows the time stamp of "Overlap"
    once more (a clock that was set back) gets the id of "Overlap". *)
Lemma add_schedule_accepts_overlap :
  let st1 := (add_overlapping study_session).1 in
  let st2 := (Agenda.delete_schedule study_id st1).1 in
  let again :=
    add_schedule "Again" "" example_day (Clock.minutes 960)
      (Clock.minutes 1020) "Work" "High"
      "1700000100.0" (Clock.seconds 1700000100) st2 in
  overlaps (Clock.minutes 870) (Clock.minutes 930) example_day study = true /\
  length (schedules study_session) = 1%nat /\
  s_title <$> schedules st1 = [Some "Study"%string; Some "Overlap"%string] /\
  s_id <$> schedules st1
  = [Some "schedule_0_1700000000.0"%string;
     Some "schedule_1_1700000100.0"%string] /\
  (add_overlapping study_session).2 = "schedule_1_1700000100.0"%string /\
  s_title <$> schedules st2 = [Some "Overlap"%string] /\
  again.2 = "schedule_1_1700000100.0"%string /\
  s_title <$> schedules again.1
  = [Some "Overlap"%string; Some "Again"%string] /\
  s_id <$> schedules again.1
  = [Some "schedule_1_1700000100.0"%string;
     Some "schedule_1_1700000100.0"%string] /\
  check_schedule_conflict (Clock.minutes 960) (Clock.minutes 1020) example_day
    None study_session = Return [] /\
  submit_add_schedule "" "" example_day (Clock.minutes 960)
    (Clock.minutes 1020) "Work" "High"
    "1700000100.0" (Clock.seconds 1700000100) study_session
  = (study_session, Return MissingTitle).
Proof. by vm_compute. Qed.

End Adding.

(** ** The scenario of the specification, evaluated *)

Section Scenario.
Import Text WebsiteBlocker.

(** [auto_block_for_missed_schedules] keeps the flag when the blocker
    fails, and blocks on a later call that has administrator rights. *)
Lemma auto_block_for_missed_schedules_retries :
  let st := session_with [set_flag AutoBlockTriggered true study] in
  let r1 := AutoBlock.auto_block_for_missed_schedules default_blocked_sites
              "2025-01-01 14:11:00" st (unprivileged localhost_only) in
  let r2 := AutoBlock.auto_block_for_missed_schedules default_blocked_sites
              "2025-01-01 14:11:05" r1.1.1 (privileged localhost_only) in
  s_auto_block_triggered <$> schedules r1.1.1 = [Some true] /\
  s_auto_blocked <$> schedules r1.1.1 = [Some false] /\
  hosts r1.1.2 = localhost_only /\
  s_auto_blocked <$> schedules r2.1.1 = [Some true] /\
  is_blocking_active r2.1.2 = true.
Proof. by vm_compute. Qed.

(** The general statement about block and unblock, at the hosts file of
    the examples. *)
Lemma block_unblock_appends_newline_example :
  hosts (block_then_unblock default_blocked_sites "2025-01-01 14:11:00"
           (privileged localhost_only))
  = localhost_only +:+ nl.
Proof. by apply block_unblock_appends_newline; vm_compute. Qed.

(** "Study" from 14:00 to 15:00: a 10-minute warning at 13:50; at 14:11,
    not started, one auto-block notification and a successful blocking;
    after Start the flag is cleared and 14:30 brings nothing new. *)
Lemma study_scenario :
  let ids st := n_id <$> notifications st in
  let st1 :=
    (Enhanced.check_enhanced_schedule_notifications (at_minute 830)
       study_session).1 in
  let st2 :=
    (Enhanced.check_enhanced_schedule_notifications (at_minute 851) st1).1 in
  let r3 :=
    AutoBlock.handle_auto_blocking default_blocked_sites
      "2025-01-01 14:11:00" (at_minute 851) st2 (privileged localhost_only) in
  let st4 := Manager.click_start (at_minute 852) 0 r3.1.1 in
  let st5 :=
    (Enhanced.check_enhanced_schedule_notifications (at_minute 870) st4).1 in
  ids st1 = ["10min_" +:+ study_id] /\
  ids st2 = ["10min_" +:+ study_id; "auto_block_" +:+ study_id] /\
  s_auto_block_triggered <$> schedules st2 = [Some true] /\
  s_auto_blocked <$> schedules r3.1.1 = [Some true] /\
  is_blocking_active r3.1.2 = true /\
  s_started <$> schedules st4 = [Some true] /\
  s_auto_block_triggered <$> schedules st4 = [Some false] /\
  ids st5 = ids st2.
Proof. by vm_compute. Qed.

(** Three invocations inside the window of the 10-minute warning, each
    after the re-check interval, leave one warning in the list. *)
Lemma repeated_invocations_in_window :
  n_id <$>
    notifications
      (enhanced_run [at_second 830 0; at_second 830 30; at_second 831 0]
         study_session)
  = ["10min_" +:+ study_id].
Proof. by vm_compute. Qed.

End Scenario.

(** ** The hosts-file blocker: outcomes, idempotence, the site list *)

Section BlockerMore.
Import Text WebsiteBlocker.

Lemma blocking_entries_marked sites stamp :
  contains marker_start (join (blocking_entries sites stamp)) = true.
Proof.
  unfold blocking_entries. rewrite join_app.
  apply contains_app_l. unfold join. simpl. reflexivity.
Qed.

Lemma prefix_line m a R :
  newline_free m = true ->
  String.prefix m ((a +:+ nl) +:+ R) = String.prefix m (a +:+ nl).
Proof.
  revert a. induction m as [|c m IH]; intros a Hm.
  { by rewrite !prefix_nil. }
  simpl in Hm. apply andb_true_iff in Hm as [Hc Hm]. apply negb_true_iff in Hc.
  destruct a as [|x a].
  - simpl. destruct (ascii_dec c newline) as [->|]; [|done].
    by rewrite Ascii.eqb_refl in Hc.
  - rewrite !append_cons. simpl. destruct (ascii_dec c x); [by apply IH|done].
Qed.

(** A marker has no line break, so it cannot lie across the end of a
    line. *)
Lemma contains_line_break m a R :
  newline_free m = true -> m <> ""%string ->
  contains m ((a +:+ nl) +:+ R) = contains m (a +:+ nl) || contains m R.
Proof.
  intros Hm Hne. induction a as [|x a IH].
  - destruct m as [|c m]; [done|]. simpl in Hm.
    apply andb_true_iff in Hm as [Hc Hm']. apply negb_true_iff in Hc.
    change (("" +:+ nl) +:+ R) with (String newline R).
    change (contains (String c m) (String newline R))
      with (String.prefix (String c m) (String newline R)
            || contains (String c m) R).
    assert (Hp : forall r, String.prefix (String c m) (String newline r) = false).
    { intros r. simpl. destruct (ascii_dec c newline) as [->|]; [|done].
      by rewrite Ascii.eqb_refl in Hc. }
    rewrite Hp. change ("" +:+ nl) with (String newline "").
    change (contains (String c m) (String newline ""))
      with (String.prefix (String c m) (String newline "")
            || (String.prefix (String c m) "" || false)).
    by rewrite Hp.
  - rewrite !append_cons.
    change (contains m (String x ((a +:+ nl) +:+ R)))
      with (String.prefix m (String x ((a +:+ nl) +:+ R))
            || contains m ((a +:+ nl) +:+ R)).
    change (contains m (String x (a +:+ nl)))
      with (String.prefix m (String x (a +:+ nl)) || contains m (a +:+ nl)).
    rewrite IH. rewrite <- !append_cons.
    rewrite (prefix_line m (String x a) R) by done.
    by rewrite orb_assoc.
Qed.

Lemma split_lines_shaped s : line_shaped (split_lines s).
Proof.
  induction s as [|c s IH]; simpl; [done|].
  destruct (Ascii.eqb c newline) eqn:Hc.
  - apply Ascii.eqb_eq in Hc as ->. split; [|done]. left. by exists ""%string.
  - destruct (split_lines s) as [|l ls]; simpl in *; [by split; [right|]|].
    destruct IH as [[[a ->]| ->] IH]; (split; [|done]).
    + left. by exists (String c a).
    + by right.
Qed.

Lemma remove_section_shaped skip ls :
  line_shaped ls -> line_shaped (remove_blocking_section skip ls).
Proof.
  revert skip. induction ls as [|l ls IH]; intros skip; simpl; [done|].
  intros [Hl Hls].
  destruct (contains marker_start l); [by apply IH|].
  destruct (contains marker_end l); [by apply IH|].
  destruct skip; simpl; [by apply IH|].
  split; [|by apply IH].
  destruct Hl as [Hl| ->]; [by left|by right].
Qed.

Lemma remove_section_marker_free skip ls :
  Forall (fun l => marker_free l = true) (remove_blocking_section skip ls).
Proof.
  revert skip. induction ls as [|l ls IH]; intros skip; simpl; [done|].
  destruct (contains marker_start l) eqn:Hs; [by apply IH|].
  destruct (contains marker_end l) eqn:He; [by apply IH|].
  destruct skip; simpl; [by apply IH|].
  constructor; [|by apply IH]. unfold marker_free. by rewrite Hs, He.
Qed.

Lemma shaped_lines_contain m ls :
  newline_free m = true -> m <> ""%string ->
  line_shaped ls ->
  Forall (fun l => contains m l = false) ls ->
  contains m (join ls) = false.
Proof.
  intros Hm Hne. induction ls as [|l ls IH]; intros Hsh Hall.
  - by destruct m.
  - destruct Hsh as [Hl Hsh]. apply Forall_cons in Hall as [Hml Hall].
    change (join (l :: ls)) with (l +:+ join ls).
    destruct Hl as [[a ->]| ->].
    + rewrite contains_line_break by done. by rewrite Hml, IH.
    + change (join []) with ""%string. by rewrite append_nil_r.
Qed.

Lemma marker_free_start l : marker_free l = true -> contains marker_start l = false.
Proof. unfold marker_free. intros [H _]%andb_true_iff. by apply negb_true_iff. Qed.

Lemma marker_free_end l : marker_free l = true -> contains marker_end l = false.
Proof. unfold marker_free. intros [_ H]%andb_true_iff. by apply negb_true_iff. Qed.

(** The markers have no line end in them, so the translations of
    reading and writing do not touch them. *)
Lemma marker_free_native sep s :
  marker_free (native_newlines sep s) = marker_free s.
Proof. unfold marker_free. by rewrite !contains_native. Qed.

Lemma marker_free_universal s :
  marker_free (universal_newlines s) = marker_free s.
Proof. unfold marker_free. by rewrite !contains_universal. Qed.

(** What [unblock_websites] writes holds neither marker. *)
Lemma unblocked_text_marker_free ls :
  line_shaped ls ->
  marker_free (join (remove_blocking_section false ls)) = true.
Proof.
  intros Hsh. pose proof (remove_section_marker_free false ls) as Hfree.
  pose proof (remove_section_shaped false ls Hsh) as Hsh'.
  unfold marker_free at 1.
  rewrite !shaped_lines_contain; try done.
  - eapply Forall_impl; [exact Hfree|]. apply marker_free_end.
  - eapply Forall_impl; [exact Hfree|]. apply marker_free_start.
Qed.

(** On a text without markers the loop of [unblock_websites] keeps
    every line. *)
Lemma remove_section_marker_free_text txt :
  marker_free txt = true ->
  remove_blocking_section false (split_lines txt) = split_lines txt.
Proof.
  intros Hfree.
  pose proof (remove_section_keeps (split_lines txt) []) as H.
  rewrite app_nil_r in H. simpl in H. rewrite app_nil_r in H. apply H.
  pose proof (marker_free_start _ Hfree) as Hs.
  pose proof (marker_free_end _ Hfree) as He.
  rewrite <- (join_split_lines txt) in Hs, He.
  apply contains_lines in Hs, He. rewrite Forall_forall in Hs, He.
  apply Forall_forall. auto.
Qed.

(** Everything that [writelines] leaves in the file can be read
    again. *)
Lemma writelines_in_codec sep w lines :
  all_chars (in_codec w) (writelines sep (in_codec w) lines).1 = true.
Proof.
  induction lines as [|l ls IH]; [done|]. simpl.
  destruct (all_chars (in_codec w) l) eqn:Hl; [|done]. simpl.
  rewrite all_chars_app, IH, andb_true_r.
  by apply all_chars_native.
Qed.

(** [writelines] either writes every line, or stops in front of the
    first line that the codec cannot encode. *)
Lemma writelines_cases sep codec lines :
  (forallb (all_chars codec) lines = true /\
   writelines sep codec lines = (native_newlines sep (join lines), true))
  \/ exists written bad rest,
       lines = written ++ bad :: rest /\
       forallb (all_chars codec) written = true /\
       all_chars codec bad = false /\
       writelines sep codec lines
       = (native_newlines sep (join written), false).
Proof.
  induction lines as [|l ls IH]; [by left|].
  destruct (all_chars codec l) eqn:Hl.
  - destruct IH as [[Hall Hw]|(written & bad & rest & -> & Hall & Hbad & Hw)].
    + left. split; [by simpl; rewrite Hl|].
      apply writelines_all. simpl. by rewrite Hl.
    + right. exists (l :: written), bad, rest. repeat split; try done.
      * simpl. by rewrite Hl.
      * apply (writelines_stops sep codec (l :: written)); [|done].
        simpl. by rewrite Hl.
  - right. exists [], l, ls. repeat split; try done.
    simpl. by rewrite Hl.
Qed.

(** The outcomes of [unblock_websites]: it fails and leaves everything
    as it is, or it writes back the lines that it read, without the
    section, with the line separator of the system. *)
Lemma unblock_websites_cases w :
  ((unblock_websites w).1 = w /\ success (unblock_websites w).2 = false /\
   (is_admin w = false \/ _read_hosts_file w = None
    \/ hosts_writable w = false))
  \/ exists lines,
       is_admin w = true /\ hosts_writable w = true /\
       _read_hosts_file w = Some lines /\
       (unblock_websites w).1
       = set_hosts w
           (native_newlines (linesep w)
              (join (remove_blocking_section false lines))) /\
       success (unblock_websites w).2 = true.
Proof.
  unfold unblock_websites, _check_admin_privileges.
  destruct (is_admin w) eqn:Ha; simpl; [|left; auto].
  destruct (_read_hosts_file w) as [lines|] eqn:Hread; [|left; auto].
  unfold _write_hosts_file.
  destruct (hosts_writable w) eqn:Hw; [|left; auto].
  destruct (read_hosts_file_lines w lines Hread) as (_ & _ & Henc & _).
  rewrite (writelines_all _ _ (remove_blocking_section false lines))
    by (by apply remove_section_forallb).
  right. exists lines. by repeat split.
Qed.

(** After a successful [unblock_websites] the file holds the text
    [txt] that is left of the text read, and reads as [txt] again. *)
Lemma unblock_websites_success w :
  success (unblock_websites w).2 = true ->
  exists txt,
    is_admin w = true /\ hosts_writable w = true /\
    hosts_readable w = true /\
    txt = join (remove_blocking_section false
                  (split_lines (universal_newlines (hosts w)))) /\
    (unblock_websites w).1
    = set_hosts w (native_newlines (linesep w) txt) /\
    cr_free txt = true /\ marker_free txt = true /\
    all_chars (in_codec w) txt = true.
Proof.
  intros Hs.
  destruct (unblock_websites_cases w)
    as [(_ & Hf & _)|(lines & Ha & Hw & Hread & Hw' & _)];
    [by rewrite Hf in Hs|].
  destruct (read_hosts_file_lines w lines Hread) as (Hr & -> & Henc & Hcr).
  eexists. repeat split; try done.
  - unfold cr_free. rewrite all_chars_join.
    by apply remove_section_forallb.
  - apply unblocked_text_marker_free, split_lines_shaped.
  - rewrite all_chars_join. by apply remove_section_forallb.
Qed.

(** X1: what [block_websites] leaves behind.  When it reports success
    blocking is active and the result lists the sites: either it was
    active before and nothing is written, or the file now holds the text
    that was read, followed by the section, with the line separator of
    the system.  When it reports failure the result lists no site, and
    either nothing has changed (no administrator rights, file not
    readable or not writable) or the file had been opened for writing
    when a line of the section could not be encoded: then the file holds
    the text that was read and the lines of the section in front of that
    line, the start marker among them, so that blocking counts as
    active although the call failed. *)
Theorem block_websites_outcome sites stamp w :
  let w' := (block_websites sites stamp w).1 in
  let r := (block_websites sites stamp w).2 in
  let old := universal_newlines (hosts w) in
  if success r
  then is_blocking_active w' = true /\ blocked_sites r = sites /\
       ((is_blocking_active w = true /\ w' = w) \/
        (is_blocking_active w = false /\
         w' = set_hosts w
                (native_newlines (linesep w)
                   (old +:+ join (blocking_entries sites stamp)))))
  else blocked_sites r = [] /\
       (w' = w \/
        exists written bad rest,
          blocking_entries sites stamp = written ++ bad :: rest /\
          all_chars (in_codec w) bad = false /\
          w' = set_hosts w
                 (native_newlines (linesep w) (old +:+ join written)) /\
          is_blocking_active w' = true).
Proof.
  unfold block_websites, _check_admin_privileges.
  set (first := nl +:+ marker_start +:+ nl).
  set (tail := tl (blocking_entries sites stamp)).
  assert (Hentries : blocking_entries sites stamp = first :: tail)
    by reflexivity.
  assert (Hfirst : all_chars (in_codec w) first = true) by reflexivity.
  assert (Hmark : contains marker_start first = true) by reflexivity.
  clearbody first tail. rewrite !Hentries. clear Hentries.
  destruct (is_admin w) eqn:Ha; simpl; [|by auto].
  destruct (_read_hosts_file w) as [lines|] eqn:Hread; [|by simpl; auto].
  destruct (read_hosts_file_lines w lines Hread) as (Hr & -> & Henc & Hcr).
  destruct (is_blocking_active w) eqn:Hact; simpl; [by auto|].
  unfold _write_hosts_file.
  destruct (hosts_writable w) eqn:Hw; [|by simpl; auto].
  assert (Hactive : forall txt,
    all_chars (in_codec w) txt = true ->
    is_blocking_active
      (set_hosts w
         (native_newlines (linesep w)
            (universal_newlines (hosts w) +:+ first +:+ txt))) = true).
  { intros txt Htxt. rewrite is_blocking_active_set_hosts, Hr.
    rewrite contains_native by done.
    rewrite (contains_app_r marker_start (universal_newlines (hosts w)))
      by (by apply contains_app_l).
    rewrite andb_true_r. simpl. apply all_chars_native; try done.
    rewrite !all_chars_app, Hfirst, Htxt, andb_true_r.
    by rewrite <- all_chars_split_lines. }
  destruct (writelines_cases (linesep w) (in_codec w) tail)
    as [[Hall Hwr]|(written & bad & rest & Htail & Hall & Hbad & Hwr)].
  - rewrite (writelines_all _ _ (_ ++ first :: tail)).
    2:{ rewrite forallb_app, Henc. simpl. by rewrite Hfirst, Hall. }
    simpl. rewrite join_app, join_split_lines.
    change (join (first :: tail)) with (first +:+ join tail).
    split; [|split; [done|by right]].
    apply Hactive. by rewrite all_chars_join.
  - rewrite Htail.
    replace (split_lines (universal_newlines (hosts w))
             ++ first :: written ++ bad :: rest)
      with ((split_lines (universal_newlines (hosts w)) ++ first :: written)
            ++ bad :: rest) by (by rewrite <- app_assoc).
    rewrite (writelines_stops _ _ (_ ++ first :: written) bad rest); try done.
    2:{ rewrite forallb_app, Henc. simpl. by rewrite Hfirst, Hall. }
    simpl. rewrite join_app, join_split_lines.
    change (join (first :: written)) with (first +:+ join written).
    split; [done|]. right. exists (first :: written), bad, rest.
    repeat split; try done.
    apply Hactive. by rewrite all_chars_join.
Qed.

(** The second branch of X1 is taken: under a locale whose codec is
    ASCII, with the site list "youtube.com", a site name with a letter
    beyond ASCII, "x.com", [block_websites] reports failure, and the
    file holds its old line, the start marker, the comment and the line
    of the first site; [is_blocking_active] answers yes, and a second
    call reports success without writing the other sites or the end
    marker. *)
Lemma block_websites_partial_write :
  let sites := ["youtube.com"; umlaut_site; "x.com"]%string in
  let stamp := "2025-01-01 10:00:00"%string in
  let w := ascii_locale localhost_only in
  let w' := (block_websites sites stamp w).1 in
  success (block_websites sites stamp w).2 = false /\
  split_lines (hosts w')
  = [localhost_only; nl; marker_start +:+ nl;
     "# Added by Focus Timer on 2025-01-01 10:00:00" +:+ nl;
     "127.0.0.1 youtube.com" +:+ nl] /\
  is_blocking_active w' = true /\
  success (block_websites sites stamp w').2 = true /\
  (block_websites sites stamp w').1 = w'.
Proof. by vm_compute. Qed.

(** [block_websites] leaves everything as it is without administrator
    rights, on a file that it cannot read or cannot open for writing,
    and while blocking is active. *)
Lemma block_websites_noop sites stamp w :
  is_admin w = false \/ _read_hosts_file w = None
  \/ is_blocking_active w = true \/ hosts_writable w = false ->
  (block_websites sites stamp w).1 = w.
Proof.
  unfold block_websites, _check_admin_privileges, _write_hosts_file.
  intros H.
  destruct (is_admin w); [|done]. simpl.
  destruct (_read_hosts_file w); [|done].
  destruct (is_blocking_active w); [done|].
  destruct (hosts_writable w); [|done].
  by destruct H as [H|[H|[H|H]]].
Qed.

(** Otherwise the file is opened and written, and then holds the start
    marker, whether the call succeeds or not. *)
Lemma block_websites_writes sites stamp w :
  is_admin w = true -> is_blocking_active w = false ->
  hosts_writable w = true -> _read_hosts_file w <> None ->
  exists txt,
    (block_websites sites stamp w).1 = set_hosts w txt /\
    all_chars (in_codec w) txt = true /\
    contains marker_start txt = true.
Proof.
  intros Ha Hact Hw Hread.
  destruct (_read_hosts_file w) as [lines|] eqn:Hlines; [|done].
  destruct (read_hosts_file_lines w lines Hlines) as (Hr & _ & Henc & _).
  unfold block_websites, _check_admin_privileges, _write_hosts_file.
  rewrite Ha, Hlines, Hact, Hw. cbn [negb].
  set (written :=
    writelines (linesep w) (in_codec w)
      (lines ++ blocking_entries sites stamp)).
  exists written.1. split; [by destruct written as [txt []]|].
  split; [apply writelines_in_codec|]. unfold written.
  change (blocking_entries sites stamp)
    with ([nl +:+ marker_start +:+ nl]
          ++ tl (blocking_entries sites stamp)).
  rewrite app_assoc, writelines_app.
  2:{ rewrite forallb_app, Henc. reflexivity. }
  cbn [fst]. apply contains_app_l. rewrite contains_native by done.
  rewrite join_app. apply contains_app_r. reflexivity.
Qed.

(** X2: a second call of [block_websites] never changes the hosts file
    again, whatever site list and time stamp it is given: once the
    section is written, a changed list of sites is not written until the
    sites have been unblocked. *)
Theorem block_websites_idempotent sites stamp sites' stamp' w :
  (block_websites sites' stamp' (block_websites sites stamp w).1).1
  = (block_websites sites stamp w).1.
Proof.
  destruct (is_admin w) eqn:Ha.
  2:{ rewrite (block_websites_noop sites stamp w) by auto.
      apply block_websites_noop. auto. }
  destruct (_read_hosts_file w) as [lines|] eqn:Hread.
  2:{ rewrite (block_websites_noop sites stamp w) by auto.
      apply block_websites_noop. auto. }
  destruct (is_blocking_active w) eqn:Hact.
  { rewrite (block_websites_noop sites stamp w) by auto.
    apply block_websites_noop. auto. }
  destruct (hosts_writable w) eqn:Hw.
  2:{ rewrite (block_websites_noop sites stamp w) by auto.
      apply block_websites_noop. auto. }
  destruct (read_hosts_file_lines w lines Hread) as (Hr & _ & _ & _).
  destruct (block_websites_writes sites stamp w Ha Hact Hw)
    as (txt & -> & Henc & Hmark); [by rewrite Hread|].
  apply block_websites_noop. right. right. left.
  by rewrite is_blocking_active_set_hosts, Hr, Henc, Hmark.
Qed.

(** X3: [unblock_websites] either succeeds or changes nothing.  When it
    reports success the file it wrote holds neither marker, whatever the
    file held before, so [is_blocking_active] answers no; when it
    reports failure the operating system is exactly as before. *)
Theorem unblocking_outcome w :
  let w' := (unblock_websites w).1 in
  if success (unblock_websites w).2
  then is_blocking_active w' = false /\ marker_free (hosts w') = true
  else w' = w.
Proof.
  simpl. destruct (success (unblock_websites w).2) eqn:Hs.
  - destruct (unblock_websites_success w Hs)
      as (txt & _ & _ & _ & _ & -> & _ & Hfree & _).
    rewrite is_blocking_active_set_hosts. simpl.
    rewrite marker_free_native, contains_native by done.
    by rewrite (marker_free_start _ Hfree), andb_false_r.
  - destruct (unblock_websites_cases w)
      as [(Hsame & _)|(lines & _ & _ & _ & _ & Hok)]; [done|].
    by rewrite Hok in Hs.
Qed.

(** X4: on a hosts file that holds neither marker [unblock_websites]
    keeps every line.  When it succeeds the file holds the text that
    was read, written with the line separator of the system; whether it
    succeeds or not the file reads as before; and a file that had the
    line separator of the system throughout is left as it was,
    character for character. *)
Theorem unblock_without_markers w :
  marker_free (hosts w) = true ->
  let w' := (unblock_websites w).1 in
  (if success (unblock_websites w).2
   then w' = set_hosts w
               (native_newlines (linesep w) (universal_newlines (hosts w)))
   else w' = w) /\
  universal_newlines (hosts w') = universal_newlines (hosts w) /\
  (forall txt, cr_free txt = true ->
     hosts w = native_newlines (linesep w) txt -> w' = w).
Proof.
  intros Hfree. simpl.
  destruct (success (unblock_websites w).2) eqn:Hs.
  - destruct (unblock_websites_success w Hs)
      as (txt & _ & _ & _ & Htxt & -> & _ & _ & _).
    rewrite remove_section_marker_free_text in Htxt
      by (by rewrite marker_free_universal).
    rewrite join_split_lines in Htxt. subst txt.
    split; [done|]. split.
    + simpl. apply universal_native, universal_newlines_cr_free.
    + intros txt Hcr Hnative.
      rewrite Hnative, universal_native by done.
      rewrite <- Hnative. apply set_hosts_same.
  - destruct (unblock_websites_cases w)
      as [(Hsame & _)|(lines & _ & _ & _ & _ & Hok)];
      [|by rewrite Hok in Hs].
    by rewrite Hsame.
Qed.

Lemma unblock_without_markers_witness :
  let w := privileged ("127.0.0.1 localhost" +:+ crlf) in
  marker_free (hosts w) = true /\
  (let w' := (unblock_websites w).1 in
   (if success (unblock_websites w).2
    then w' = set_hosts w
                (native_newlines (linesep w)
                   (universal_newlines (hosts w)))
    else w' = w) /\
   universal_newlines (hosts w') = universal_newlines (hosts w) /\
   (forall txt, cr_free txt = true ->
      hosts w = native_newlines (linesep w) txt -> w' = w)) /\
  hosts (unblock_websites w).1 = localhost_only.
Proof.
  intros w. split; [reflexivity|]. split; [|reflexivity].
  apply (unblock_without_markers w). reflexivity.
Defined.

(** X5: unblocking twice is the same as unblocking once. *)
Theorem unblocking_is_idempotent w :
  (unblock_websites (unblock_websites w).1).1 = (unblock_websites w).1.
Proof.
  destruct (success (unblock_websites w).2) eqn:Hs.
  2:{ destruct (unblock_websites_cases w)
        as [(Hsame & _)|(lines & _ & _ & _ & _ & Hok)];
        [|by rewrite Hok in Hs].
      by rewrite !Hsame. }
  destruct (unblock_websites_success w Hs)
    as (txt & Ha & Hw & Hr & _ & -> & Hcr & Hfree & Henc).
  set (w1 := set_hosts w (native_newlines (linesep w) txt)).
  assert (Hread : _read_hosts_file w1 = Some (split_lines txt)).
  { unfold w1. rewrite read_set_hosts, Hr.
    rewrite all_chars_native by done. simpl.
    by rewrite universal_native. }
  destruct (unblock_websites_cases w1)
    as [(_ & _ & [H|[H|H]])|(lines & _ & _ & Hread' & -> & _)].
  - unfold w1 in H. simpl in H. congruence.
  - congruence.
  - unfold w1 in H. simpl in H. congruence.
  - rewrite Hread in Hread'. injection Hread' as <-.
    rewrite remove_section_marker_free_text, join_split_lines by done.
    reflexivity.
Qed.

Lemma proper_line_spec l :
  proper_line l = true ->
  exists a, l = a +:+ nl /\ newline_free a = true.
Proof.
  induction l as [|c l IH]; simpl; [done|].
  destruct (Ascii.eqb c newline) eqn:Hc.
  - intros ->%String.eqb_eq. apply Ascii.eqb_eq in Hc as ->.
    by exists ""%string.
  - intros [a [-> Ha]]%IH. exists (String c a). split; [done|].
    simpl. by rewrite Hc.
Qed.

Lemma split_lines_open_line l :
  open_line l = true -> split_lines l = [l].
Proof.
  unfold open_line. intros [Hne Hfree]%andb_true_iff.
  induction l as [|c l IH]; [done|].
  apply newline_free_cons in Hfree as [Hc Hfree]. simpl. rewrite Hc.
  destruct l as [|c' l]; [done|]. by rewrite IH.
Qed.

(** Lines that came out of [split_lines] are cut in the same way when
    they are read again. *)
Lemma split_lines_join ls :
  well_split ls = true -> split_lines (join ls) = ls.
Proof.
  induction ls as [|l ls IH]; [done|]. simpl.
  change (join (l :: ls)) with (l +:+ join ls).
  destruct ls as [|l' ls].
  - change (join []) with ""%string. rewrite append_nil_r.
    intros [Hl|Hl]%orb_true_iff.
    + destruct (proper_line_spec l Hl) as [a [-> Ha]].
      by apply split_lines_one_line.
    + by apply split_lines_open_line.
  - intros [Hl Hls]%andb_true_iff.
    destruct (proper_line_spec l Hl) as [a [-> Ha]].
    by rewrite split_lines_app_nl, split_lines_one_line, IH.
Qed.

Lemma well_split_cons l l' r :
  well_split (l :: l' :: r) = proper_line l && well_split (l' :: r).
Proof. reflexivity. Qed.

Lemma well_split_one l : well_split [l] = proper_line l || open_line l.
Proof. reflexivity. Qed.

Lemma proper_line_cons c l :
  Ascii.eqb c newline = false ->
  proper_line (String c l) = proper_line l.
Proof. simpl. by intros ->. Qed.

Lemma open_line_cons c l :
  Ascii.eqb c newline = false ->
  open_line (String c l) = newline_free l.
Proof. unfold open_line. simpl. by intros ->. Qed.

Lemma split_lines_well_split s : well_split (split_lines s) = true.
Proof.
  induction s as [|c s IH]; [done|]. cbn [split_lines].
  destruct (Ascii.eqb c newline) eqn:Hc.
  - apply Ascii.eqb_eq in Hc as ->.
    destruct (split_lines s) as [|l ls]; [done|].
    by rewrite well_split_cons, IH.
  - destruct (split_lines s) as [|l ls].
    { by rewrite well_split_one, open_line_cons, orb_true_r. }
    destruct ls as [|l' ls].
    + rewrite well_split_one in *.
      rewrite proper_line_cons, open_line_cons by done.
      apply orb_true_iff in IH as [->|H]; [done|].
      unfold open_line in H. apply andb_true_iff in H as [_ ->].
      by rewrite orb_true_r.
    + rewrite well_split_cons in *. by rewrite proper_line_cons.
Qed.

Lemma well_split_app_r a b :
  well_split (a ++ b) = true -> well_split b = true.
Proof.
  induction a as [|l a IH]; [done|]. simpl.
  destruct (a ++ b) as [|l' r] eqn:Hab.
  - apply app_eq_nil in Hab as [_ ->]. done.
  - intros [_ H]%andb_true_iff. by apply IH.
Qed.

Lemma well_split_app_l a l b :
  well_split (a ++ l :: b) = true -> forallb proper_line a = true.
Proof.
  induction a as [|x a IH]; [done|]. simpl.
  destruct (a ++ l :: b) as [|l' r] eqn:Hab.
  { by destruct a. }
  intros [-> H]%andb_true_iff. by apply IH.
Qed.

Lemma well_split_app a b :
  forallb proper_line a = true -> well_split b = true ->
  well_split (a ++ b) = true.
Proof.
  intros Ha Hb. induction a as [|x a IH]; [done|].
  simpl in Ha. apply andb_true_iff in Ha as [Hx Ha]. simpl.
  destruct (a ++ b) as [|l' r] eqn:Hab.
  - by rewrite Hx.
  - rewrite Hx. by apply IH.
Qed.

Lemma forallb_marker_free ls :
  forallb marker_free ls = true ->
  Forall (fun line => contains marker_start line = false
                      /\ contains marker_end line = false) ls.
Proof.
  rewrite forallb_forall, Forall_forall. intros H l Hl.
  apply list_elem_of_In, H in Hl.
  split; [by apply marker_free_start|by apply marker_free_end].
Qed.

Lemma forallb_no_end ls :
  forallb (fun l => negb (contains marker_end l)) ls = true ->
  Forall (fun line => contains marker_end line = false) ls.
Proof.
  rewrite forallb_forall, Forall_forall. intros H l Hl.
  apply list_elem_of_In, H in Hl. by apply negb_true_iff.
Qed.

Lemma remove_section_start skip l rest :
  contains marker_start l = true ->
  remove_blocking_section skip (l :: rest)
  = remove_blocking_section true rest.
Proof. simpl. by intros ->. Qed.

Lemma remove_section_end skip l rest :
  contains marker_start l = false -> contains marker_end l = true ->
  remove_blocking_section skip (l :: rest)
  = remove_blocking_section false rest.
Proof. simpl. by intros -> ->. Qed.

(** The file that a successful [unblock_websites] leaves reads as the
    lines that were kept. *)
Lemma unblocked_file_reads w lines kept :
  is_admin w = true -> hosts_writable w = true ->
  _read_hosts_file w = Some lines ->
  remove_blocking_section false lines = kept ->
  well_split kept = true ->
  success (unblock_websites w).2 = true /\
  hosts (unblock_websites w).1
  = native_newlines (linesep w) (join kept) /\
  _read_hosts_file (unblock_websites w).1 = Some kept.
Proof.
  intros Ha Hw Hread Hkept Hsplit.
  destruct (read_hosts_file_lines w lines Hread) as (Hr & _ & Henc & Hcr).
  destruct (unblock_websites_cases w)
    as [(_ & _ & [H|[H|H]])|(lines' & _ & _ & Hread' & -> & Hok)];
    try congruence.
  rewrite Hread in Hread'. injection Hread' as <-. rewrite Hkept.
  split; [done|]. split; [done|].
  assert (Henc' : forallb (all_chars (in_codec w)) kept = true)
    by (rewrite <- Hkept; by apply remove_section_forallb).
  assert (Hcr' : forallb cr_free kept = true)
    by (rewrite <- Hkept; by apply remove_section_forallb).
  rewrite read_set_hosts, Hr.
  rewrite all_chars_native; try done.
  2:{ by rewrite all_chars_join. }
  simpl. rewrite universal_native.
  2:{ unfold cr_free. by rewrite all_chars_join. }
  by rewrite split_lines_join.
Qed.

(** X6: a hosts file is read as lines with one section between a line
    holding the start marker and a later line holding the end marker,
    and no marker outside it.  Then [unblock_websites], run as
    administrator on a writable file, writes back exactly the lines
    before and after the section, in their order, with the line
    separator of the system, and the file reads as those lines
    afterwards. *)
Theorem unblock_removes_the_section pre start_line mid end_line post w :
  is_admin w = true -> hosts_writable w = true ->
  _read_hosts_file w
  = Some (pre ++ [start_line] ++ mid ++ [end_line] ++ post) ->
  forallb marker_free pre = true ->
  contains marker_start start_line = true ->
  forallb (fun l => negb (contains marker_end l)) mid = true ->
  contains marker_start end_line = false ->
  contains marker_end end_line = true ->
  forallb marker_free post = true ->
  success (unblock_websites w).2 = true /\
  hosts (unblock_websites w).1
  = native_newlines (linesep w) (join (pre ++ post)) /\
  _read_hosts_file (unblock_websites w).1 = Some (pre ++ post).
Proof.
  intros Ha Hw Hread Hpre Hstart Hmid Hend1 Hend2 Hpost.
  destruct (read_hosts_file_lines w _ Hread) as (_ & Hlines & _ & _).
  pose proof (split_lines_well_split (universal_newlines (hosts w)))
    as Hsplit. rewrite <- Hlines in Hsplit.
  apply (unblocked_file_reads w _ _ Ha Hw Hread).
  - rewrite (remove_section_keeps pre) by (by apply forallb_marker_free).
    change ([start_line] ++ mid ++ [end_line] ++ post)
      with (start_line :: mid ++ [end_line] ++ post).
    rewrite remove_section_start by done.
    rewrite (remove_section_skips mid) by (by apply forallb_no_end).
    change ([end_line] ++ post) with (end_line :: post).
    rewrite remove_section_end by done.
    pose proof (remove_section_keeps post [] (forallb_marker_free _ Hpost))
      as H.
    rewrite app_nil_r in H. simpl in H. rewrite app_nil_r in H.
    by rewrite H.
  - apply well_split_app.
    + by apply (well_split_app_l pre start_line
                  (mid ++ [end_line] ++ post)).
    + apply (well_split_app_r (pre ++ [start_line] ++ mid ++ [end_line])).
      by rewrite <- !app_assoc.
Qed.

(** X7: when the line with the start marker is not followed by a line
    with the end marker, [unblock_websites] drops every line from the
    start marker to the end of the file: the loop's [skip] flag is never
    cleared. *)
Theorem unblock_unterminated_section pre start_line rest w :
  is_admin w = true -> hosts_writable w = true ->
  _read_hosts_file w = Some (pre ++ [start_line] ++ rest) ->
  forallb marker_free pre = true ->
  contains marker_start start_line = true ->
  forallb (fun l => negb (contains marker_end l)) rest = true ->
  success (unblock_websites w).2 = true /\
  hosts (unblock_websites w).1 = native_newlines (linesep w) (join pre) /\
  _read_hosts_file (unblock_websites w).1 = Some pre.
Proof.
  intros Ha Hw Hread Hpre Hstart Hrest.
  destruct (read_hosts_file_lines w _ Hread) as (_ & Hlines & _ & _).
  pose proof (split_lines_well_split (universal_newlines (hosts w)))
    as Hsplit. rewrite <- Hlines in Hsplit.
  apply (unblocked_file_reads w _ _ Ha Hw Hread).
  - rewrite (remove_section_keeps pre) by (by apply forallb_marker_free).
    change ([start_line] ++ rest) with (start_line :: rest).
    rewrite remove_section_start by done.
    pose proof (remove_section_skips rest [] (forallb_no_end _ Hrest)) as H.
    rewrite app_nil_r in H. simpl in H. by rewrite H, app_nil_r.
  - pose proof (well_split_app_l pre start_line rest Hsplit) as H.
    rewrite <- (app_nil_r pre). by apply well_split_app.
Qed.

Lemma unblock_removes_the_section_witness :
  let pre := [localhost_only] in
  let start_line := marker_start +:+ nl in
  let mid := ["127.0.0.1 youtube.com" +:+ nl] in
  let end_line := marker_end +:+ nl in
  let post := ["::1 localhost" +:+ nl] in
  let w :=
    windows
      ("127.0.0.1 localhost" +:+ crlf +:+ marker_start +:+ crlf +:+
       "127.0.0.1 youtube.com" +:+ crlf +:+ marker_end +:+ crlf +:+
       "::1 localhost" +:+ crlf) in
  success (unblock_websites w).2 = true /\
  hosts (unblock_websites w).1
  = native_newlines (linesep w) (join (pre ++ post)) /\
  _read_hosts_file (unblock_websites w).1 = Some (pre ++ post).
Proof.
  intros pre start_line mid end_line post w.
  apply (unblock_removes_the_section pre start_line mid end_line post w);
    reflexivity.
Defined.

Lemma unblock_unterminated_section_witness :
  let pre := [localhost_only] in
  let start_line := marker_start +:+ nl in
  let rest := ["127.0.0.1 youtube.com" +:+ nl; "::1 localhost" +:+ nl] in
  let w := privileged (join (pre ++ [start_line] ++ rest)) in
  success (unblock_websites w).2 = true /\
  hosts (unblock_websites w).1 = native_newlines (linesep w) (join pre) /\
  _read_hosts_file (unblock_websites w).1 = Some pre.
Proof.
  intros pre start_line rest w.
  apply (unblock_unterminated_section pre start_line rest w); reflexivity.
Defined.

End BlockerMore.

Section Sites.
Import SiteList.

Lemma remove_absent x l : x ∉ l -> remove x l = l.
Proof.
  induction l as [|y l IH]; simpl; [done|].
  intros [Hy Hl]%not_elem_of_cons.
  destruct (String.eqb y x) eqn:E; [by apply String.eqb_eq in E|].
  by rewrite IH.
Qed.

Lemma remove_appended x l t : x ∉ l -> remove x (l ++ x :: t) = l ++ t.
Proof.
  induction l as [|y l IH]; simpl.
  - by rewrite String.eqb_refl.
  - intros [Hy Hl]%not_elem_of_cons.
    destruct (String.eqb y x) eqn:E; [by apply String.eqb_eq in E|].
    by rewrite IH.
Qed.

Lemma elem_of_remove y x l : y ∈ remove x l -> y ∈ l.
Proof.
  induction l as [|z l IH]; simpl; [done|].
  destruct (String.eqb z x); [by right|].
  intros [->|H]%elem_of_cons; [left|right; by apply IH].
Qed.

Lemma elem_of_remove_other y x l : y <> x -> y ∈ l -> y ∈ remove x l.
Proof.
  intros Hne. induction l as [|z l IH]; simpl; [done|].
  destruct (String.eqb z x) eqn:E.
  - apply String.eqb_eq in E as ->. by intros [->|H]%elem_of_cons.
  - intros [->|H]%elem_of_cons; [left|right; by apply IH].
Qed.

Lemma NoDup_remove x l : NoDup l -> NoDup (remove x l) /\ x ∉ remove x l.
Proof.
  induction 1 as [|y l Hy Hl IH]; simpl; [split; [constructor|by intros ?%elem_of_nil]|].
  destruct (String.eqb y x) eqn:E.
  - apply String.eqb_eq in E as ->. done.
  - destruct IH as [IH1 IH2]. split.
    + constructor; [|done]. intros ?%elem_of_remove. done.
    + intros [->|?]%elem_of_cons; [by rewrite String.eqb_refl in E|done].
Qed.

(** X8: [add_site] on a list without duplicates gives a list without
    duplicates that holds the site; it only appends, so the entries
    already there keep their places; a site that was not listed brings
    its www variant with it; and adding the same site again changes
    nothing. *)
Theorem add_site_keeps_the_list_duplicate_free site l :
  NoDup l ->
  NoDup (add_site site l) /\
  site ∈ add_site site l /\
  (exists added, add_site site l = l ++ added) /\
  (site ∉ l -> www_site site ∈ add_site site l) /\
  add_site site (add_site site l) = add_site site l.
Proof.
  intros Hl. unfold add_site.
  destruct (decide (site ∈ l)) as [Hin|Hout].
  { repeat split; try done.
    - exists []. by rewrite app_nil_r.
    - by rewrite decide_True. }
  assert (Hl1 : NoDup (l ++ [site])).
  { apply NoDup_app. repeat split; [done| |apply NoDup_singleton].
    intros x Hx ->%list_elem_of_singleton. done. }
  assert (Hs1 : site ∈ l ++ [site]) by (apply elem_of_app; right; left).
  destruct (decide (www_site site ∈ l ++ [site])) as [Hw|Hw].
  { repeat split; try done.
    - by exists [site].
    - by rewrite decide_True. }
  repeat split.
  - apply NoDup_app. repeat split; [done| |apply NoDup_singleton].
    intros x Hx ->%list_elem_of_singleton. done.
  - apply elem_of_app. by left.
  - exists [site; www_site site]. by rewrite <- app_assoc.
  - intros _. apply elem_of_app. right. left.
  - rewrite decide_True; [done|]. apply elem_of_app. by left.
Qed.

Lemma add_site_keeps_the_list_duplicate_free_witness :
  let l := WebsiteBlocker.default_blocked_sites in
  NoDup (add_site "example.org" l) /\
  "example.org"%string ∈ add_site "example.org" l /\
  (exists added, add_site "example.org" l = l ++ added) /\
  ("example.org"%string ∉ l ->
   www_site "example.org" ∈ add_site "example.org" l) /\
  add_site "example.org" (add_site "example.org" l)
  = add_site "example.org" l.
Proof.
  intros l.
  apply (add_site_keeps_the_list_duplicate_free "example.org" l).
  apply (bool_decide_unpack _). vm_compute. exact I.
Defined.

(** X9: [remove_site] undoes [add_site]: when neither the site nor its
    www variant was listed, adding the site and removing it again gives
    the list back. *)
Theorem remove_site_undoes_add_site site l :
  site ∉ l -> www_site site ∉ l ->
  remove_site site (add_site site l) = l.
Proof.
  intros Hs Hw. unfold add_site. rewrite decide_False by done.
  destruct (decide (www_site site ∈ l ++ [site])) as [Hin|Hout].
  - apply elem_of_app in Hin as [?|Hin]; [done|].
    apply list_elem_of_singleton in Hin.
    unfold remove_site.
    destruct (decide (site ∈ l ++ [site])) as [_|Hn];
      [|exfalso; apply Hn, elem_of_app; right; left].
    rewrite remove_appended by done. rewrite app_nil_r.
    by rewrite decide_False.
  - unfold remove_site. rewrite <- app_assoc. simpl.
    destruct (decide (site ∈ l ++ [site; www_site site])) as [_|Hn];
      [|exfalso; apply Hn, elem_of_app; right; left].
    rewrite remove_appended by done.
    destruct (decide (www_site site ∈ l ++ [www_site site])) as [_|Hn];
      [|exfalso; apply Hn, elem_of_app; right; left].
    rewrite remove_appended by done. by rewrite app_nil_r.
Qed.

Lemma remove_site_undoes_add_site_witness :
  remove_site "example.org"
    (add_site "example.org" WebsiteBlocker.default_blocked_sites)
  = WebsiteBlocker.default_blocked_sites.
Proof.
  apply (remove_site_undoes_add_site "example.org"
           WebsiteBlocker.default_blocked_sites).
  - apply (bool_decide_unpack _). vm_compute. exact I.
  - apply (bool_decide_unpack _). vm_compute. exact I.
Defined.

(** X10: on a list without duplicates [remove_site] removes the site and
    its www variant and nothing else. *)
Theorem remove_site_removes site l :
  NoDup l ->
  NoDup (remove_site site l) /\
  (site ∉ remove_site site l) /\
  (www_site site ∉ remove_site site l) /\
  (forall x, x <> site -> x <> www_site site ->
     (x ∈ remove_site site l) <-> (x ∈ l)).
Proof.
  intros Hl. unfold remove_site.
  set (l1 := if decide (site ∈ l) then remove site l else l).
  assert (H1 : NoDup l1 /\ (site ∉ l1) /\
               forall x, x <> site -> (x ∈ l1) <-> (x ∈ l)).
  { unfold l1. destruct (decide (site ∈ l)) as [Hin|Hout].
    - destruct (NoDup_remove site l Hl) as [? ?]. repeat split; try done.
      + apply elem_of_remove.
      + by apply elem_of_remove_other.
    - done. }
  destruct H1 as (Hnd & Hs & Hiff).
  destruct (decide (www_site site ∈ l1)) as [Hin|Hout].
  - destruct (NoDup_remove (www_site site) l1 Hnd) as [? ?].
    repeat split; try done.
    + intros ?%elem_of_remove. done.
    + intros ?%elem_of_remove. by apply Hiff.
    + intros Hx. apply elem_of_remove_other; [done|]. by apply Hiff.
  - repeat split; try done; by apply Hiff.
Qed.

Lemma remove_site_removes_witness :
  let l := WebsiteBlocker.default_blocked_sites in
  NoDup (remove_site "x.com" l) /\
  ("x.com"%string ∉ remove_site "x.com" l) /\
  (www_site "x.com" ∉ remove_site "x.com" l) /\
  (forall x, x <> "x.com"%string -> x <> www_site "x.com" ->
     (x ∈ remove_site "x.com" l) <-> (x ∈ l)).
Proof.
  intros l. apply (remove_site_removes "x.com" l).
  apply (bool_decide_unpack _). vm_compute. exact I.
Defined.

End Sites.

(** ** The schedule store: deleting, looking up, listing, counting *)

Section AgendaFacts.
Import Clock Store Agenda.

Lemma set_schedules_same st : set_schedules (schedules st) st = st.
Proof. by destruct st. Qed.

Lemma comprehension_filter test (p : Schedule -> bool) l :
  Forall (fun s => test s = Return (p s)) l ->
  comprehension test l = Return (filter (fun s => p s = true) l).
Proof.
  induction 1 as [|s l Hs _ IH]; simpl; [done|].
  rewrite Hs, IH. simpl. rewrite filter_cons.
  destruct (p s); [by rewrite decide_True|by rewrite decide_False].
Qed.

Lemma comprehension_app test l1 l2 :
  comprehension test (l1 ++ l2)
  = (a ← comprehension test l1; b ← comprehension test l2; Return (a ++ b)).
Proof.
  induction l1 as [|s l1 IH]; simpl.
  - by destruct (comprehension test l2).
  - destruct (test s) as [keep|e]; simpl; [|done]. rewrite IH.
    destruct (comprehension test l1) as [a|e]; simpl; [|done].
    destruct (comprehension test l2) as [b|e]; simpl; [|done].
    by destruct keep.
Qed.

Lemma delete_test sid l :
  Forall (fun s => is_Some (s_id s)) l ->
  Forall (fun s => (i ← item "id" (s_id s);
                    Return (negb (String.eqb i sid))) = Return (keeps sid s)) l.
Proof.
  intros H. eapply Forall_impl; [exact H|].
  intros s [i Hi]. unfold keeps. by rewrite Hi.
Qed.

Lemma lookup_after_filter sid j l :
  Forall (fun s => is_Some (s_id s)) l ->
  lookup_loop j (filter (fun s => keeps sid s = true) l)
  = if String.eqb j sid then Return None else lookup_loop j l.
Proof.
  induction 1 as [|s l [i Hi] _ IH]; simpl.
  - by destruct (String.eqb j sid).
  - assert (Hk : keeps sid s = negb (String.eqb i sid))
      by (unfold keeps; by rewrite Hi).
    rewrite filter_cons, Hi. simpl.
    destruct (String.eqb i sid) eqn:E; simpl in Hk.
    + rewrite decide_False by (by rewrite Hk). rewrite IH.
      apply String.eqb_eq in E as ->.
      destruct (String.eqb j sid) eqn:E'; [done|].
      rewrite String.eqb_sym in E'. by rewrite E'.
    + rewrite decide_True by done. simpl. rewrite Hi. simpl.
      destruct (String.eqb i j) eqn:E'; [|done].
      apply String.eqb_eq in E' as ->. by rewrite E.
Qed.

(** X11: on a store whose schedules all carry an id, [delete_schedule]
    returns, a lookup of the deleted id then finds nothing, the lookup
    of every other id gives what it gave before, and the schedules that
    stay keep their order. *)
Theorem delete_then_lookup sid st :
  Forall (fun s => is_Some (s_id s)) (schedules st) ->
  (delete_schedule sid st).2 = Return tt /\
  get_schedule_by_id sid (delete_schedule sid st).1 = Return None /\
  (forall j, j <> sid ->
     get_schedule_by_id j (delete_schedule sid st).1
     = get_schedule_by_id j st) /\
  sublist (schedules (delete_schedule sid st).1) (schedules st).
Proof.
  intros Hids. unfold delete_schedule, get_schedule_by_id.
  rewrite (comprehension_filter _ (keeps sid)) by by apply delete_test.
  simpl. split; [done|]. split; [|split].
  - rewrite lookup_after_filter by done. by rewrite String.eqb_refl.
  - intros j Hj. rewrite lookup_after_filter by done.
    destruct (String.eqb j sid) eqn:E; [by apply String.eqb_eq in E|done].
  - apply sublist_filter.
Qed.

Lemma comprehension_raises sid l :
  (exists s, s ∈ l /\ s_id s = None) ->
  comprehension (fun s => i ← item "id" (s_id s);
                          Return (negb (String.eqb i sid))) l
  = Raise (KeyError "id").
Proof.
  induction l as [|s0 l IH]; intros (s & Hin & Hs).
  - by apply elem_of_nil in Hin.
  - simpl. destruct (s_id s0) as [i|] eqn:Hi; simpl; [|done].
    apply elem_of_cons in Hin as [->|Hin]; [congruence|].
    by rewrite IH by eauto.
Qed.

(** X12: when some stored record has no ['id'], [delete_schedule] raises
    KeyError for any id it is asked to delete, and the store is left as
    it was: nothing is deleted. *)
Theorem delete_schedule_needs_every_id sid st s :
  s ∈ schedules st -> s_id s = None ->
  delete_schedule sid st = (st, Raise (KeyError "id")).
Proof.
  intros Hin Hs. unfold delete_schedule.
  by rewrite comprehension_raises by eauto.
Qed.

Lemma lookup_app_other sid l1 l2 :
  Forall (has_other_id sid) l1 ->
  lookup_loop sid (l1 ++ l2) = lookup_loop sid l2.
Proof.
  induction 1 as [|s l (i & Hi & Hne) _ IH]; simpl; [done|].
  rewrite Hi. simpl.
  destruct (String.eqb i sid) eqn:E; [by apply String.eqb_eq in E|done].
Qed.

Lemma lookup_app_found j l1 l2 :
  Forall (fun s => is_Some (s_id s)) l1 ->
  lookup_loop j (l1 ++ l2)
  = match lookup_loop j l1 with
    | Return None => lookup_loop j l2
    | r => r
    end.
Proof.
  induction 1 as [|s l [i Hi] _ IH]; simpl; [done|].
  rewrite Hi. simpl. by destruct (String.eqb i j).
Qed.

Lemma filter_other_ids sid l :
  Forall (has_other_id sid) l ->
  filter (fun s => keeps sid s = true) l = l.
Proof.
  induction 1 as [|s l (i & Hi & Hne) _ IH]; [done|].
  assert (Hk : keeps sid s = true).
  { unfold keeps. rewrite Hi.
    destruct (String.eqb i sid) eqn:E; [by apply String.eqb_eq in E|done]. }
  by rewrite filter_cons, IH, decide_True.
Qed.

Lemma other_ids_have_ids sid l :
  Forall (has_other_id sid) l -> Forall (fun s => is_Some (s_id s)) l.
Proof.
  intros H. eapply Forall_impl; [exact H|]. intros s (i & Hi & _). eauto.
Qed.

Lemma lookup_one j s i :
  s_id s = Some i ->
  lookup_loop j [s] = if String.eqb i j then Return (Some s) else Return None.
Proof. intros H. unfold lookup_loop. by rewrite H. Qed.

(** X13: after [add_schedule] on a store in which no schedule has the new
    id, [get_schedule_by_id] with the returned id finds the new
    schedule, with the data that were passed and not yet completed or
    started; the lookup of any other id is unchanged. *)
Theorem lookup_finds_the_added_schedule title description date start_time
    end_time category priority clock_id clock_created st :
  let added :=
    add_schedule title description date start_time end_time category
      priority clock_id clock_created st in
  Forall (has_other_id added.2) (schedules st) ->
  (exists s,
     get_schedule_by_id added.2 added.1 = Return (Some s) /\
     s_id s = Some added.2 /\ s_title s = Some title /\
     s_date s = Some date /\ s_start_time s = Some start_time /\
     s_end_time s = Some end_time /\
     s_completed s = Some false /\ s_started s = Some false) /\
  (forall j, j <> added.2 ->
     get_schedule_by_id j added.1 = get_schedule_by_id j st).
Proof.
  intros added Hids. unfold added, add_schedule, get_schedule_by_id in *.
  simpl in *. split.
  - eexists. rewrite lookup_app_other by done.
    erewrite lookup_one by reflexivity. rewrite String.eqb_refl.
    repeat split; reflexivity.
  - intros j Hj.
    rewrite lookup_app_found by (by eapply other_ids_have_ids).
    destruct (lookup_loop j (schedules st)) as [[s|]|e]; try done.
    erewrite lookup_one by reflexivity.
    destruct (String.eqb (schedule_id_of (length (schedules st)) clock_id) j)
      eqn:E; [|done].
    apply String.eqb_eq in E. by subst j.
Qed.

(** X14: [delete_schedule] with the id that [add_schedule] returned
    gives back the session as it was before the addition, when no
    schedule had that id. *)
Theorem delete_undoes_add title description date start_time end_time
    category priority clock_id clock_created st :
  let added :=
    add_schedule title description date start_time end_time category
      priority clock_id clock_created st in
  Forall (has_other_id added.2) (schedules st) ->
  delete_schedule added.2 added.1 = (st, Return tt).
Proof.
  intros added Hids. unfold added, add_schedule, delete_schedule in *.
  simpl in *.
  set (sid := schedule_id_of (length (schedules st)) clock_id) in *.
  rewrite (comprehension_filter _ (keeps sid)).
  2:{ apply delete_test, Forall_app. split.
      - by eapply other_ids_have_ids.
      - repeat constructor. simpl. eauto. }
  rewrite filter_app, filter_other_ids by done.
  rewrite filter_cons, decide_False.
  2:{ unfold keeps. cbn [s_id]. by rewrite String.eqb_refl. }
  rewrite filter_nil, app_nil_r. by destruct st.
Qed.


Lemma count_completed_spec l :
  Forall (fun s => is_Some (s_completed s)) l ->
  count_completed l = Return (count_with_completed true l) /\
  count_with_completed true l + count_with_completed false l
  = Z.of_nat (length l).
Proof.
  unfold count_with_completed.
  induction 1 as [|s l [c Hc] _ [IH1 IH2]]; simpl; [done|].
  rewrite Hc, IH1. simpl. rewrite !filter_cons.
  destruct c.
  - rewrite decide_True, decide_False by congruence. simpl. split; [|lia].
    f_equal. lia.
  - rewrite decide_False, decide_True by congruence. simpl. split; [done|lia].
Qed.

(** X15: on a store whose schedules carry ['completed'] and ['date'],
    [get_schedule_stats] returns; 'completed' counts the completed
    schedules, 'pending', which the code computes as a difference,
    counts the schedules that are not completed, and 'today' lies
    between 0 and 'total'. *)
Theorem schedule_stats_add_up now st :
  Forall (fun s => is_Some (s_completed s) /\ is_Some (s_date s))
    (schedules st) ->
  exists r,
    get_schedule_stats now st = Return r /\
    stat_total r = Z.of_nat (length (schedules st)) /\
    stat_completed r = count_with_completed true (schedules st) /\
    stat_pending r = count_with_completed false (schedules st) /\
    0 <= stat_today r <= stat_total r.
Proof.
  intros Hall. unfold get_schedule_stats, get_today_schedules.
  destruct (count_completed_spec (schedules st)) as [Hc Hsum].
  { eapply Forall_impl; [exact Hall|]. by intros s [? _]. }
  rewrite Hc. simpl.
  rewrite (comprehension_filter _
             (fun s => match s_date s with
                       | Some d => d =? date_of now
                       | None => false
                       end)).
  2:{ eapply Forall_impl; [exact Hall|]. intros s [_ [d Hd]]. by rewrite Hd. }
  simpl. eexists. split; [reflexivity|]. simpl.
  repeat split; try lia.
  pose proof (length_filter
    (fun s => match s_date s with
              | Some d => d =? date_of now
              | None => false
              end = true) (schedules st)). lia.
Qed.

Lemma filter_sublist_impl {A} (P Q : A -> Prop) `{!forall x, Decision (P x)}
    `{!forall x, Decision (Q x)} (l : list A) :
  (forall x, P x -> Q x) -> sublist (filter P l) (filter Q l).
Proof.
  intros HPQ. induction l as [|x l IH]; [done|].
  rewrite !filter_cons.
  destruct (decide (P x)) as [HP|HP].
  - rewrite decide_True by auto. by constructor.
  - destruct (decide (Q x)); [by constructor|done].
Qed.

Lemma filter_ext_eq {A} (P Q : A -> Prop) `{!forall x, Decision (P x)}
    `{!forall x, Decision (Q x)} (l : list A) :
  (forall x, P x <-> Q x) -> filter P l = filter Q l.
Proof.
  intros HPQ. induction l as [|x l IH]; [done|].
  rewrite !filter_cons, IH.
  destruct (decide (P x)) as [HP|HP].
  - by rewrite decide_True by by apply HPQ.
  - by rewrite decide_False by (by intros ?%HPQ).
Qed.

(** X16: for a non-negative number of days, on a store whose schedules
    carry a date, [get_upcoming_schedules] returns a selection of the
    store, in store order, that contains everything that
    [get_today_schedules] returns; each selected date lies between
    today and today + days, both included; with 0 days the two
    functions return the same list. *)
Theorem upcoming_covers_today days now st :
  0 <= days ->
  Forall (fun s => is_Some (s_date s)) (schedules st) ->
  exists l u,
    get_today_schedules now st = Return l /\
    get_upcoming_schedules days now st = Return u /\
    sublist l u /\ sublist u (schedules st) /\
    Forall (fun s => exists d, s_date s = Some d /\
                       date_of now <= d <= date_of now + days) u /\
    (days = 0 -> u = l).
Proof.
  intros Hdays Hall. unfold get_today_schedules, get_upcoming_schedules.
  set (is_today := fun s => match s_date s with
                            | Some d => d =? date_of now
                            | None => false
                            end).
  set (is_upcoming := fun s => match s_date s with
                               | Some d => (date_of now <=? d)
                                           && (d <=? date_of now + days)
                               | None => false
                               end).
  rewrite (comprehension_filter _ is_today).
  2:{ eapply Forall_impl; [exact Hall|]. intros s [d Hd].
      unfold is_today. by rewrite Hd. }
  rewrite (comprehension_filter _ is_upcoming).
  2:{ eapply Forall_impl; [exact Hall|]. intros s [d Hd].
      unfold is_upcoming. by rewrite Hd. }
  eexists _, _. split; [reflexivity|]. split; [reflexivity|].
  split; [|split; [|split]].
  - apply filter_sublist_impl. intros s. unfold is_today, is_upcoming.
    destruct (s_date s) as [d|]; [|done].
    intros ->%Z.eqb_eq. apply andb_true_iff. split; apply Z.leb_le; lia.
  - apply sublist_filter.
  - apply Forall_forall. intros s [Hs _]%list_elem_of_filter.
    unfold is_upcoming in Hs. destruct (s_date s) as [d|]; [|done].
    apply andb_true_iff in Hs as [?%Z.leb_le ?%Z.leb_le]. eauto.
  - intros ->. apply filter_ext_eq. intros s. unfold is_today, is_upcoming.
    destruct (s_date s) as [d|]; [|done].
    rewrite andb_true_iff, !Z.leb_le, Z.eqb_eq. lia.
Qed.


Lemma delete_then_lookup_witness :
  (delete_schedule study_id study_session).2 = Return tt /\
  get_schedule_by_id study_id (delete_schedule study_id study_session).1
  = Return None /\
  (forall j, j <> study_id ->
     get_schedule_by_id j (delete_schedule study_id study_session).1
     = get_schedule_by_id j study_session) /\
  sublist (schedules (delete_schedule study_id study_session).1)
    (schedules study_session).
Proof.
  apply (delete_then_lookup study_id study_session).
  repeat constructor. by eexists.
Defined.

Lemma delete_schedule_needs_every_id_witness :
  delete_schedule study_id (session_with [study; no_kwargs])
  = (session_with [study; no_kwargs], Raise (KeyError "id")).
Proof.
  apply (delete_schedule_needs_every_id study_id
           (session_with [study; no_kwargs]) no_kwargs).
  - simpl. apply elem_of_cons. right. apply elem_of_cons. by left.
  - reflexivity.
Defined.

Lemma lookup_finds_the_added_schedule_witness :
  let added := add_overlapping study_session in
  (exists s,
     get_schedule_by_id added.2 added.1 = Return (Some s) /\
     s_id s = Some added.2 /\ s_title s = Some "Overlap"%string /\
     s_date s = Some example_day /\
     s_start_time s = Some (minutes 870) /\
     s_end_time s = Some (minutes 930) /\
     s_completed s = Some false /\ s_started s = Some false) /\
  (forall j, j <> added.2 ->
     get_schedule_by_id j added.1 = get_schedule_by_id j study_session).
Proof.
  apply (lookup_finds_the_added_schedule "Overlap" "" example_day
           (minutes 870) (minutes 930) "Work" "High"
           "1700000100.0" (Clock.seconds 1700000100)
           study_session).
  repeat constructor. exists study_id. split; [reflexivity|].
  vm_compute. discriminate.
Defined.

Lemma delete_undoes_add_witness :
  delete_schedule (add_overlapping study_session).2
    (add_overlapping study_session).1
  = (study_session, Return tt).
Proof.
  apply (delete_undoes_add "Overlap" "" example_day (minutes 870)
           (minutes 930) "Work" "High"
           "1700000100.0" (Clock.seconds 1700000100) study_session).
  repeat constructor. exists study_id. split; [reflexivity|].
  vm_compute. discriminate.
Defined.

Lemma schedule_stats_add_up_witness :
  exists r,
    get_schedule_stats (at_minute 840) study_session = Return r /\
    stat_total r = Z.of_nat (length (schedules study_session)) /\
    stat_completed r = count_with_completed true (schedules study_session) /\
    stat_pending r = count_with_completed false (schedules study_session) /\
    0 <= stat_today r <= stat_total r.
Proof.
  apply (schedule_stats_add_up (at_minute 840) study_session).
  repeat constructor; by eexists.
Defined.

Lemma upcoming_covers_today_witness :
  exists l u,
    get_today_schedules (at_minute 840) study_session = Return l /\
    get_upcoming_schedules 7 (at_minute 840) study_session = Return u /\
    sublist l u /\ sublist u (schedules study_session) /\
    Forall (fun s => exists d, s_date s = Some d /\
                       date_of (at_minute 840) <= d
                       <= date_of (at_minute 840) + 7) u /\
    (7 = 0 -> u = l).
Proof.
  apply (upcoming_covers_today 7 (at_minute 840) study_session).
  - lia.
  - repeat constructor. by eexists.
Defined.

End AgendaFacts.

(** ** The forms: no double booking *)

Section Bookings.
Import Clock Store Manager Controls.

Lemma clash_sym a b : clash a b = clash b a.
Proof.
  unfold clash, overlaps.
  destruct (s_date a) as [da|], (s_start_time a) as [sa|],
    (s_end_time a) as [ea|], (s_date b) as [db|], (s_start_time b) as [sb|],
    (s_end_time b) as [eb|]; try reflexivity.
  rewrite (Z.eqb_sym db da).
  destruct (da =? db), (sa <? eb), (sb <? ea); reflexivity.
Qed.

Lemma conflict_body_excluding new_start new_end new_date ex s conflicts :
  well_timed s ->
  conflict_body new_start new_end new_date ex s conflicts
  = Return (if negb (excluded ex s) && overlaps new_start new_end new_date s
            then conflicts ++ [s] else conflicts).
Proof.
  intros ([d Hd] & [b Hb] & [e He]).
  unfold conflict_body, overlaps.
  destruct (excluded ex s); simpl; [done|].
  rewrite Hd, Hb, He. simpl.
  destruct (d =? new_date); simpl; [|reflexivity].
  rewrite Z.gtb_ltb. by destruct (_ && _).
Qed.

Lemma conflict_loop_excluding new_start new_end new_date ex todo conflicts :
  Forall well_timed todo ->
  conflict_loop new_start new_end new_date ex todo conflicts
  = Return (conflicts ++
            filter (fun s => negb (excluded ex s)
                             && overlaps new_start new_end new_date s = true)
              todo).
Proof.
  intros Hwf. revert conflicts.
  induction Hwf as [|s todo Hs _ IH]; intros conflicts; simpl.
  - by rewrite app_nil_r.
  - rewrite conflict_body_excluding by done. simpl.
    rewrite IH, filter_cons.
    destruct (negb (excluded ex s) && overlaps new_start new_end new_date s)
      eqn:Ho.
    + rewrite decide_True by done. by rewrite <- app_assoc.
    + rewrite decide_False by (by intros ?). done.
Qed.

Lemma conflict_free_snoc l x :
  conflict_free l ->
  (forall a, a ∈ l -> clash x a = false) ->
  conflict_free (l ++ [x]).
Proof.
  intros Hcf Hx i j a b Hij Hi Hj.
  destruct (decide (i < length l)%nat) as [Hil|Hil];
    destruct (decide (j < length l)%nat) as [Hjl|Hjl].
  - rewrite lookup_app_l in Hi, Hj by done. by apply (Hcf i j).
  - rewrite lookup_app_l in Hi by done.
    rewrite lookup_app_r in Hj by lia.
    apply list_lookup_singleton_Some in Hj as [_ <-].
    rewrite clash_sym. apply Hx. by eapply list_elem_of_lookup_2.
  - rewrite lookup_app_l in Hj by done.
    rewrite lookup_app_r in Hi by lia.
    apply list_lookup_singleton_Some in Hi as [_ <-].
    apply Hx. by eapply list_elem_of_lookup_2.
  - rewrite lookup_app_r in Hi, Hj by lia.
    apply list_lookup_singleton_Some in Hi as [Hi _].
    apply list_lookup_singleton_Some in Hj as [Hj _]. lia.
Qed.

Lemma conflict_free_insert l p x :
  conflict_free l ->
  (forall j b, j <> p -> l !! j = Some b -> clash x b = false) ->
  conflict_free (<[p := x]> l).
Proof.
  intros Hcf Hx i j a b Hij Hi Hj.
  destruct (decide (i = p)) as [->|Hip]; destruct (decide (j = p)) as [->|Hjp].
  - done.
  - apply list_lookup_insert_Some in Hi as [(_ & <- & _)|(? & _)]; [|done].
    rewrite list_lookup_insert_ne in Hj by done. by apply (Hx j).
  - apply list_lookup_insert_Some in Hj as [(_ & <- & _)|(? & _)]; [|done].
    rewrite list_lookup_insert_ne in Hi by done.
    rewrite clash_sym. by apply (Hx i).
  - rewrite list_lookup_insert_ne in Hi, Hj by done. by apply (Hcf i j).
Qed.

Lemma filter_nil_not {A} (P : A -> Prop) `{!forall x, Decision (P x)} l x :
  filter P l = [] -> x ∈ l -> ~ P x.
Proof.
  intros Hnil Hin HP.
  assert (x ∈ filter P l) as Hx by (by apply list_elem_of_filter).
  rewrite Hnil in Hx. by apply elem_of_nil in Hx.
Qed.

(** X17: the Add Schedule form never creates a double booking.  On a
    store whose schedules carry their date and times and in which no
    two schedules overlap, the store after a submission, whatever was
    entered and whether it was accepted or refused, still has no two
    overlapping schedules. *)
Theorem add_form_keeps_the_store_conflict_free title description
    schedule_date start_time end_time category priority clock_id
    clock_created st :
  Forall well_timed (schedules st) ->
  conflict_free (schedules st) ->
  conflict_free
    (schedules
       (submit_add_schedule title description schedule_date start_time
          end_time category priority clock_id clock_created st).1).
Proof.
  intros Hwf Hcf. unfold submit_add_schedule.
  destruct (String.eqb title ""); [done|].
  destruct (end_time <=? start_time); [done|].
  unfold check_schedule_conflict. rewrite conflict_loop_filter by done.
  simpl app.
  destruct (filter _ (schedules st)) as [|c cs] eqn:Hnone; [|done].
  unfold add_schedule. simpl. apply conflict_free_snoc; [done|].
  intros a Ha. unfold clash. simpl.
  destruct (overlaps start_time end_time schedule_date a) eqn:Ho; [|done].
  by destruct (filter_nil_not _ _ a Hnone Ha).
Qed.

Lemma Some_union {A} (x : A) (o : option A) : Some x ∪ o = Some x.
Proof. by destruct o. Qed.

Lemma None_union {A} (o : option A) : None ∪ o = o.
Proof. by destruct o. Qed.

(** X18: the edit form never creates a double booking either.  On a
    store whose schedules carry their date and times and distinct ids,
    and in which no two schedules overlap, saving the edit form of a
    stored schedule leaves a store without overlapping schedules: the
    conflict check leaves out the edited schedule itself and the update
    changes that schedule only. *)
Theorem edit_form_keeps_the_store_conflict_free schedule new_title
    new_description new_start_time new_end_time new_category new_priority
    st :
  Forall well_timed (schedules st) ->
  Forall (fun s => is_Some (s_id s)) (schedules st) ->
  NoDup (s_id <$> schedules st) ->
  schedule ∈ schedules st ->
  conflict_free (schedules st) ->
  conflict_free
    (schedules
       (submit_edit schedule new_title new_description new_start_time
          new_end_time new_category new_priority st).1).
Proof.
  intros Hwf Hids Hnd Hin Hcf. unfold submit_edit.
  destruct (String.eqb new_title ""); [done|].
  destruct (new_end_time <=? new_start_time); [done|].
  destruct (s_date schedule) as [date|] eqn:Hdate; simpl; [|done].
  destruct (s_id schedule) as [sid|] eqn:Hsid; simpl; [|done].
  unfold check_schedule_conflict. rewrite conflict_loop_excluding by done.
  simpl app.
  destruct (filter _ (schedules st)) as [|c cs] eqn:Hnone; [|done].
  apply list_elem_of_lookup in Hin as [p Hp].
  assert (Hother : forall j b, j <> p -> schedules st !! j = Some b ->
                     s_id b <> Some sid).
  { intros j b Hj Hb Heq. apply Hj.
    apply (NoDup_lookup _ j p (Some sid) Hnd).
    - by rewrite list_lookup_fmap, Hb; simpl; rewrite Heq.
    - by rewrite list_lookup_fmap, Hp; simpl; rewrite Hsid. }
  unfold update_schedule.
  rewrite (update_loop_at sid _ (schedules st) p schedule); try done.
  2:{ intros j s' Hj Hs'. apply (Hother j); [lia|done]. }
  simpl. apply conflict_free_insert; [done|].
  intros j b Hj Hb. unfold clash, dict_update, edit_kwargs. simpl.
  rewrite None_union, !Some_union, Hdate.
  destruct (overlaps new_start_time new_end_time date b) eqn:Ho; [|done].
  exfalso.
  apply (filter_nil_not _ _ b Hnone); [by eapply list_elem_of_lookup_2|].
  rewrite Ho, andb_true_r. apply negb_true_iff. unfold excluded.
  apply andb_false_iff. right. apply bool_decide_eq_false. by apply (Hother j).
Qed.


Lemma conflict_free_singleton x : conflict_free [x].
Proof. intros [|i] [|j] a b Hij Hi Hj; try done; by destruct i || by destruct j. Qed.

Lemma add_form_keeps_the_store_conflict_free_witness :
  conflict_free
    (schedules
       (submit_add_schedule "Lunch" "" example_day (minutes 900)
          (minutes 960) "Break" "Low" "1700000100.0" (Clock.seconds 1700000100)
          study_session).1).
Proof.
  apply (add_form_keeps_the_store_conflict_free "Lunch" "" example_day
           (minutes 900) (minutes 960) "Break" "Low"
           "1700000100.0" (Clock.seconds 1700000100)
           study_session).
  - repeat constructor; by eexists.
  - apply conflict_free_singleton.
Defined.

Lemma edit_form_keeps_the_store_conflict_free_witness :
  conflict_free
    (schedules
       (submit_edit study "Study" "" (minutes 870) (minutes 930) "Study"
          "High" study_session).1).
Proof.
  apply (edit_form_keeps_the_store_conflict_free study "Study" ""
           (minutes 870) (minutes 930) "Study" "High" study_session).
  - repeat constructor; by eexists.
  - repeat constructor. by eexists.
  - apply (bool_decide_unpack _). vm_compute. exact I.
  - simpl. apply elem_of_cons. by left.
  - apply conflict_free_singleton.
Defined.

End Bookings.

(** ** The background service: its record of sent notifications *)

Section ServiceRecords.
Import Clock Service Housekeeping.

Lemma lookup_foldl_delete (m : gmap string Z) (ks : list string) k :
  foldl (fun m key => delete key m) m ks !! k
  = if decide (k ∈ ks) then None else m !! k.
Proof.
  revert m. induction ks as [|x ks IH]; intros m; simpl; [done|].
  rewrite IH.
  destruct (decide (k ∈ ks)) as [Hin|Hout].
  - rewrite decide_True; [done|by right].
  - destruct (decide (k = x)) as [->|Hne].
    + rewrite decide_True by left. apply lookup_delete_eq.
    + rewrite decide_False.
      * by apply lookup_delete_ne.
      * by intros [?|?]%elem_of_cons.
Qed.

(** X19: [cleanup_old_notifications] keeps exactly the records that are
    not older than 24 hours: a key is on record afterwards, with the
    same time, if and only if it was on record with a time not before
    [now] minus one day.  What was handed to the notifier is not
    touched. *)
Theorem cleanup_keeps_the_last_day now v key t :
  (notifications_sent (cleanup_old_notifications now v) !! key = Some t
   <-> notifications_sent v !! key = Some t /\ now - us_per_day <= t) /\
  sent (cleanup_old_notifications now v) = sent v.
Proof.
  split; [|done]. unfold cleanup_old_notifications. simpl.
  rewrite lookup_foldl_delete.
  destruct (decide (key ∈ _)) as [Hin|Hout].
  - apply list_elem_of_fmap in Hin as ([k t'] & -> & Hin).
    apply list_elem_of_filter in Hin as [Hold Hin]. simpl in *.
    apply elem_of_map_to_list in Hin. split; [done|].
    intros [Hk Ht]. rewrite Hin in Hk. injection Hk as ->. lia.
  - split; [|by intros [? _]].
    intros Hk. split; [done|].
    destruct (decide (t < now - us_per_day)) as [Hold|]; [|lia].
    exfalso. apply Hout. apply list_elem_of_fmap. exists (key, t).
    split; [done|]. apply list_elem_of_filter. split; [done|].
    by apply elem_of_map_to_list.
Qed.

Lemma notify_once_consistent now s sid type v s' v' :
  service_consistent v ->
  notify_once now s sid (service_key (sid, type)) type v = Return (s', v') ->
  service_consistent v'.
Proof.
  intros [Hnd Hrec]. unfold notify_once.
  destruct (notifications_sent v !! service_key (sid, type)) eqn:Hk.
  { intros [= <- <-]. by split. }
  destruct (s_title s); simpl; [|done]. intros [= <- <-]. split; simpl.
  - rewrite fmap_app. apply NoDup_app. split; [done|]. split.
    + intros key Hin ->%list_elem_of_singleton.
      apply list_elem_of_fmap in Hin as (entry & Heq & Hin).
      apply Hrec in Hin as [t Ht]. rewrite <- Heq in Ht. congruence.
    + apply NoDup_singleton.
  - intros entry [Hin|Hin]%elem_of_app.
    + destruct (Hrec _ Hin) as [t Ht].
      destruct (decide (service_key entry = service_key (sid, type)))
        as [->|Hne].
      * rewrite lookup_insert_eq. eauto.
      * rewrite lookup_insert_ne by done. eauto.
    + apply list_elem_of_singleton in Hin as ->.
      rewrite lookup_insert_eq. eauto.
Qed.

Lemma service_body_consistent now today s v s' v' :
  service_consistent v ->
  body now today s v = Return (s', v') ->
  service_consistent v'.
Proof.
  intros Hv. unfold body.
  destruct (truthy (s_completed s)); [by intros [= <- <-]|].
  destruct (truthy (s_started s)); [by intros [= <- <-]|].
  destruct (s_date s) as [d|]; simpl; [|done].
  destruct (d =? today); simpl; [|by intros [= <- <-]].
  destruct (s_id s) as [sid|]; simpl; [|done].
  destruct (s_start_time s) as [t|]; simpl; [|done].
  repeat match goal with
  | |- (if ?c then _ else _) = _ -> _ => destruct c
  end;
  first [ by intros [= <- <-]
        | by apply (notify_once_consistent now s sid "10min")
        | by apply (notify_once_consistent now s sid "5min")
        | by apply (notify_once_consistent now s sid "start")
        | by apply (notify_once_consistent now s sid "missed_5")
        | by apply (notify_once_consistent now s sid "missed_10") ].
Qed.

Lemma run_cycle_consistent now loaded v :
  service_consistent v -> service_consistent (run_cycle now loaded v).
Proof.
  intros Hv. unfold run_cycle, check_and_notify.
  pose proof (for_each_invariant (visit now) service_consistent loaded v Hv)
    as Hinv.
  unfold env_after in Hinv.
  destruct (for_each _ _ _) as [[scheds v'] o]. simpl in *.
  apply Hinv. intros s v0 _ Hv0. unfold visit.
  destruct (body now (date_of now) s v0) as [[s' v1]|] eqn:Hbody; simpl;
    [|done].
  by eapply service_body_consistent.
Qed.

Lemma service_run_consistent cycles v :
  service_consistent v -> service_consistent (service_run cycles v).
Proof.
  unfold service_run. revert v.
  induction cycles as [|c cycles IH]; intros v Hv; simpl; [done|].
  by apply IH, run_cycle_consistent.
Qed.

(** X20: the background service notifies once.  Over any sequence of
    turns of the service started with an empty record, whatever the
    clock readings and whatever schedules each turn loads, no key
    [<schedule id>_<type>] is handed to the desktop notifier twice, so
    no pair of schedule id and notification type is either. *)
Theorem service_notifies_once cycles :
  NoDup (service_key <$> sent (service_run cycles idle_service)) /\
  NoDup (sent (service_run cycles idle_service)).
Proof.
  assert (Hc : service_consistent (service_run cycles idle_service)).
  { apply service_run_consistent. split; [constructor|].
    by intros entry ?%elem_of_nil. }
  destruct Hc as [Hnd _]. split; [done|]. by eapply NoDup_fmap_1.
Qed.

End ServiceRecords.

(** ** enhanced_schedule_config.py: desktop alerts and the start of a task *)

Section DesktopAlerts.
Import Clock Text WebsiteBlocker.

(** X21: the evaluator with desktop alerts never looks at ['started'].
    Whatever value the key is given, a visit of the schedule raises the
    same exception or emits the same notifications and makes the same
    change to the schedule: unlike the other evaluators, it treats a
    started schedule like one that was not started. *)
Theorem desktop_alerts_ignore_started now today b s k :
  Desktop.body now today (set_flag Started b s) k
  = match Desktop.body now today s k with
    | Return (s', k') => Return (set_flag Started b s', k')
    | Raise e => Raise e
    end.
Proof.
  unfold Desktop.body. cbn [set_flag s_completed s_date s_start_time s_title s_id].
  destruct (s_completed s) as [[]|]; simpl; [done| |done].
  destruct (s_date s) as [d|]; simpl; [|done].
  destruct (d =? today); simpl; [|done].
  destruct (s_start_time s) as [t|]; simpl; [|done].
  destruct (s_title s) as [title|]; simpl; [|done].
  destruct (s_id s) as [sid|]; simpl.
  - repeat match goal with
    | |- context [if ?c then _ else _] => destruct c
    end; reflexivity.
  - repeat match goal with
    | |- context [if ?c then _ else _] => destruct c
    end; reflexivity.
Qed.


Lemma desktop_visit_overdue now s k sid title t :
  s_completed s = Some false -> s_date s = Some (date_of now) ->
  s_start_time s = Some t -> s_id s = Some sid -> s_title s = Some title ->
  combine (date_of now) t - now < minutes (-10) ->
  has_notification ("missed_10min_" +:+ sid) k.1 = false ->
  Desktop.visit now s k
  = (set_flag AutoBlockTriggered true s,
     emit (new_notification ("missed_10min_" +:+ sid) sid title
             "missed_10min" t (Some (combine (date_of now) t - now)) now
             None None (Some "auto_block"%string)) k,
     Return tt).
Proof.
  intros Hc Hd Ht Hi Htt Hlate Hnew.
  unfold Desktop.visit, Desktop.body. rewrite Hc, Hd. simpl.
  rewrite Z.eqb_refl, Ht. simpl. rewrite Htt. simpl.
  rewrite (proj2 (Z.ltb_lt _ _) Hlate), Hi. simpl. by rewrite Hnew.
Qed.

(** X22: in enhanced_schedule_config.py a schedule that the user has
    started is still blocked for.  For a store with one schedule of
    today that is started, not completed and more than 10 minutes past
    its start, a due call of
    [check_schedule_notifications_with_desktop_alerts] sets
    [auto_block_triggered], and [auto_block_for_missed_schedules], run
    as administrator on a hosts file without the start marker, then
    writes the blocking section and sets [auto_blocked] and the
    session's [blocking_active]. *)
Theorem desktop_alerts_block_a_started_schedule sites stamp now st last s
    sid title t txt :
  schedules st = [s] ->
  last_notification_check st = Some last ->
  30 <= timedelta_seconds (now - last) ->
  has_notification ("missed_10min_" +:+ sid) (notifications st) = false ->
  s_completed s = Some false -> s_date s = Some (date_of now) ->
  s_start_time s = Some t -> s_id s = Some sid -> s_title s = Some title ->
  s_started s = Some true ->
  truthy (s_auto_blocked s) = false ->
  combine (date_of now) t - now < minutes (-10) ->
  contains marker_start txt = false ->
  let st1 :=
    (Desktop.check_schedule_notifications_with_desktop_alerts now st).1 in
  let r :=
    AutoBlock.auto_block_for_missed_schedules sites stamp st1
      (privileged txt) in
  schedules st1 = [set_flag AutoBlockTriggered true s] /\
  schedules r.1.1
  = [set_flag AutoBlocked true (set_flag AutoBlockTriggered true s)] /\
  is_blocking_active r.1.2 = true /\
  blocking_active r.1.1 = true.
Proof.
  intros Hs Hlast Hdue Hnew Hc Hd Ht Hi Htt Hst Hab Hlate Hfree st1 r.
  assert (H1 : schedules st1 = [set_flag AutoBlockTriggered true s]).
  { unfold st1, Desktop.check_schedule_notifications_with_desktop_alerts.
    rewrite Hlast. simpl.
    rewrite (proj2 (Z.ltb_ge _ _) Hdue).
    unfold Desktop.scan. rewrite Hs. simpl.
    by rewrite (desktop_visit_overdue now s _ sid title t). }
  split; [done|].
  destruct (block_websites_privileged sites stamp txt Hfree)
    as (Hw & Hok & Hactive).
  unfold r, AutoBlock.auto_block_for_missed_schedules, AutoBlock.run_loop.
  rewrite H1. simpl. unfold AutoBlock.missed_body. simpl.
  rewrite Hab. simpl.
  destruct (block_websites sites stamp (privileged txt)) as [w res].
  simpl in *. rewrite Hok, Htt, Hi. simpl. done.
Qed.

Lemma desktop_alerts_block_a_started_schedule_witness :
  let st :=
    set_last_notification_check (at_minute 850)
      (session_with [study_started]) in
  let st1 :=
    (Desktop.check_schedule_notifications_with_desktop_alerts
       (at_minute 851) st).1 in
  let r :=
    AutoBlock.auto_block_for_missed_schedules default_blocked_sites
      "2025-01-01 14:11:00" st1 (privileged localhost_only) in
  schedules st1 = [set_flag AutoBlockTriggered true study_started] /\
  schedules r.1.1
  = [set_flag AutoBlocked true
       (set_flag AutoBlockTriggered true study_started)] /\
  is_blocking_active r.1.2 = true /\
  blocking_active r.1.1 = true.
Proof.
  intros st.
  apply (desktop_alerts_block_a_started_schedule default_blocked_sites
           "2025-01-01 14:11:00" (at_minute 851) st (at_minute 850)
           study_started study_id "Study" (minutes 840) localhost_only);
    first [reflexivity | vm_compute; discriminate].
Defined.


Lemma start_loop_at sid l i s title :
  Forall (fun s => is_Some (s_id s)) l ->
  l !! i = Some s ->
  s_id s = Some sid -> s_title s = Some title ->
  (forall j s', (j < i)%nat -> l !! j = Some s' -> s_id s' <> Some sid) ->
  Desktop.start_loop sid l
  = (<[i := set_flag MissedNotified false
              (set_flag AutoBlockTriggered false (set_flag Started true s))]>
       l, Return true).
Proof.
  intros Hids. revert i.
  induction Hids as [|x l [xi Hxi] _ IH]; intros i Hi Hs Htt Hfirst; [done|].
  simpl. rewrite Hxi. simpl.
  destruct i as [|i]; simpl in *.
  - assert (x = s) as -> by congruence.
    assert (xi = sid) as -> by congruence.
    by rewrite String.eqb_refl, Htt.
  - destruct (String.eqb_spec xi sid) as [->|Hne].
    { exfalso. apply (Hfirst 0%nat x); [lia|done|done]. }
    rewrite (IH i); [done|done|done|done|].
    intros j s' Hj Hl. apply (Hfirst (S j) s'); [lia|done].
Qed.

(** X23: [handle_schedule_start] marks the first schedule with the given
    id as started and clears [auto_block_triggered] and
    [missed_notified], and returns True.  The schedule so marked is then
    passed over by both auto-block loops: each leaves it and its
    environment unchanged. *)
Theorem handle_schedule_start_cancels_auto_block sid st i s title :
  Forall (fun s => is_Some (s_id s)) (schedules st) ->
  schedules st !! i = Some s ->
  s_id s = Some sid -> s_title s = Some title ->
  (forall j s', (j < i)%nat -> schedules st !! j = Some s' ->
                s_id s' <> Some sid) ->
  let s' :=
    set_flag MissedNotified false
      (set_flag AutoBlockTriggered false (set_flag Started true s)) in
  Desktop.handle_schedule_start sid st
  = (Store.set_schedules (<[i := s']> (schedules st)) st, Return true) /\
  (forall sites stamp now e,
     AutoBlock.handle_body sites stamp now s' e = Return (s', e)) /\
  (forall sites stamp e,
     AutoBlock.missed_body sites stamp s' e = (s', e, Return tt)).
Proof.
  intros Hids Hi Hs Htt Hfirst s'.
  unfold Desktop.handle_schedule_start.
  rewrite (start_loop_at sid (schedules st) i s title) by done.
  split; [done|]. split; done.
Qed.

Lemma handle_schedule_start_cancels_auto_block_witness :
  let st := session_with [study_blocked] in
  let s' :=
    set_flag MissedNotified false
      (set_flag AutoBlockTriggered false
         (set_flag Started true study_blocked)) in
  Desktop.handle_schedule_start study_id st
  = (Store.set_schedules (<[0%nat := s']> (schedules st)) st, Return true) /\
  (forall sites stamp now e,
     AutoBlock.handle_body sites stamp now s' e = Return (s', e)) /\
  (forall sites stamp e,
     AutoBlock.missed_body sites stamp s' e = (s', e, Return tt)).
Proof.
  intros st.
  apply (handle_schedule_start_cancels_auto_block study_id st 0%nat
           study_blocked "Study").
  - repeat constructor. by eexists.
  - reflexivity.
  - reflexivity.
  - reflexivity.
  - intros j s' Hj. lia.
Defined.

Lemma missed_loop_spec now today l r :
  Desktop.missed_loop now today l = Return r ->
  sublist (Desktop.m_schedule <$> r) l /\
  Forall (fun m =>
            exists t,
              s_completed (Desktop.m_schedule m) = Some false /\
              s_date (Desktop.m_schedule m) = Some today /\
              s_start_time (Desktop.m_schedule m) = Some t /\
              truthy (s_started (Desktop.m_schedule m)) = false /\
              truthy (s_auto_blocked (Desktop.m_schedule m)) = false /\
              minutes 10 < now - combine today t /\
              Desktop.minutes_missed m
              = Z.quot (now - combine today t) us_per_minute /\
              10 <= Desktop.minutes_missed m) r /\
  (forall s t,
     s ∈ l -> s_completed s = Some false -> s_date s = Some today ->
     s_start_time s = Some t -> truthy (s_started s) = false ->
     truthy (s_auto_blocked s) = false ->
     minutes 10 < now - combine today t ->
     s ∈ Desktop.m_schedule <$> r).
Proof.
  revert r. induction l as [|s l IH]; intros r; simpl.
  { intros [= <-]. repeat split; [done|constructor|].
    by intros s t ?%elem_of_nil. }
  destruct (s_completed s) as [[]|] eqn:Hc; simpl; [| |done].
  { intros (Hsub & Hall & Hcomp)%IH. repeat split; [by constructor|done|].
    intros s0 t [->|Hin]%elem_of_cons; [congruence|]. by apply Hcomp. }
  destruct (s_date s) as [d|] eqn:Hd; simpl; [|done].
  destruct (d =? today) eqn:Hdt; simpl.
  2:{ intros (Hsub & Hall & Hcomp)%IH. repeat split; [by constructor|done|].
      intros s0 t [->|Hin]%elem_of_cons; [|by apply Hcomp].
      intros _ Hd'. rewrite Hd in Hd'. injection Hd' as ->.
      by rewrite Z.eqb_refl in Hdt. }
  apply Z.eqb_eq in Hdt as ->.
  destruct (s_start_time s) as [t|] eqn:Ht; simpl; [|done].
  destruct ((minutes 10 <? now - combine today t)
            && negb (truthy (s_started s))
            && negb (truthy (s_auto_blocked s))) eqn:Hcond.
  - destruct (Desktop.missed_loop now today l) as [more|] eqn:Hmore;
      simpl; [|done].
    intros [= <-]. destruct (IH more eq_refl) as (Hsub & Hall & Hcomp).
    boolean_tests. repeat split.
    + simpl. by constructor.
    + constructor; [|done]. exists t. simpl. repeat split; try done.
      assert (10 * us_per_minute <= now - combine today t)
        by (unfold minutes in *; lia).
      apply Z.quot_le_lower_bound; [done|lia].
    + intros s0 t0 [->|Hin]%elem_of_cons; [by left|].
      intros. right. by eapply Hcomp.
  - intros (Hsub & Hall & Hcomp)%IH. repeat split; [by constructor|done|].
    intros s0 t0 [->|Hin]%elem_of_cons; [|by apply Hcomp].
    intros _ _ Ht0 Hs0 Hb0 Hlate. rewrite Ht in Ht0. injection Ht0 as <-.
    rewrite Hs0, Hb0, (proj2 (Z.ltb_lt _ _) Hlate) in Hcond. done.
Qed.

(** X24: when [get_missed_schedules_requiring_block] returns, it lists,
    in store order, exactly the schedules of today that are not
    completed, not started, not auto-blocked and more than 10 minutes
    past their start; ['minutes_missed'] is the lateness in whole
    minutes and is at least 10. *)
Theorem missed_schedules_requiring_block_are_overdue now st r :
  Desktop.get_missed_schedules_requiring_block now st = Return r ->
  sublist (Desktop.m_schedule <$> r) (schedules st) /\
  Forall (fun m =>
            exists t,
              s_completed (Desktop.m_schedule m) = Some false /\
              s_date (Desktop.m_schedule m) = Some (date_of now) /\
              s_start_time (Desktop.m_schedule m) = Some t /\
              truthy (s_started (Desktop.m_schedule m)) = false /\
              truthy (s_auto_blocked (Desktop.m_schedule m)) = false /\
              minutes 10 < now - combine (date_of now) t /\
              Desktop.minutes_missed m
              = Z.quot (now - combine (date_of now) t) us_per_minute /\
              10 <= Desktop.minutes_missed m) r /\
  (forall s t,
     s ∈ schedules st -> s_completed s = Some false ->
     s_date s = Some (date_of now) ->
     s_start_time s = Some t -> truthy (s_started s) = false ->
     truthy (s_auto_blocked s) = false ->
     minutes 10 < now - combine (date_of now) t ->
     s ∈ Desktop.m_schedule <$> r).
Proof.
  intros Hr. unfold Desktop.get_missed_schedules_requiring_block in Hr.
  destruct (missed_loop_spec now (date_of now) (schedules st) r Hr)
    as (Hsub & Hall & Hcomplete).
  split; [exact Hsub|]. split; [exact Hall|exact Hcomplete].
Qed.


Lemma missed_schedules_requiring_block_are_overdue_witness :
  let st := session_with [study] in
  let now := at_minute 851 in
  let r := [{| Desktop.m_schedule := study; Desktop.minutes_missed := 11 |}] in
  sublist (Desktop.m_schedule <$> r) (schedules st) /\
  Forall (fun m =>
            exists t,
              s_completed (Desktop.m_schedule m) = Some false /\
              s_date (Desktop.m_schedule m) = Some (date_of now) /\
              s_start_time (Desktop.m_schedule m) = Some t /\
              truthy (s_started (Desktop.m_schedule m)) = false /\
              truthy (s_auto_blocked (Desktop.m_schedule m)) = false /\
              minutes 10 < now - combine (date_of now) t /\
              Desktop.minutes_missed m
              = Z.quot (now - combine (date_of now) t) us_per_minute /\
              10 <= Desktop.minutes_missed m) r /\
  (forall s t,
     s ∈ schedules st -> s_completed s = Some false ->
     s_date s = Some (date_of now) ->
     s_start_time s = Some t -> truthy (s_started s) = false ->
     truthy (s_auto_blocked s) = false ->
     minutes 10 < now - combine (date_of now) t ->
     s ∈ Desktop.m_schedule <$> r).
Proof.
  intros st now r.
  apply (missed_schedules_requiring_block_are_overdue now st r).
  reflexivity.
Defined.

End DesktopAlerts.

(** ** pages.py: the Unblock, dismiss and Start buttons *)

Section Buttons.
Import Clock Text WebsiteBlocker Store Manager Controls.

Lemma unblock_success_inactive w :
  success (unblock_websites w).2 = true ->
  is_blocking_active (unblock_websites w).1 = false.
Proof.
  intros Hs.
  destruct (unblock_websites_success w Hs)
    as (txt & _ & _ & _ & _ & -> & _ & Hfree & _).
  rewrite is_blocking_active_set_hosts, contains_native by done.
  by rewrite (marker_free_start _ Hfree), andb_false_r.
Qed.

Lemma for_each_skip {E} (body : Schedule -> E -> Schedule * E * outcome unit)
    l e :
  (forall s, s ∈ l -> body s e = (s, e, Return tt)) ->
  for_each body l e = (l, e, Return tt).
Proof.
  induction l as [|s l IH]; intros Hskip; simpl; [done|].
  rewrite Hskip by left. rewrite IH; [done|].
  intros s' Hs'. apply Hskip. by right.
Qed.

Lemma cleared_flags l :
  Forall (fun s => truthy (s_auto_block_triggered s) = false)
    (map clear_auto_block_flags l).
Proof.
  apply Forall_forall. intros s' (s & -> & _)%list_elem_of_fmap.
  unfold clear_auto_block_flags.
  by destruct (truthy (s_auto_block_triggered s)) eqn:Ht.
Qed.

Lemma untriggered_store_is_left_alone
    (body : Schedule -> AutoBlock.env -> Schedule * AutoBlock.env * outcome unit)
    st w :
  (forall s e, truthy (s_auto_block_triggered s) = false ->
               body s e = (s, e, Return tt)) ->
  Forall (fun s => truthy (s_auto_block_triggered s) = false) (schedules st) ->
  AutoBlock.run_loop body st w = (st, w, Return nothing_blocked).
Proof.
  intros Hbody Hall. unfold AutoBlock.run_loop.
  rewrite for_each_skip.
  2:{ intros s Hs. apply Hbody. by eapply Forall_forall in Hall. }
  simpl. by destruct st.
Qed.

(** X25: when the Unblock button of the blocking banner succeeds, the
    hosts file no longer holds the start marker, the session's blocking
    state and reason are cleared, no schedule is left with
    [auto_block_triggered] set, and a following run of either auto-block
    loop blocks nothing: session and hosts file stay as they are. *)
Theorem manual_unblock_settles sites stamp now st w :
  (click_unblock st w).2 = WebsitesUnblocked ->
  let st' := (click_unblock st w).1.1 in
  let w' := (click_unblock st w).1.2 in
  is_blocking_active w' = false /\
  blocking_active st' = false /\ blocking_reason st' = None /\
  Forall (fun s => truthy (s_auto_block_triggered s) = false)
    (schedules st') /\
  AutoBlock.handle_auto_blocking sites stamp now st' w'
  = (st', w', Return nothing_blocked) /\
  AutoBlock.auto_block_for_missed_schedules sites stamp st' w'
  = (st', w', Return nothing_blocked).
Proof.
  unfold click_unblock.
  destruct (is_blocking_active w); [|done].
  pose proof (unblock_success_inactive w) as Hinactive.
  destruct (unblock_websites w) as [w1 result]. simpl in *.
  destruct (success result); [|done]. simpl. intros _.
  pose proof (cleared_flags (schedules st)) as Hclear.
  repeat split; try done.
  - by apply Hinactive.
  - apply untriggered_store_is_left_alone; [|done].
    intros s e Hs. unfold AutoBlock.handle_body. by rewrite Hs.
  - apply untriggered_store_is_left_alone; [|done].
    intros s e Hs. unfold AutoBlock.missed_body. by rewrite Hs.
Qed.

Lemma manual_unblock_settles_witness :
  let st := set_blocking true (Some "Missed schedule: Study"%string)
              (session_with [study_blocked]) in
  let w := privileged blocked_hosts in
  let st' := (click_unblock st w).1.1 in
  let w' := (click_unblock st w).1.2 in
  is_blocking_active w' = false /\
  blocking_active st' = false /\ blocking_reason st' = None /\
  Forall (fun s => truthy (s_auto_block_triggered s) = false)
    (schedules st') /\
  AutoBlock.handle_auto_blocking default_blocked_sites
    "2025-01-01 14:30:00" (at_minute 870) st' w'
  = (st', w', Return nothing_blocked) /\
  AutoBlock.auto_block_for_missed_schedules default_blocked_sites
    "2025-01-01 14:30:00" st' w'
  = (st', w', Return nothing_blocked).
Proof.
  intros st w.
  apply (manual_unblock_settles default_blocked_sites "2025-01-01 14:30:00"
           (at_minute 870) st w).
  vm_compute. reflexivity.
Defined.


Lemma fresh_tail_refl ns : fresh_tail ns ns.
Proof. exists []. split; [by rewrite app_nil_r|]. by intros n ?%elem_of_nil. Qed.

Lemma fresh_tail_trans a b c :
  fresh_tail a b -> fresh_tail b c -> fresh_tail a c.
Proof.
  intros (app1 & -> & H1) (app2 & -> & H2).
  exists (app1 ++ app2). split; [by rewrite app_assoc|].
  intros n [Hn|Hn]%elem_of_app; [by apply H1|].
  apply H2 in Hn. rewrite count_id_app in Hn. lia.
Qed.

Lemma fresh_tail_emit ns (k : sink) n :
  fresh_tail ns k.1 -> has_notification (n_id n) k.1 = false ->
  fresh_tail ns (emit n k).1.
Proof.
  intros (app & Hk & Happ) Hnew. exists (app ++ [n]). simpl.
  rewrite Hk, <- app_assoc. split; [done|].
  intros n' [Hn'|Hn']%elem_of_app; [by apply Happ|].
  apply list_elem_of_singleton in Hn' as ->.
  apply has_notification_count in Hnew. rewrite Hk, count_id_app in Hnew. lia.
Qed.

Lemma enhanced_pass_fresh now st :
  fresh_tail (notifications st)
    (notifications (Enhanced.check_enhanced_schedule_notifications now st).1).
Proof.
  unfold Enhanced.check_enhanced_schedule_notifications.
  destruct (_ <? 30); [apply fresh_tail_refl|].
  pose proof (for_each_invariant
    (Enhanced.visit now)
    (fun k : sink => fresh_tail (notifications st) k.1)
    (schedules st) (notifications st, [])) as Hinv.
  unfold env_after, Enhanced.scan in *.
  destruct (for_each _ _ _) as [[scheds k] o]. simpl in *.
  apply Hinv; [apply fresh_tail_refl|]. intros s k0 _ Hk0.
  unfold Enhanced.visit.
  destruct (Enhanced.body now (date_of now) s k0) as [[s' k']|]
    eqn:Hbody; simpl; [|done].
  apply enhanced_visit in Hbody
    as [[_ ->]|(d & t & sid & title & prefix & type & n & Hv)]; [done|].
  destruct Hv as (_&_&_&_&_&_&_&Hnew&Hid&_&_&_&->&_).
  apply fresh_tail_emit; [done|]. by rewrite Hid.
Qed.

Lemma page_pass_fresh sites stamp now st w :
  fresh_tail (notifications st)
    (notifications (Page.check_notifications sites stamp now st w).1.1).
Proof.
  rewrite (proj2 (page_check sites stamp now st w)).
  apply (for_each_invariant (Page.visit sites stamp now)
           (fun e => fresh_tail (notifications st) (Page.e_sink e).1)).
  { apply fresh_tail_refl. }
  intros s e _ He. unfold Page.visit.
  destruct (Page.body sites stamp now (date_of now) s e) as [[s' e']|]
    eqn:Hbody; simpl; [|done].
  apply page_visit in Hbody
    as [[_ ->]|(d & t & sid & title & prefix & type & n & Hv)]; [done|].
  destruct Hv as (_&_&_&_&_&_&_&Hnew&Hid&_&_&_&->&_).
  apply fresh_tail_emit; [done|]. by rewrite Hid.
Qed.

Lemma enhanced_run_fresh nows st :
  fresh_tail (notifications st) (notifications (enhanced_run nows st)).
Proof.
  unfold enhanced_run. revert st.
  induction nows as [|now nows IH]; intros st; simpl; [apply fresh_tail_refl|].
  eapply fresh_tail_trans; [apply enhanced_pass_fresh|apply IH].
Qed.

Lemma page_run_fresh sites stamp nows st w :
  fresh_tail (notifications st)
    (notifications (page_run sites stamp nows st w).1).
Proof.
  unfold page_run. revert st w.
  induction nows as [|now nows IH]; intros st w; simpl;
    [apply fresh_tail_refl|].
  destruct (Page.check_notifications sites stamp now st w) as [[st' w'] o]
    eqn:Hpass. simpl.
  eapply fresh_tail_trans; [|apply IH].
  pose proof (page_pass_fresh sites stamp now st w) as H.
  by rewrite Hpass in H.
Qed.

Lemma unread_after_fresh_tail ns i n after n' :
  ns !! i = Some n ->
  count_id (n_id n) ns = 1%nat ->
  fresh_tail (<[i := mark_read n]> ns) after ->
  n' ∈ filter (fun n => truthy (n_read n) = false) after ->
  n_id n' <> n_id n.
Proof.
  intros Hi Hone (app & -> & Happ) [Hunread Hin]%list_elem_of_filter.
  pose proof (take_drop_middle ns i n Hi) as Hsplit.
  assert (Hlen : i = length (take i ns)).
  { rewrite length_take. apply lookup_lt_Some in Hi. lia. }
  rewrite <- Hsplit in Hone.
  rewrite count_id_app, count_id_cons, decide_True in Hone by done.
  assert (Hins : <[i := mark_read n]> ns
                 = take i ns ++ mark_read n :: drop (S i) ns).
  { rewrite <- Hsplit at 1. rewrite Hlen at 1.
    by rewrite insert_app_r_alt, Nat.sub_diag by lia. }
  rewrite Hins in Hin, Happ.
  assert (Hout : forall m l, m ∈ l -> count_id (n_id n) l = 0%nat ->
                             n_id m <> n_id n).
  { intros m l Hm Hl Heq. apply list_elem_of_split in Hm as (l1 & l2 & ->).
    rewrite count_id_app, count_id_cons, decide_True in Hl by done. lia. }
  apply elem_of_app in Hin as [Hin|Hin].
  - apply elem_of_app in Hin as [Hin|Hin].
    + apply (Hout n' (take i ns)); [done|lia].
    + apply elem_of_cons in Hin as [->|Hin]; [done|].
      apply (Hout n' (drop (S i) ns)); [done|lia].
  - apply Happ in Hin. intros Heq.
    rewrite count_id_app, count_id_cons, decide_True in Hin by done. lia.
Qed.

Lemma has_notification_mark_read x ns i n :
  ns !! i = Some n ->
  has_notification x (<[i := mark_read n]> ns) = has_notification x ns.
Proof.
  unfold has_notification. revert i.
  induction ns as [|m ns IH]; intros [|i] Hi; simpl in *; try done.
  - by injection Hi as ->.
  - by rewrite IH.
Qed.

(** X26: dismissing an unread notification, the only one with its id,
    takes it out of the unread list and nothing else; it stays in the
    session's list, so that every test for its id answers as before,
    and however often the page is rendered or
    [check_enhanced_schedule_notifications] is called afterwards, no
    unread notification with that id appears again. *)
Theorem dismissed_notification_stays_hidden i st n sites stamp w nows :
  notifications st !! i = Some n ->
  truthy (n_read n) = false ->
  count_id (n_id n) (notifications st) = 1%nat ->
  let st' := click_dismiss i st in
  get_unread_notifications st'
  = get_unread_notifications
      (set_notifications (delete i (notifications st)) st) /\
  schedules st' = schedules st /\
  (forall x, has_notification x (notifications st')
             = has_notification x (notifications st)) /\
  (forall n',
     n' ∈ get_unread_notifications (page_run sites stamp nows st' w).1 ->
     n_id n' <> n_id n) /\
  (forall n',
     n' ∈ get_unread_notifications (enhanced_run nows st') ->
     n_id n' <> n_id n).
Proof.
  intros Hi Hunread Hone st'.
  assert (Hst' : st' = set_notifications
                         (<[i := mark_read n]> (notifications st)) st).
  { unfold st', click_dismiss. by rewrite Hi, Hunread. }
  pose proof (take_drop_middle (notifications st) i n Hi) as Hsplit.
  assert (Hlen : i = length (take i (notifications st))).
  { rewrite length_take. apply lookup_lt_Some in Hi. lia. }
  assert (Hins : <[i := mark_read n]> (notifications st)
                 = take i (notifications st)
                   ++ mark_read n :: drop (S i) (notifications st)).
  { rewrite <- Hsplit at 1. rewrite Hlen at 1.
    by rewrite insert_app_r_alt, Nat.sub_diag by lia. }
  assert (Hdel : delete i (notifications st)
                 = take i (notifications st) ++ drop (S i) (notifications st)).
  { by rewrite delete_take_drop. }
  split; [|split; [|split; [|split]]].
  - rewrite Hst'. unfold get_unread_notifications. simpl.
    rewrite Hins, Hdel, !filter_app, filter_cons.
    by rewrite decide_False by (simpl; discriminate).
  - by rewrite Hst'.
  - intros x. rewrite Hst'. simpl. by apply has_notification_mark_read.
  - intros n'. unfold get_unread_notifications.
    apply (unread_after_fresh_tail (notifications st) i); [done|done|].
    rewrite Hst'.
    apply (page_run_fresh sites stamp nows
             (set_notifications (<[i := mark_read n]> (notifications st)) st)).
  - intros n'. unfold get_unread_notifications.
    apply (unread_after_fresh_tail (notifications st) i); [done|done|].
    rewrite Hst'.
    apply (enhanced_run_fresh nows
             (set_notifications (<[i := mark_read n]> (notifications st)) st)).
Qed.


Lemma dismissed_notification_stays_hidden_witness :
  let st := session_showing [note "warning" 0; note "late" 1] in
  let n := note "warning" 0 in
  let st' := click_dismiss 0 st in
  get_unread_notifications st'
  = get_unread_notifications
      (set_notifications (delete 0%nat (notifications st)) st) /\
  schedules st' = schedules st /\
  (forall x, has_notification x (notifications st')
             = has_notification x (notifications st)) /\
  (forall n',
     n' ∈ get_unread_notifications
            (page_run default_blocked_sites "2025-01-01 14:00:00"
               [at_minute 840] st' (privileged localhost_only)).1 ->
     n_id n' <> n_id n) /\
  (forall n',
     n' ∈ get_unread_notifications (enhanced_run [at_minute 840] st') ->
     n_id n' <> n_id n).
Proof.
  intros st n.
  apply (dismissed_notification_stays_hidden 0 st n default_blocked_sites
           "2025-01-01 14:00:00" (privileged localhost_only)
           [at_minute 840]); reflexivity.
Defined.

Lemma start_first_spec sid now l :
  Forall (fun s => is_Some (s_id s)) l ->
  (start_first sid now l).2 = Return tt /\
  ((Forall (has_other_id sid) l /\ (start_first sid now l).1 = l)
   \/ exists p s,
        l !! p = Some s /\ s_id s = Some sid /\
        (start_first sid now l).1
        = <[p := set_flag AutoBlockTriggered false
                   (set_stamp StartTimestamp now (set_flag Started true s))]>
            l).
Proof.
  induction 1 as [|x l [xi Hxi] _ [IH1 IH2]]; simpl.
  { split; [done|]. left. by split. }
  rewrite Hxi. simpl.
  destruct (String.eqb_spec xi sid) as [->|Hne]; simpl.
  { split; [done|]. right. by exists 0%nat, x. }
  destruct (start_first sid now l) as [rest o]. simpl in *.
  split; [done|].
  destruct IH2 as [[Hall ->]|(p & s0 & Hp & Hs0 & ->)].
  - left. split; [|done]. constructor; [|done]. by exists xi.
  - right. by exists (S p), s0.
Qed.

(** X27: the Start button of an unread notification, on a store whose
    schedules carry distinct ids, marks the notification read and
    leaves every schedule with the notification's schedule id started,
    stamped with the clock reading and with [auto_block_triggered]
    cleared; all other schedules stay in place, unchanged. *)
Theorem notification_start_button now i st n :
  notifications st !! i = Some n ->
  truthy (n_read n) = false ->
  offers_start n = true ->
  Forall (fun s => is_Some (s_id s)) (schedules st) ->
  NoDup (s_id <$> schedules st) ->
  let st' := (click_notification_start now i st).1 in
  (click_notification_start now i st).2 = Return tt /\
  notifications st' = <[i := mark_read n]> (notifications st) /\
  length (schedules st') = length (schedules st) /\
  (forall s, s ∈ schedules st' -> s_id s = Some (n_schedule_id n) ->
     s_started s = Some true /\ s_start_timestamp s = Some now /\
     s_auto_block_triggered s = Some false) /\
  (forall j s, schedules st !! j = Some s ->
     s_id s <> Some (n_schedule_id n) -> schedules st' !! j = Some s).
Proof.
  intros Hi Hunread Hoffer Hids Hnd. unfold click_notification_start.
  rewrite Hi, Hunread, Hoffer. simpl.
  destruct (start_first_spec (n_schedule_id n) now (schedules st) Hids)
    as [Ho Hl].
  destruct (start_first (n_schedule_id n) now (schedules st)) as [l o].
  simpl in *. subst o. simpl.
  destruct Hl as [[Hall ->]|(p & s0 & Hp & Hs0 & ->)].
  - split; [done|]. split; [done|]. split; [done|]. split; [|done].
    intros s Hs Hid. rewrite Forall_forall in Hall.
    destruct (Hall s Hs) as (x & Hx & Hne). congruence.
  - assert (Honly : forall s, s ∈ <[p := set_flag AutoBlockTriggered false
                        (set_stamp StartTimestamp now
                           (set_flag Started true s0))]> (schedules st) ->
              s_id s = Some (n_schedule_id n) ->
              s = set_flag AutoBlockTriggered false
                    (set_stamp StartTimestamp now (set_flag Started true s0))).
    { intros s [j Hj]%list_elem_of_lookup Hid.
      destruct (decide (j = p)) as [->|Hjp].
      - apply list_lookup_insert_Some in Hj as [(_ & <- & _)|(? & _)]; done.
      - rewrite list_lookup_insert_ne in Hj by done. exfalso. apply Hjp.
        apply (NoDup_lookup _ j p (Some (n_schedule_id n)) Hnd).
        + by rewrite list_lookup_fmap, Hj; simpl; rewrite Hid.
        + by rewrite list_lookup_fmap, Hp; simpl; rewrite Hs0. }
    split; [done|]. split; [done|]. split; [by rewrite length_insert|].
    split.
    + intros s Hs Hid. by rewrite (Honly s Hs Hid).
    + intros j s Hj Hne. rewrite list_lookup_insert_ne; [done|].
      intros ->. congruence.
Qed.


Lemma notification_start_button_witness :
  let st := set_notifications [note "warning" 0] study_session in
  let n := note "warning" 0 in
  let now := at_minute 846 in
  let st' := (click_notification_start now 0 st).1 in
  (click_notification_start now 0 st).2 = Return tt /\
  notifications st' = <[0%nat := mark_read n]> (notifications st) /\
  length (schedules st') = length (schedules st) /\
  (forall s, s ∈ schedules st' -> s_id s = Some (n_schedule_id n) ->
     s_started s = Some true /\ s_start_timestamp s = Some now /\
     s_auto_block_triggered s = Some false) /\
  (forall j s, schedules st !! j = Some s ->
     s_id s <> Some (n_schedule_id n) -> schedules st' !! j = Some s).
Proof.
  intros st n now.
  apply (notification_start_button now 0 st n).
  - reflexivity.
  - reflexivity.
  - reflexivity.
  - repeat constructor. by eexists.
  - apply (bool_decide_unpack _). vm_compute. exact I.
Defined.

End Buttons.

(** ** enhanced_notifications.py: what the display shows *)

Section EnhancedDisplay.
Import Store Manager Display.

Lemma show_auto_block_returns l :
  Forall (fun n => is_Some (n_time_diff n)) l ->
  show_auto_block l = Return l.
Proof.
  induction 1 as [|n l [t Ht] _ IH]; simpl; [done|].
  by rewrite Ht, IH.
Qed.

Lemma show_other_returns l :
  Forall (fun n => is_Some (n_severity n) /\ n_message n = true
                   /\ is_Some (n_type n)) l ->
  show_other l = Return l.
Proof.
  induction 1 as [|n l ([s Hs] & Hm & [t Ht]) _ IH]; simpl; [done|].
  unfold message_of. by rewrite Hs, Hm, Ht, IH.
Qed.

Lemma show_auto_block_cases l :
  show_auto_block l = Return l
  \/ show_auto_block l = Raise (KeyError "time_diff").
Proof.
  induction l as [|n l IH]; simpl; [by left|].
  destruct (n_time_diff n); simpl; [|by right].
  destruct IH as [->| ->]; simpl; auto.
Qed.

Lemma show_other_raises l n :
  n ∈ l -> n_severity n = None ->
  exists key, show_other l = Raise (KeyError key).
Proof.
  induction l as [|m l IH]; intros Hin Hn; [by apply elem_of_nil in Hin|].
  simpl. destruct (n_severity m) eqn:Hs; simpl; [|by eexists].
  unfold message_of. destruct (n_message m); simpl; [|by eexists].
  destruct (n_type m); simpl; [|by eexists].
  apply elem_of_cons in Hin as [->|Hin]; [congruence|].
  destruct (IH Hin Hn) as [key ->]. by eexists.
Qed.

Lemma split_by_auto_block (l : list Notification) :
  filter (fun n => truthy (n_auto_block n) = true) l
  ++ filter (fun n => truthy (n_auto_block n) = false) l ≡ₚ l.
Proof.
  induction l as [|n l IH]; [done|]. rewrite !filter_cons.
  destruct (truthy (n_auto_block n)) eqn:Hb.
  - rewrite decide_True, decide_False by done. simpl. by rewrite IH.
  - rewrite decide_False, decide_True by done.
    rewrite <- Permutation_middle. by rewrite IH.
Qed.

(** X28: when every unread notification carries the keys that its branch
    of [show_enhanced_notifications] reads (['time_diff'] for an
    auto-block notification, ['severity'], ['message'] and ['type'] for
    another), the display shows every unread notification exactly once:
    first the auto-block ones in list order, then the others in the
    order of [severity_order] (high, urgent, medium, warning, info,
    anything else last), notifications of equal rank in list order. *)
Theorem severity_display_sequence st :
  Forall (fun n => if truthy (n_auto_block n) then is_Some (n_time_diff n)
                   else is_Some (n_severity n) /\ n_message n = true
                        /\ is_Some (n_type n))
    (get_unread_notifications st) ->
  exists shown,
    show_enhanced_notifications st = Return shown /\
    shown ≡ₚ get_unread_notifications st /\
    shown = auto_block_notifs st ++ sorted severity_key (other_notifs st) /\
    StronglySorted (fun a b => (severity_key a <= severity_key b)%nat)
      (sorted severity_key (other_notifs st)) /\
    (forall r,
       filter (fun n => severity_key n = r)
         (sorted severity_key (other_notifs st))
       = filter (fun n => severity_key n = r) (other_notifs st)).
Proof.
  intros Hall. unfold show_enhanced_notifications.
  rewrite show_auto_block_returns.
  2:{ unfold auto_block_notifs. apply Forall_forall.
      intros n [Hb Hn]%list_elem_of_filter.
      rewrite Forall_forall in Hall. apply Hall in Hn. by rewrite Hb in Hn. }
  simpl. rewrite show_other_returns.
  2:{ rewrite sorted_Permutation. unfold other_notifs. apply Forall_forall.
      intros n [Hb Hn]%list_elem_of_filter.
      rewrite Forall_forall in Hall. apply Hall in Hn. by rewrite Hb in Hn. }
  simpl. eexists. split; [reflexivity|]. split; [|split; [done|split]].
  - rewrite sorted_Permutation. apply split_by_auto_block.
  - apply sorted_StronglySorted; [lia|lia|].
    by apply StronglySorted_total.
  - intros r. apply sorted_filter.
Qed.

(** X29: an unread notification without ['severity'] that is not an
    auto-block one makes [show_enhanced_notifications] raise KeyError.
    The notifications made by the loop of [show_schedule_manager] and by
    the evaluators of config.py and enhanced_schedule_config.py are of
    that kind. *)
Theorem enhanced_display_needs_severity st n :
  n ∈ get_unread_notifications st ->
  truthy (n_auto_block n) = false ->
  n_severity n = None ->
  exists key, show_enhanced_notifications st = Raise (KeyError key).
Proof.
  intros Hin Hb Hs. unfold show_enhanced_notifications.
  assert (Hn : n ∈ sorted severity_key (other_notifs st)).
  { rewrite sorted_Permutation. unfold other_notifs.
    by apply list_elem_of_filter. }
  destruct (show_other_raises _ n Hn Hs) as [key Hkey].
  destruct (show_auto_block_cases (auto_block_notifs st)) as [->| ->]; simpl.
  - rewrite Hkey. by eexists.
  - by eexists.
Qed.


Lemma severity_display_sequence_witness :
  let st :=
    (Enhanced.check_enhanced_schedule_notifications (at_minute 840)
       busy_session).1 in
  (n_id <$> get_unread_notifications st
   = ["10min_schedule_0_1700000000.0";
      "missed_5min_schedule_1_1700000060.0";
      "auto_block_schedule_2_1700000120.0"]%string /\
   n_severity <$> get_unread_notifications st
   = [Some "info"; Some "high"; Some "critical"]%string) /\
  (exists shown,
     show_enhanced_notifications st = Return shown /\
     shown ≡ₚ get_unread_notifications st /\
     shown = auto_block_notifs st ++ sorted severity_key (other_notifs st) /\
     StronglySorted (fun a b => (severity_key a <= severity_key b)%nat)
       (sorted severity_key (other_notifs st)) /\
     (forall r,
        filter (fun n => severity_key n = r)
          (sorted severity_key (other_notifs st))
        = filter (fun n => severity_key n = r) (other_notifs st))) /\
  n_id <$> (auto_block_notifs st ++ sorted severity_key (other_notifs st))
  = ["auto_block_schedule_2_1700000120.0";
     "missed_5min_schedule_1_1700000060.0";
     "10min_schedule_0_1700000000.0"]%string.
Proof.
  intros st. split; [by vm_compute|]. split; [|by vm_compute].
  apply (severity_display_sequence st).
  vm_compute. repeat constructor; by eexists.
Defined.

Lemma enhanced_display_needs_severity_witness :
  exists key,
    show_enhanced_notifications (session_showing [note "warning" 0])
    = Raise (KeyError key).
Proof.
  apply (enhanced_display_needs_severity
           (session_showing [note "warning" 0]) (note "warning" 0)).
  - vm_compute. apply elem_of_cons. by left.
  - reflexivity.
  - reflexivity.
Defined.

End EnhancedDisplay.

(** ** config.py: the study streak *)

Section Streak.
Import Clock Focus.

Lemma insert_desc_Permutation x l : insert_desc x l ≡ₚ x :: l.
Proof.
  induction l as [|y l IH]; simpl; [done|].
  destruct (y <=? x); [done|]. rewrite IH. apply Permutation_swap.
Qed.

Lemma sorted_desc_Permutation l : sorted_desc l ≡ₚ l.
Proof.
  induction l as [|x l IH]; simpl; [done|].
  by rewrite insert_desc_Permutation, IH.
Qed.

Lemma insert_desc_sorted x l :
  StronglySorted (fun a b => b <= a) l ->
  StronglySorted (fun a b => b <= a) (insert_desc x l).
Proof.
  induction 1 as [|y l Hl IH Hy]; simpl; [repeat constructor|].
  destruct (y <=? x) eqn:E.
  - apply Z.leb_le in E. constructor; [by constructor|].
    constructor; [done|]. eapply Forall_impl; [exact Hy|].
    intros b Hb. simpl in *. lia.
  - apply Z.leb_gt in E. constructor; [done|].
    rewrite insert_desc_Permutation. constructor; [lia|done].
Qed.

Lemma sorted_desc_sorted l :
  StronglySorted (fun a b => b <= a) (sorted_desc l).
Proof.
  induction l as [|x l IH]; simpl; [constructor|].
  by apply insert_desc_sorted.
Qed.

Lemma date_of_mono a b : a <= b -> date_of a <= date_of b.
Proof.
  unfold date_of, us_per_day, us_per_second. intros.
  by apply Z.div_le_mono.
Qed.

Lemma streak_loop_spec streak current rest :
  StronglySorted (fun a b => b <= a) rest ->
  Forall (fun d => date_of d <= current) rest ->
  let r := streak_loop streak current rest in
  streak <= r /\
  (forall k, 0 < k <= r - streak ->
     exists d, d ∈ rest /\ date_of d = current - k) /\
  (forall d, d ∈ rest -> date_of d <> current - (r - streak) - 1).
Proof.
  intros Hsorted. revert streak current.
  induction Hsorted as [|d rest Hrest IH Hd]; intros streak current Hle;
    simpl.
  { split; [lia|]. split; [intros; lia|]. by intros d ?%elem_of_nil. }
  apply Forall_cons in Hle as [Hdc Hle].
  assert (Hbelow : Forall (fun d' => date_of d' <= date_of d) rest).
  { eapply Forall_impl; [exact Hd|]. intros b Hb. by apply date_of_mono. }
  destruct (current - date_of d =? 1) eqn:E1.
  - apply Z.eqb_eq in E1.
    destruct (IH (streak + 1) (date_of d) Hbelow) as (H1 & H2 & H3).
    set (r := streak_loop (streak + 1) (date_of d) rest) in *.
    split; [lia|]. split.
    + intros k Hk. destruct (decide (k = 1)) as [->|].
      * exists d. split; [left|lia].
      * destruct (H2 (k - 1)) as (d' & Hin & Hd'); [lia|].
        exists d'. split; [by right|lia].
    + intros d' [->|Hin]%elem_of_cons; [lia|].
      apply H3 in Hin. lia.
  - apply Z.eqb_neq in E1.
    destruct (1 <? current - date_of d) eqn:E2.
    + apply Z.ltb_lt in E2. split; [lia|]. split; [intros; lia|].
      intros d' [->|Hin]%elem_of_cons; [lia|].
      rewrite Forall_forall in Hbelow. apply Hbelow in Hin. lia.
    + apply Z.ltb_ge in E2.
      destruct (IH streak current Hle) as (H1 & H2 & H3).
      set (r := streak_loop streak current rest) in *.
      split; [lia|]. split.
      * intros k Hk. destruct (H2 k Hk) as (d' & Hin & Hd').
        exists d'. split; [by right|done].
      * intros d' [->|Hin]%elem_of_cons; [lia|]. by apply H3.
Qed.

Lemma dates_present sessions :
  Forall is_Some sessions ->
  exists ds, dates sessions = Return ds /\ sessions = Some <$> ds.
Proof.
  induction 1 as [|x l [d ->] _ (ds & IH & ->)]; simpl; [by exists []|].
  rewrite IH. simpl. by exists (d :: ds).
Qed.

(** X30: for a non-empty list of focus sessions that all carry a date,
    [calculate_study_streak] returns [n >= 1] such that, counting back
    from the day of the latest session, each of the [n] days has a
    session and the day before them has none: the streak is the run of
    consecutive days that ends with the latest session, in whatever
    order the sessions are stored and however many there are on a
    day. *)
Theorem study_streak_counts_back_from_the_latest_day sessions :
  sessions <> [] ->
  Forall is_Some sessions ->
  exists n latest,
    calculate_study_streak sessions = Return n /\
    1 <= n /\
    (forall d, Some d ∈ sessions -> date_of d <= latest) /\
    (forall k, 0 <= k < n ->
       exists d, Some d ∈ sessions /\ date_of d = latest - k) /\
    (forall d, Some d ∈ sessions -> date_of d <> latest - n).
Proof.
  intros Hne Hall. unfold calculate_study_streak.
  destruct (dates_present sessions Hall) as (ds & Hds & ->).
  destruct ds as [|d0 ds0]; [done|]. clear Hne Hall.
  set (ds := d0 :: ds0) in *.
  change (Some <$> ds) with (Some d0 :: (Some <$> ds0)) at 1.
  cbv iota. rewrite Hds. simpl mbind. cbv beta.
  pose proof (sorted_desc_Permutation ds) as Hperm.
  pose proof (sorted_desc_sorted ds) as Hsorted.
  assert (Hmem : forall d, Some d ∈ Some <$> ds <-> d ∈ sorted_desc ds).
  { intros d. rewrite Hperm. rewrite list_elem_of_fmap. split.
    - by intros (d' & [= ->] & Hin).
    - intros Hin. by exists d. }
  destruct (sorted_desc ds) as [|first rest] eqn:Hsd.
  { apply Permutation_nil_l in Hperm. done. }
  apply StronglySorted_inv in Hsorted as [Hrest Hfirst].
  assert (Hbelow : Forall (fun d => date_of d <= date_of first) rest).
  { eapply Forall_impl; [exact Hfirst|]. intros b Hb.
    by apply date_of_mono. }
  destruct (streak_loop_spec 1 (date_of first) rest Hrest Hbelow)
    as (H1 & H2 & H3).
  set (n := streak_loop 1 (date_of first) rest) in *.
  exists n, (date_of first).
  split.
  { change (insert_desc d0 (sorted_desc ds0)) with (sorted_desc ds).
    by rewrite Hsd. }
  split; [done|].
  split; [|split].
  - intros d [->|Hin]%Hmem%elem_of_cons; [done|].
    rewrite Forall_forall in Hbelow. by apply Hbelow.
  - intros k Hk. destruct (decide (k = 0)) as [->|].
    + exists first. split; [apply Hmem; left|lia].
    + destruct (H2 k) as (d & Hin & Hd); [lia|].
      exists d. split; [apply Hmem; by right|done].
  - intros d [->|Hin]%Hmem%elem_of_cons; [lia|].
    apply H3 in Hin. lia.
Qed.


Lemma study_streak_counts_back_from_the_latest_day_witness :
  let sessions :=
    [Some (at_minute 600); Some (at_minute 900 - us_per_day);
     Some (at_minute 700); Some (at_minute 600 - 3 * us_per_day)] in
  exists n latest,
    calculate_study_streak sessions = Return n /\
    1 <= n /\
    (forall d, Some d ∈ sessions -> date_of d <= latest) /\
    (forall k, 0 <= k < n ->
       exists d, Some d ∈ sessions /\ date_of d = latest - k) /\
    (forall d, Some d ∈ sessions -> date_of d <> latest - n).
Proof.
  intros sessions.
  apply (study_streak_counts_back_from_the_latest_day sessions).
  - discriminate.
  - repeat constructor; by eexists.
Defined.

End Streak.
